(** * alpha_db: the record store, its indexes and the SQL front end

    A shallow embedding of [src/Table.js], [src/Database.js] and
    [SQLParser.js] and the properties of the specification that concern
    them.

    Conventions of the embedding.
    - JavaScript values are the inductive [JS.value].  Numbers are exact
      decimal fractions, the infinities and NaN ([JS.number]); binary
      rounding of doubles and the exponent notation that [String] uses for
      very large or very small magnitudes are not represented.  A statement
      about the result of an addition is made for integers below 2^53,
      where the sum of doubles is the exact sum.
    - Strings are sequences of characters of the ASCII range.
    - Objects are association lists in property order (array-index keys in
      ascending order first, then the other keys in insertion order).
      Inherited properties of [Object.prototype] are not represented, so a
      key such as [constructor] is an ordinary absent key.  The source uses
      plain objects as maps (the tables of a database, the indexes of a
      table, the buckets of an index) and reads them under keys that the
      data supply; under the name of a member of [Object.prototype] it
      finds the inherited member.  The statements that depend on such a
      read say so, and are made for the other names
      ([Spec.ordinaryName]).
    - Reference values (dates, arrays, nested objects) carry no identity;
      [===] on two of them is decided on their contents, and a statement
      that depends on such a comparison is made for the values that the
      source compares by content too ([Spec.primitive]).  Rows themselves do
      have identity in the source, and every comparison of a stored row with
      a copy made by [find] is written out as the constant it evaluates to.
    - A method that mutates [this] takes the table and returns the new one
      together with its outcome; a [throw] returns the table as it is at the
      point of the throw.
    - The time-zone-, locale- and engine-dependent built-ins ([Date.parse],
      [Date.prototype.toString], [toISOString], [RegExp]) are the fields of
      the class [Runtime]; the general statements hold for every instance,
      the closed examples are evaluated with the instance [Demo.runtime].
    - The text of the files is abstracted: a file holds the value that
      [JSON.parse] returns for it, and a write never fails. *)

From Stdlib Require Import ZArith List String Ascii Bool Lia.
From Stdlib Require Import Numbers.DecimalString.
From Stdlib Require Import Sorting.Permutation.
Import ListNotations.

Open Scope string_scope.
Open Scope Z_scope.

Set Implicit Arguments.
Set Warnings "-register-all".

(* ================================================================== *)
(** * Strings *)
(* ================================================================== *)

Module Str.

Definition chars (s : string) : list ascii := list_ascii_of_string s.
Definition ofChars (l : list ascii) : string := string_of_list_ascii l.

Definition code (c : ascii) : Z := Z.of_nat (nat_of_ascii c).

Definition isDigit (c : ascii) : bool := (48 <=? code c) && (code c <=? 57).

(** White space and line terminators of the ASCII range, as [\s] and
    [String.prototype.trim] see them. *)
Definition isSpace (c : ascii) : bool :=
  let n := code c in
  (n =? 32) || (n =? 9) || (n =? 10) || (n =? 11) || (n =? 12) || (n =? 13).

Definition upperChar (c : ascii) : ascii :=
  let n := code c in
  if (97 <=? n) && (n <=? 122) then ascii_of_nat (Z.to_nat (n - 32)) else c.

Definition lowerChar (c : ascii) : ascii :=
  let n := code c in
  if (65 <=? n) && (n <=? 90) then ascii_of_nat (Z.to_nat (n + 32)) else c.

Fixpoint map (f : ascii -> ascii) (s : string) : string :=
  match s with
  | EmptyString => EmptyString
  | String c r => String (f c) (map f r)
  end.

Definition toUpperCase : string -> string := map upperChar.
Definition toLowerCase : string -> string := map lowerChar.

Definition startsWith (s p : string) : bool := prefix p s.

(** [s.endsWith(p)]: [p] is [s] or ends the tail of [s]. *)
Fixpoint endsWith (s p : string) : bool :=
  String.eqb s p
  || match s with
     | EmptyString => false
     | String _ r => endsWith r p
     end.

(** [s.slice(1, -1)] *)
Definition slice_1_m1 (s : string) : string :=
  ofChars (List.removelast (List.tl (chars s))).

(** [s.replace(/c/g, by)] for a one-character pattern. *)
Fixpoint replaceAll (c : ascii) (by_ : string) (s : string) : string :=
  match s with
  | EmptyString => EmptyString
  | String d r =>
      if Ascii.eqb d c then by_ ++ replaceAll c by_ r
      else String d (replaceAll c by_ r)
  end.

(** What follows [pat] in [s] when [s] starts with [pat]. *)
Fixpoint dropPrefix (pat s : string) : option string :=
  match pat with
  | EmptyString => Some s
  | String c p =>
      match s with
      | EmptyString => None
      | String d r => if Ascii.eqb c d then dropPrefix p r else None
      end
  end.

(** [s.replace(pat, by)] for a string pattern: the first occurrence. *)
Fixpoint replaceFirst (pat by_ : string) (s : string) : string :=
  match dropPrefix pat s with
  | Some rest => by_ ++ rest
  | None =>
      match s with
      | EmptyString => EmptyString
      | String c r => String c (replaceFirst pat by_ r)
      end
  end.

(** [s.split(/\s+/).filter(t => t.length > 0)] *)
Fixpoint splitSpaces (cur : list ascii) (s : string) : list string :=
  let flush := match cur with
               | nil => nil
               | _ => [ofChars (List.rev cur)]
               end in
  match s with
  | EmptyString => flush
  | String c r =>
      if isSpace c then (flush ++ splitSpaces nil r)%list
      else splitSpaces (c :: cur) r
  end.

Definition trim (s : string) : string :=
  let dropl := fix dropl (l : list ascii) : list ascii :=
    match l with
    | c :: r => if isSpace c then dropl r else l
    | nil => nil
    end in
  ofChars (List.rev (dropl (List.rev (dropl (chars s))))).

(** Maximal prefix of characters satisfying [p], and the rest. *)
Fixpoint span (p : ascii -> bool) (l : list ascii) : list ascii * list ascii :=
  match l with
  | c :: r => if p c then let (a, b) := span p r in (c :: a, b) else (nil, l)
  | nil => (nil, nil)
  end.

Definition ofZ (z : Z) : string := NilZero.string_of_int (Z.to_int z).

End Str.

(* ================================================================== *)
(** * JavaScript numbers, values and objects *)
(* ================================================================== *)

Module JS.

(** ** Numbers *)

(** [Dec m k] is the number [m / 10^k]; it is kept in lowest terms
    ([k = 0] or [m] not a multiple of ten) by [normDec]. *)
Inductive number : Type :=
| NaN
| Inf (negative : bool)
| Dec (m : Z) (k : nat).

Definition Int (z : Z) : number := Dec z 0.

Fixpoint normDec (m : Z) (k : nat) : number :=
  match k with
  | O => Dec m 0
  | S k' => if m mod 10 =? 0 then normDec (m / 10) k' else Dec m k
  end.

Definition pow10 (k : nat) : Z := 10 ^ Z.of_nat k.

Definition isNaN (n : number) : bool :=
  match n with NaN => true | _ => false end.

(** Numeric comparison; [None] when an operand is NaN. *)
Definition numCompare (a b : number) : option comparison :=
  match a, b with
  | NaN, _ | _, NaN => None
  | Inf x, Inf y =>
      Some (match x, y with
            | true, false => Lt | false, true => Gt | _, _ => Eq end)
  | Inf x, Dec _ _ => Some (if x then Lt else Gt)
  | Dec _ _, Inf y => Some (if y then Gt else Lt)
  | Dec m1 k1, Dec m2 k2 => Some (Z.compare (m1 * pow10 k2) (m2 * pow10 k1))
  end.

Definition numEq (a b : number) : bool :=
  match numCompare a b with Some Eq => true | _ => false end.

Definition numLt (a b : number) : option bool :=
  match numCompare a b with
  | Some Lt => Some true
  | Some _ => Some false
  | None => None
  end.

(** [a + b] *)
Definition numAdd (a b : number) : number :=
  match a, b with
  | NaN, _ | _, NaN => NaN
  | Inf x, Inf y => if Bool.eqb x y then Inf x else NaN
  | Inf x, _ | _, Inf x => Inf x
  | Dec m1 k1, Dec m2 k2 =>
      normDec (m1 * pow10 k2 + m2 * pow10 k1) (k1 + k2)%nat
  end.

(** [Math.max(a, b)] on numbers. *)
Definition numMax (a b : number) : number :=
  match numCompare a b with
  | None => NaN
  | Some Lt => b
  | Some _ => a
  end.

(** [String(n)] *)
Definition numToString (n : number) : string :=
  match n with
  | NaN => "NaN"
  | Inf false => "Infinity"
  | Inf true => "-Infinity"
  | Dec m k =>
      match normDec m k with
      | Dec m k =>
          let a := Z.abs m in
          let sign := if m <? 0 then "-" else "" in
          match k with
          | O => sign ++ Str.ofZ a
          | _ =>
              let frac := Str.ofZ (a mod pow10 k) in
              let pad :=
                Str.ofChars
                  (List.repeat "0"%char (k - String.length frac)%nat) in
              sign ++ Str.ofZ (a / pow10 k) ++ "." ++ pad ++ frac
          end
      | _ => "NaN"
      end
  end.

(** Value of a digit in a radix up to 16. *)
Definition digitValue (c : ascii) : option Z :=
  let n := Str.code c in
  if (48 <=? n) && (n <=? 57) then Some (n - 48)
  else if (97 <=? n) && (n <=? 102) then Some (n - 87)
  else if (65 <=? n) && (n <=? 70) then Some (n - 55)
  else None.

Definition isRadixDigit (radix : Z) (c : ascii) : bool :=
  match digitValue c with
  | Some d => d <? radix
  | None => false
  end.

Definition digitsValue (radix : Z) (l : list ascii) : Z :=
  fold_left (fun acc c =>
               acc * radix + match digitValue c with Some d => d | None => 0 end)
            l 0.

(** Splits an optional sign off: [(negative, rest)]. *)
Definition takeSign (l : list ascii) : bool * list ascii :=
  match l with
  | "-"%char :: r => (true, r)
  | "+"%char :: r => (false, r)
  | _ => (false, l)
  end.

(** A non-decimal integer literal [0x..], [0o..] or [0b..] (no sign). *)
Definition radixLiteral (l : list ascii) : option number :=
  match l with
  | "0"%char :: p :: ds =>
      let radix :=
        match Str.lowerChar p with
        | "x"%char => Some 16
        | "o"%char => Some 8
        | "b"%char => Some 2
        | _ => None
        end in
      match radix, ds with
      | Some r, _ :: _ =>
          if forallb (isRadixDigit r) ds then Some (Int (digitsValue r ds))
          else None
      | _, _ => None
      end
  | _ => None
  end.

(** The exponent part [e[+-]ddd] of a decimal literal, or nothing. *)
Definition exponentPart (l : list ascii) : option Z :=
  match l with
  | nil => Some 0
  | c :: r =>
      if Ascii.eqb (Str.lowerChar c) "e" then
        let (neg, ds) := takeSign r in
        match ds with
        | nil => None
        | _ => if forallb Str.isDigit ds
               then Some (if neg then - digitsValue 10 ds else digitsValue 10 ds)
               else None
        end
      else None
  end.

(** A signed decimal literal or [Infinity]. *)
Definition decimalLiteral (l : list ascii) : option number :=
  let (neg, body) := takeSign l in
  if String.eqb (Str.ofChars body) "Infinity" then Some (Inf neg) else
  let (ip, r1) := Str.span Str.isDigit body in
  let (fp, r2) :=
    match r1 with
    | "."%char :: r => Str.span Str.isDigit r
    | _ => (nil, r1)
    end in
  match (ip ++ fp)%list with
  | nil => None
  | ds =>
      match exponentPart r2 with
      | None => None
      | Some e =>
          let m := if neg then - digitsValue 10 ds else digitsValue 10 ds in
          let k := Z.of_nat (List.length fp) - e in
          Some (if k <=? 0 then Int (m * 10 ^ (- k)) else normDec m (Z.to_nat k))
      end
  end.

(** [Number(s)] for a string: the empty or blank string is 0, anything
    that is not a numeric literal is NaN. *)
Definition StringToNumber (s : string) : number :=
  let l := Str.chars (Str.trim s) in
  match l with
  | nil => Int 0
  | _ =>
      match radixLiteral l with
      | Some n => n
      | None => match decimalLiteral l with Some n => n | None => NaN end
      end
  end.

(** [parseInt(s)] without a radix argument: the longest integer prefix. *)
Definition parseInt (s : string) : number :=
  let (neg, body) := takeSign (Str.chars (Str.trim s)) in
  let (radix, body') :=
    match body with
    | "0"%char :: p :: r =>
        if Ascii.eqb (Str.lowerChar p) "x" then (16, r) else (10, body)
    | _ => (10, body)
    end in
  let (ds, _) := Str.span (isRadixDigit radix) body' in
  match ds with
  | nil => NaN
  | _ => Int (if neg then - digitsValue radix ds else digitsValue radix ds)
  end.

(** ** Values *)

Inductive value : Type :=
| VUndefined
| VNull
| VBool (b : bool)
| VNum (n : number)
| VStr (s : string)
| VDate (time : number)
| VArr (items : list value)
| VObj (fields : list (string * value)).

(** The built-ins whose result depends on the engine, the locale or the
    time zone.  [RegExp_test src s] is [new RegExp(src).test(s)], [None]
    when [src] is not a regular expression (a SyntaxError). *)
Class Runtime : Type := {
  Date_parse : string -> number;
  Date_toString : number -> string;
  Date_toISOString : number -> string;
  RegExp_test : string -> string -> option bool
}.

Definition typeof (v : value) : string :=
  match v with
  | VUndefined => "undefined"
  | VBool _ => "boolean"
  | VNum _ => "number"
  | VStr _ => "string"
  | VNull | VDate _ | VArr _ | VObj _ => "object"
  end.

Definition isArray (v : value) : bool :=
  match v with VArr _ => true | _ => false end.

Definition isUndefined (v : value) : bool :=
  match v with VUndefined => true | _ => false end.

(** [Boolean(v)], the truthiness of [v]. *)
Definition ToBoolean (v : value) : bool :=
  match v with
  | VUndefined | VNull => false
  | VBool b => b
  | VNum n => match numCompare n (Int 0) with
              | None | Some Eq => false
              | Some _ => true
              end
  | VStr s => negb (String.eqb s "")
  | VDate _ | VArr _ | VObj _ => true
  end.

Section WithRuntime.
Context {rt : Runtime}.

(** [String(v)]; it is also the property key [v] is turned into by
    [o[v]]. *)
Fixpoint ToString (v : value) : string :=
  match v with
  | VUndefined => "undefined"
  | VNull => "null"
  | VBool true => "true"
  | VBool false => "false"
  | VNum n => numToString n
  | VStr s => s
  | VDate t => if isNaN t then "Invalid Date" else Date_toString t
  | VArr items =>
      String.concat ","
        (List.map (fun x => match x with
                            | VUndefined | VNull => ""
                            | _ => ToString x
                            end) items)
  | VObj _ => "[object Object]"
  end.

(** [Number(v)] *)
Definition ToNumber (v : value) : number :=
  match v with
  | VUndefined => NaN
  | VNull => Int 0
  | VBool true => Int 1
  | VBool false => Int 0
  | VNum n => n
  | VStr s => StringToNumber s
  | VDate t => t
  | VArr _ => StringToNumber (ToString v)
  | VObj _ => NaN
  end.

(** [ToPrimitive] with the default hint: a date gives its string. *)
Definition ToPrimitive (v : value) : value :=
  match v with
  | VDate _ | VArr _ | VObj _ => VStr (ToString v)
  | _ => v
  end.

(** [ToPrimitive] with hint number: a date gives its time value. *)
Definition ToPrimitiveNumber (v : value) : value :=
  match v with
  | VDate t => VNum t
  | VArr _ | VObj _ => VStr (ToString v)
  | _ => v
  end.

End WithRuntime.

(** Structural equality of values, numbers compared numerically. *)
Fixpoint sameContents (a b : value) : bool :=
  match a, b with
  | VUndefined, VUndefined | VNull, VNull => true
  | VBool x, VBool y => Bool.eqb x y
  | VNum x, VNum y => numEq x y
  | VStr x, VStr y => String.eqb x y
  | VDate x, VDate y => numEq x y
  | VArr xs, VArr ys =>
      (fix all2 (xs ys : list value) : bool :=
         match xs, ys with
         | nil, nil => true
         | x :: xr, y :: yr => sameContents x y && all2 xr yr
         | _, _ => false
         end) xs ys
  | VObj xs, VObj ys =>
      (fix all2 (xs ys : list (string * value)) : bool :=
         match xs, ys with
         | nil, nil => true
         | (k, x) :: xr, (l, y) :: yr =>
             String.eqb k l && sameContents x y && all2 xr yr
         | _, _ => false
         end) xs ys
  | _, _ => false
  end.

(** [a === b] *)
Definition strictEq (a b : value) : bool := sameContents a b.

Section WithRuntime2.
Context {rt : Runtime}.

(** [a == b] *)
Definition looseEq (a b : value) : bool :=
  let prim (x y : value) : bool :=   (* both primitive, no boolean *)
    match x, y with
    | VNum n, VStr s | VStr s, VNum n => numEq n (StringToNumber s)
    | _, _ => strictEq x y
    end in
  let unbool (x : value) : value :=
    match x with VBool _ => VNum (ToNumber x) | _ => x end in
  let isRef (x : value) : bool :=
    match x with VDate _ | VArr _ | VObj _ => true | _ => false end in
  match a, b with
  | VUndefined, VNull | VNull, VUndefined => true
  | (VUndefined | VNull), _ | _, (VUndefined | VNull) => strictEq a b
  | VBool x, VBool y => Bool.eqb x y
  | _, _ =>
      if isRef a && isRef b then strictEq a b
      else prim (ToPrimitive (unbool a)) (ToPrimitive (unbool b))
  end.

(** [a < b]; [None] is the undefined result of a comparison with NaN. *)
Definition lessThan (a b : value) : option bool :=
  match ToPrimitiveNumber a, ToPrimitiveNumber b with
  | VStr x, VStr y => Some (String.ltb x y)
  | x, y => numLt (ToNumber x) (ToNumber y)
  end.

Definition jsLt (a b : value) : bool :=
  match lessThan a b with Some true => true | _ => false end.
Definition jsGt (a b : value) : bool := jsLt b a.
Definition jsLe (a b : value) : bool :=
  match lessThan b a with Some false => true | _ => false end.
Definition jsGe (a b : value) : bool :=
  match lessThan a b with Some false => true | _ => false end.

End WithRuntime2.

(** ** Objects *)

(** An object with properties of type [A], in property order. *)
Definition obj (A : Type) : Type := list (string * A).

(** The array index a key denotes, if it is one: a canonical decimal
    numeral below [2^32 - 1]. *)
Definition arrayIndex (k : string) : option Z :=
  let l := Str.chars k in
  match l with
  | nil => None
  | c :: r =>
      if forallb Str.isDigit l
         && (negb (Ascii.eqb c "0") || match r with nil => true | _ => false end)
         && (digitsValue 10 l <? 4294967295)
      then Some (digitsValue 10 l) else None
  end.

Section Obj.
Variable A : Type.

Fixpoint get (o : obj A) (k : string) : option A :=
  match o with
  | nil => None
  | (k', v) :: r => if String.eqb k' k then Some v else get r k
  end.

(** [k in o] *)
Definition has (o : obj A) (k : string) : bool :=
  match get o k with Some _ => true | None => false end.

Fixpoint replace (o : obj A) (k : string) (v : A) : obj A :=
  match o with
  | nil => nil
  | (k', v') :: r =>
      if String.eqb k' k then (k', v) :: r else (k', v') :: replace r k v
  end.

Fixpoint insertIndexKey (o : obj A) (i : Z) (k : string) (v : A) : obj A :=
  match o with
  | nil => [(k, v)]
  | (k', v') :: r =>
      match arrayIndex k' with
      | Some j => if j <? i then (k', v') :: insertIndexKey r i k v
                  else (k, v) :: o
      | None => (k, v) :: o
      end
  end.

(** [o[k] = v] *)
Definition set (o : obj A) (k : string) (v : A) : obj A :=
  if has o k then replace o k v
  else match arrayIndex k with
       | Some i => insertIndexKey o i k v
       | None => (o ++ [(k, v)])%list
       end.

(** [Object.keys(o)], also the order of [for (k in o)]. *)
Definition keys (o : obj A) : list string := List.map fst o.

(** [{ ...a, ...b }] *)
Definition spread (a b : obj A) : obj A :=
  fold_left (fun acc kv => set acc (fst kv) (snd kv)) b a.

End Obj.

(** A record, a conditions mapping, a patch: an object of values. *)
Definition object : Type := obj value.

(** [o[k]] on an object of values: an absent property reads as
    [undefined]. *)
Definition prop (o : object) (k : string) : value :=
  match get o k with Some v => v | None => VUndefined end.

(** [v[k]] where [v] is a value; only objects have own data properties
    here. *)
Definition field (v : value) (k : string) : value :=
  match v with VObj f => prop f k | _ => VUndefined end.

(** [a.push(x)] *)
Definition push (A : Type) (a : list A) (x : A) : list A := (a ++ [x])%list.

(** ** Completions *)

(** How a call ends: it returns, it throws an [Error] with a message, or
    it never returns. *)
Inductive completion (A : Type) : Type :=
| Return (a : A)
| Throw (message : string)
| Diverge.
Arguments Return {A} a.
Arguments Throw {A} message.
Arguments Diverge {A}.

End JS.

(* ================================================================== *)
(** * Persistent storage *)
(* ================================================================== *)

Module Storage.
Import JS.

(** What a file of the data directory holds.  The text of a file is the
    JSON of the value written last; the embedding keeps the value that
    [JSON.parse] gives back from that text. *)
Inductive file : Type :=
| JsonRows (rows : list object)
| JsonIndexes (ix : obj (obj (list nat)))
| JsonSchema (s : object).

(** The data directory of one database: file name to contents. *)
Definition Files : Type := obj file.

Section WithRuntime.
Context {rt : Runtime}.

(** [JSON.parse(JSON.stringify(v))]: a date becomes its ISO string, NaN
    and the infinities become [null], an [undefined] property is
    dropped and an [undefined] array element becomes [null].  At the
    top level [undefined] stands for "nothing is written". *)
Fixpoint reparse (v : value) : value :=
  match v with
  | VUndefined => VUndefined
  | VNull => VNull
  | VBool b => VBool b
  | VNum (Dec m k) => VNum (Dec m k)
  | VNum _ => VNull
  | VStr s => VStr s
  | VDate t => if isNaN t then VNull else VStr (Date_toISOString t)
  | VArr items =>
      VArr (List.map (fun x => match reparse x with
                               | VUndefined => VNull
                               | y => y
                               end) items)
  | VObj fields =>
      VObj ((fix props (l : list (string * value)) : list (string * value) :=
               match l with
               | nil => nil
               | (k, x) :: r =>
                   match reparse x with
                   | VUndefined => props r
                   | y => (k, y) :: props r
                   end
               end) fields)
  end.

Definition reparseObject (o : object) : object :=
  match reparse (VObj o) with VObj f => f | _ => nil end.

End WithRuntime.

End Storage.

(* ================================================================== *)
(** * Table.js *)
(* ================================================================== *)

Module Column.
Import JS.

(** A normalized column definition.  The flags are only ever tested for
    truthiness, so they are kept as booleans. *)
Record t : Type := {
  type : value;
  required : bool;
  primaryKey : bool;
  unique : bool;
  autoIncrement : bool;
  defaultValue : value;
  foreignKey : value
}.

End Column.

Module Table.
Import JS Storage.

Record t : Type := {
  name : string;
  schema : obj Column.t;
  filePath : string;
  indexPath : string;
  data : list object;
  indexes : obj (obj (list nat));
  primaryKey : option string
}.

Definition withData (tb : t) (d : list object) : t :=
  {| name := name tb; schema := schema tb; filePath := filePath tb;
     indexPath := indexPath tb; data := d; indexes := indexes tb;
     primaryKey := primaryKey tb |}.

Definition withIndexes (tb : t) (ix : obj (obj (list nat))) : t :=
  {| name := name tb; schema := schema tb; filePath := filePath tb;
     indexPath := indexPath tb; data := data tb; indexes := ix;
     primaryKey := primaryKey tb |}.

(** [x || y] *)
Definition orElse (x y : value) : value := if ToBoolean x then x else y.

Definition normalizeSchema (schema : object) : obj Column.t :=
  fold_left
    (fun normalized column =>
       let d := prop schema column in
       let pk := ToBoolean (orElse (field d "primaryKey") (VBool false)) in
       set normalized column
         {| Column.type := orElse (field d "type") (VStr "string");
            Column.required :=
              if pk then true
              else ToBoolean (orElse (field d "required") (VBool false));
            Column.primaryKey := pk;
            Column.unique :=
              if pk then true
              else ToBoolean (orElse (field d "unique") (VBool false));
            Column.autoIncrement :=
              ToBoolean (orElse (field d "autoIncrement") (VBool false));
            Column.defaultValue := field d "defaultValue";
            Column.foreignKey := orElse (field d "foreignKey") VNull |})
    (keys schema) nil.

Definition findPrimaryKey (schema : obj Column.t) : option string :=
  match List.filter (fun c => Column.primaryKey (snd c)) schema with
  | (column, _) :: _ => Some column
  | nil => None
  end.

(** [this.primaryKey] read as a condition: [null] and the empty name are
    falsy. *)
Definition hasPrimaryKey (tb : t) : bool :=
  match primaryKey tb with
  | Some c => negb (String.eqb c "")
  | None => false
  end.

(** [this.primaryKey] used as a property key: [null] is the key "null". *)
Definition primaryKeyName (tb : t) : string :=
  match primaryKey tb with Some c => c | None => "null" end.

(** The [case] label a type selects in the two [switch] statements. *)
Definition isType (type : value) (label : string) : bool :=
  strictEq type (VStr label).

Section WithRuntime.
Context {rt : Runtime}.

Definition validateType (value type : JS.value) : bool :=
  match value with
  | VNull | VUndefined => true
  | _ =>
      if isType type "string" then String.eqb (typeof value) "string"
      else if isType type "number" then
        String.eqb (typeof value) "number" && negb (isNaN (ToNumber value))
      else if isType type "boolean" then String.eqb (typeof value) "boolean"
      else if isType type "date" then negb (isNaN (Date_parse (ToString value)))
      else if isType type "object" then
        String.eqb (typeof value) "object" && negb (isArray value)
      else if isType type "array" then isArray value
      else true
  end.

(** [TimeClip]: an integral number of milliseconds in the range of
    dates, else NaN. *)
Definition TimeClip (n : number) : number :=
  match n with
  | Dec m k =>
      if Z.abs m <=? 8640000000000000 * pow10 k
      then Int (Z.quot m (pow10 k)) else NaN
  | _ => NaN
  end.

(** [new Date(v)] *)
Definition newDate (v : value) : value :=
  match v with
  | VDate t => VDate t
  | _ => match ToPrimitive v with
         | VStr s => VDate (Date_parse s)
         | p => VDate (TimeClip (ToNumber p))
         end
  end.

Definition coerceValue (value type : JS.value) : JS.value :=
  match value with
  | VNull | VUndefined => value
  | _ =>
      if isType type "string" then VStr (ToString value)
      else if isType type "number" then
        let num := ToNumber value in
        if isNaN num then VNull else VNum num
      else if isType type "boolean" then VBool (ToBoolean value)
      else if isType type "date" then newDate value
      else value
  end.

(** [compare]: [LIKE] calls [compareTo.replace], which only a string
    has, and builds a regular expression from the result.  The messages of
    the errors are the engine's; of the SyntaxError only the beginning is
    kept. *)
Definition compare (value : JS.value) (operator : string) (compareTo : JS.value)
  : completion bool :=
  if String.eqb operator "=" then Return (looseEq value compareTo)
  else if String.eqb operator "!=" then Return (negb (looseEq value compareTo))
  else if String.eqb operator ">" then Return (jsGt value compareTo)
  else if String.eqb operator "<" then Return (jsLt value compareTo)
  else if String.eqb operator ">=" then Return (jsGe value compareTo)
  else if String.eqb operator "<=" then Return (jsLe value compareTo)
  else if String.eqb operator "LIKE" then
    match compareTo with
    | VStr c =>
        let pattern :=
          Str.replaceAll "_" "." (Str.replaceAll "%" ".*" c) in
        match RegExp_test ("^" ++ pattern ++ "$") (ToString value) with
        | Some b => Return b
        | None => Throw ("Invalid regular expression: /^" ++ pattern ++ "$/")
        end
    | VNull => Throw "Cannot read properties of null (reading 'replace')"
    | VUndefined =>
        Throw "Cannot read properties of undefined (reading 'replace')"
    | _ => Throw "compareTo.replace is not a function"
    end
  else Return false.

(** The properties [for (op in condition)] visits. *)
Definition enumerable (v : value) : list (string * value) :=
  match v with
  | VObj f => f
  | VArr items =>
      List.combine
        (List.map (fun i => Str.ofZ (Z.of_nat i)) (List.seq 0 (List.length items)))
        items
  | _ => nil
  end.

Fixpoint checkOperators (v : value) (ops : list (string * value))
  : completion bool :=
  match ops with
  | nil => Return true
  | (op, val) :: r =>
      match compare v op val with
      | Return true => checkOperators v r
      | other => other
      end
  end.

(** The callback of the full scan of [find]. *)
Fixpoint matchesFrom (conditions record : object) (ks : list string)
  : completion bool :=
  match ks with
  | nil => Return true
  | key :: r =>
      let condition := prop conditions key in
      if String.eqb (typeof condition) "object" then
        match checkOperators (prop record key) (enumerable condition) with
        | Return true => matchesFrom conditions record r
        | other => other
        end
      else if negb (strictEq (prop record key) condition) then Return false
      else matchesFrom conditions record r
  end.

Definition matches (conditions record : object) : completion bool :=
  matchesFrom conditions record (keys conditions).

Fixpoint filterRows (p : object -> completion bool) (rows : list object)
  : completion (list object) :=
  match rows with
  | nil => Return nil
  | r :: rest =>
      match p r with
      | Return b =>
          match filterRows p rest with
          | Return l => Return (if b then r :: l else l)
          | other => other
          end
      | Throw m => Throw m
      | Diverge => Diverge
      end
  end.

(** [{ ...r }] of a row, [{ ...undefined }] when there is none. *)
Definition copyRow (r : option object) : object :=
  match r with Some o => o | None => nil end.

Definition find (tb : t) (conditions : object) : completion (list object) :=
  match keys conditions with
  | nil => Return (List.map (fun r => copyRow (Some r)) (data tb))
  | ks =>
      let scan :=
        match filterRows (matches conditions) (data tb) with
        | Return l => Return (List.map (fun r => copyRow (Some r)) l)
        | other => other
        end in
      match ks with
      | [col] =>
          match get (indexes tb) col with
          | Some ix =>
              let value := prop conditions col in
              match get ix (ToString value) with
              | Some indices =>
                  Return (List.map (fun i => copyRow (nth_error (data tb) i))
                                   indices)
              | None => Return nil
              end
          | None => scan
          end
      | _ => scan
      end
  end.

Definition findOne (tb : t) (conditions : object) : completion (option object) :=
  match find tb conditions with
  | Return (r :: _) => Return (Some r)
  | Return nil => Return None
  | Throw m => Throw m
  | Diverge => Diverge
  end.

Definition findAll (tb : t) : list object :=
  List.map (fun r => copyRow (Some r)) (data tb).

(** ** Validation *)

(** One turn of the loop of [validateRecord] over the schema. *)
Definition validateColumn (tb : t) (record : object)
           (acc : list string * object) (column : string) (def : Column.t)
  : completion (list string * object) :=
  let (errors, result) := acc in
  let value := prop record column in
  let hasValue := has record column in
  if Column.autoIncrement def && negb hasValue then Return acc
  else if Column.required def && negb hasValue
          && isUndefined (Column.defaultValue def) then
    Return (push errors ("Required column '" ++ column ++ "' is missing"),
            result)
  else if negb hasValue && negb (isUndefined (Column.defaultValue def)) then
    Return (errors,
            set result column
                (coerceValue (Column.defaultValue def) (Column.type def)))
  else if negb hasValue then Return acc
  else if negb (validateType value (Column.type def)) then
    Return (push errors ("Invalid type for '" ++ column ++ "': expected "
                           ++ ToString (Column.type def)),
            result)
  else
    let result := set result column (coerceValue value (Column.type def)) in
    if Column.unique def && has (indexes tb) column then
      match findOne tb [(column, prop result column)] with
      | Return (Some existing) =>
          if negb (strictEq (prop existing (primaryKeyName tb))
                            (prop record (primaryKeyName tb)))
          then Return (push errors ("Duplicate value for unique column '"
                                      ++ column ++ "'"), result)
          else Return (errors, result)
      | Return None => Return (errors, result)
      | Throw m => Throw m
      | Diverge => Diverge
      end
    else Return (errors, result).

Fixpoint validateColumns (tb : t) (record : object)
         (acc : list string * object) (columns : obj Column.t)
  : completion (list string * object) :=
  match columns with
  | nil => Return acc
  | (column, def) :: rest =>
      match validateColumn tb record acc column def with
      | Return acc' => validateColumns tb record acc' rest
      | other => other
      end
  end.

Definition validateRecord (tb : t) (record : object) : completion object :=
  match validateColumns tb record (nil, nil) (schema tb) with
  | Return (errors, result) =>
      match errors with
      | nil => Return result
      | _ => Throw (String.concat ", " errors)
      end
  | Throw m => Throw m
  | Diverge => Diverge
  end.

(** ** Indexes *)

(** [if (value !== undefined) { if (!ix[value]) ix[value] = [];
    ix[value].push(i) }] *)
Definition indexAdd (ix : obj (list nat)) (v : value) (i : nat)
  : obj (list nat) :=
  if isUndefined v then ix
  else
    let bucket := match get ix (ToString v) with Some b => b | None => nil end in
    set ix (ToString v) (push bucket i).

(** [if (value !== undefined && ix[value])
      ix[value] = ix[value].filter(j => j !== i)] *)
Definition indexRemove (ix : obj (list nat)) (v : value) (i : nat)
  : obj (list nat) :=
  if isUndefined v then ix
  else match get ix (ToString v) with
       | Some b => set ix (ToString v) (List.filter (fun j => negb (Nat.eqb j i)) b)
       | None => ix
       end.

(** The body of [rebuildIndex], from an empty index. *)
Definition buildIndex (rows : list object) (column : string) : obj (list nat) :=
  fold_left (fun ix ir => indexAdd ix (prop (snd ir) column) (fst ir))
            (List.combine (List.seq 0 (List.length rows)) rows) nil.

Definition rebuildIndex (tb : t) (column : string) : t :=
  withIndexes tb (set (indexes tb) column (buildIndex (data tb) column)).

(** ** Persistence.  A failing write is caught and logged by the
    source; the embedding has no failing writes. *)

Definition save (tb : t) (fs : Files) : Files :=
  set fs (filePath tb) (JsonRows (List.map reparseObject (data tb))).

Definition saveIndexes (tb : t) (fs : Files) : Files :=
  set fs (indexPath tb) (JsonIndexes (indexes tb)).

(** [Array.isArray(parsed) ? parsed : []] *)
Definition load (tb : t) (fs : Files) : t :=
  match get fs (filePath tb) with
  | Some (JsonRows rows) => withData tb rows
  | Some _ => withData tb nil
  | None => tb
  end.

(** A file that holds something else than an index map (it can only
    be the data file of a table named [<name>_index]) is read as no
    index at all. *)
Definition loadIndexes (tb : t) (fs : Files) : t :=
  match get fs (indexPath tb) with
  | Some (JsonIndexes ix) => withIndexes tb ix
  | Some _ => withIndexes tb nil
  | None => tb
  end.

Definition createIndex (tb : t) (fs : Files) (column : string)
  : completion bool * t * Files :=
  if negb (has (schema tb) column) then
    (Throw ("Column '" ++ column ++ "' does not exist"), tb, fs)
  else
    let tb' := rebuildIndex (withIndexes tb (set (indexes tb) column nil)) column in
    (Return true, tb', saveIndexes tb' fs).

(** The constructor. *)
Definition new (name : string) (schema : object) (fs : Files) : t * Files :=
  let sch := normalizeSchema schema in
  let tb := {| name := name; schema := sch;
               filePath := name ++ ".json";
               indexPath := name ++ "_index.json";
               data := nil; indexes := nil;
               primaryKey := findPrimaryKey sch |} in
  let tb := loadIndexes (load tb fs) fs in
  if hasPrimaryKey tb && negb (has (indexes tb) (primaryKeyName tb)) then
    let '(_, tb', fs') := createIndex tb fs (primaryKeyName tb) in (tb', fs')
  else (tb, fs).

(** ** insert *)

(** [this.data.reduce((max, row) => Math.max(max, row[column] || 0), 0)] *)
Definition maxOf (rows : list object) (column : string) : number :=
  fold_left
    (fun max row => numMax max (ToNumber (orElse (prop row column) (VNum (Int 0)))))
    rows (Int 0).

(** One turn of the auto-increment loop of [insert]. *)
Definition assignNext (tb : t) (validated : object) (c : string * Column.t)
  : object :=
  if Column.autoIncrement (snd c) && negb (has validated (fst c))
  then set validated (fst c) (VNum (numAdd (maxOf (data tb) (fst c)) (Int 1)))
  else validated.

(** The auto-increment loop of [insert]. *)
Definition autoIncrement (tb : t) (validated : object) : object :=
  fold_left (assignNext tb) (schema tb) validated.

Definition insert (tb : t) (fs : Files) (record : object)
  : completion object * t * Files :=
  match validateRecord tb record with
  | Return validated =>
      let validated := autoIncrement tb validated in
      let index := List.length (data tb) in
      let tb1 := withData tb (push (data tb) validated) in
      (* for (const col in this.indexes) *)
      let tb2 :=
        withIndexes tb1
          (List.map
             (fun ci => (fst ci, indexAdd (snd ci) (prop validated (fst ci)) index))
             (indexes tb1)) in
      (Return validated, tb2, saveIndexes tb2 (save tb2 fs))
  | Throw m => (Throw m, tb, fs)
  | Diverge => (Diverge, tb, fs)
  end.

(** ** update and delete *)

Fixpoint findIndex (p : object -> bool) (rows : list object) (i : nat)
  : option nat :=
  match rows with
  | nil => None
  | r :: rest => if p r then Some i else findIndex p rest (S i)
  end.

(** The position of the row a copy [record] was made from.  Without a
    primary key the test is [r === record], and no stored row is ever
    identical to a copy. *)
Definition positionOf (tb : t) (record : object) : option nat :=
  findIndex
    (fun r =>
       if hasPrimaryKey tb
       then strictEq (prop r (primaryKeyName tb)) (prop record (primaryKeyName tb))
       else false)
    (data tb) 0%nat.

Definition positionsOf (tb : t) (records : list object) : list nat :=
  List.flat_map
    (fun record => match positionOf tb record with
                   | Some idx => [idx]
                   | None => nil
                   end)
    records.

(** [this.data[idx]] for a position that [findIndex] returned. *)
Definition rowAt (tb : t) (idx : nat) : object := nth idx (data tb) nil.

(** [this.data[idx] = row] *)
Fixpoint assign (rows : list object) (idx : nat) (row : object) : list object :=
  match rows, idx with
  | nil, _ => nil
  | _ :: rest, O => row :: rest
  | r :: rest, S n => r :: assign rest n row
  end.

Definition removeOldEntries (tb : t) (indices : list nat) : t :=
  withIndexes tb
    (List.map
       (fun ci =>
          (fst ci,
           fold_left (fun ix idx => indexRemove ix (prop (rowAt tb idx) (fst ci)) idx)
                     indices (snd ci)))
       (indexes tb)).

Definition addNewEntries (tb : t) (indices : list nat) : t :=
  withIndexes tb
    (List.map
       (fun ci =>
          (fst ci,
           fold_left (fun ix idx => indexAdd ix (prop (rowAt tb idx) (fst ci)) idx)
                     indices (snd ci)))
       (indexes tb)).

(** The "Update records" loop.  In the primary-key check the row found
    is a copy made by [find], so [existing !== this.data[idx]] holds as
    soon as a row is found. *)
Fixpoint updateRows (tb : t) (updates : object) (indices : list nat)
         (updated : nat) : completion nat * t :=
  match indices with
  | nil => (Return updated, tb)
  | idx :: rest =>
      let newRecord := spread (rowAt tb idx) updates in
      match validateRecord tb newRecord with
      | Return validated =>
          let check : completion unit :=
            if hasPrimaryKey tb && has updates (primaryKeyName tb) then
              match findOne tb [(primaryKeyName tb,
                                 prop validated (primaryKeyName tb))] with
              | Return (Some _) => Throw "Duplicate primary key value"
              | Return None => Return tt
              | Throw m => Throw m
              | Diverge => Diverge
              end
            else Return tt in
          match check with
          | Return _ =>
              updateRows (withData tb (assign (data tb) idx validated))
                         updates rest (S updated)
          | Throw m => (Throw m, tb)
          | Diverge => (Diverge, tb)
          end
      | Throw m => (Throw m, tb)
      | Diverge => (Diverge, tb)
      end
  end.

Definition update (tb : t) (fs : Files) (conditions updates : object)
  : completion nat * t * Files :=
  match find tb conditions with
  | Return toUpdate =>
      let indices := positionsOf tb toUpdate in
      let tb1 := removeOldEntries tb indices in
      match updateRows tb1 updates indices 0%nat with
      | (Return updated, tb2) =>
          let tb3 := addNewEntries tb2 indices in
          (Return updated, tb3,
           if (0 <? updated)%nat then saveIndexes tb3 (save tb3 fs) else fs)
      | (Throw m, tb2) => (Throw m, tb2, fs)
      | (Diverge, tb2) => (Diverge, tb2, fs)
      end
  | Throw m => (Throw m, tb, fs)
  | Diverge => (Diverge, tb, fs)
  end.

(** [indices.sort((a, b) => b - a)] *)
Fixpoint insertDescending (i : nat) (sorted : list nat) : list nat :=
  match sorted with
  | nil => [i]
  | j :: rest => if (j <? i)%nat then i :: sorted
                 else j :: insertDescending i rest
  end.

Definition sortDescending (l : list nat) : list nat :=
  fold_left (fun sorted i => insertDescending i sorted) l nil.

(** [rows.splice(idx, 1)] *)
Definition splice1 (rows : list object) (idx : nat) : list object :=
  (firstn idx rows ++ skipn (S idx) rows)%list.

Definition delete (tb : t) (fs : Files) (conditions : object)
  : completion nat * t * Files :=
  match find tb conditions with
  | Return toDelete =>
      let indices := sortDescending (positionsOf tb toDelete) in
      (* Remove from indexes, then "Rebuild index to fix indices" *)
      let tb1 :=
        fold_left
          (fun tb' col =>
             let ix := match get (indexes tb') col with
                       | Some ix => ix
                       | None => nil
                       end in
             let stripped :=
               fold_left
                 (fun ix idx => indexRemove ix (prop (rowAt tb' idx) col) idx)
                 indices ix in
             rebuildIndex (withIndexes tb' (set (indexes tb') col stripped)) col)
          (keys (indexes tb)) tb in
      (* Delete records *)
      let tb2 := withData tb1 (fold_left splice1 indices (data tb1)) in
      (Return (List.length indices), tb2,
       if (0 <? List.length indices)%nat then saveIndexes tb2 (save tb2 fs)
       else fs)
  | Throw m => (Throw m, tb, fs)
  | Diverge => (Diverge, tb, fs)
  end.

End WithRuntime.

End Table.

(* ================================================================== *)
(** * Database.js *)
(* ================================================================== *)

Module Database.
Import JS Storage.

(** A database and the contents of its data directory. *)
Record t : Type := {
  name : string;
  tables : obj Table.t;
  files : Files
}.

(** The value [JSON.parse] returns for a file. *)
Definition parsed (f : file) : value :=
  match f with
  | JsonRows rows => VArr (List.map VObj rows)
  | JsonSchema s => VObj s
  | JsonIndexes ix =>
      VObj (List.map
              (fun ci =>
                 (fst ci,
                  VObj (List.map
                          (fun kb =>
                             (fst kb,
                              VArr (List.map (fun i => VNum (Int (Z.of_nat i)))
                                             (snd kb))))
                          (snd ci))))
              ix)
  end.

Section WithRuntime.
Context {rt : Runtime}.

(** The callback of [files.forEach] in [loadTables]. *)
Definition loadTable (db : t) (file : string) : t :=
  if Str.endsWith file ".json" then
    let tableName := Str.replaceFirst ".json" "" file in
    match get (files db) (tableName ++ "_schema.json") with
    | Some f =>
        let (tb, fs) := Table.new tableName (Table.enumerable (parsed f))
                                  (files db) in
        {| name := name db; tables := set (tables db) tableName tb; files := fs |}
    | None => db
    end
  else db.

(** [files] is read once, before the first table is constructed. *)
Definition loadTables (db : t) : t :=
  fold_left loadTable (keys (files db)) db.

(** The constructor: the directory is listed and every table that has
    a schema file is loaded. *)
Definition new (name : string) (fs : Files) : t :=
  loadTables {| name := name; tables := nil; files := fs |}.

Definition createTable (db : t) (tableName : string) (schema : object)
  : completion Table.t * t :=
  if has (tables db) tableName then
    (Throw ("Table '" ++ tableName ++ "' already exists"), db)
  else
    let fs := set (files db) (tableName ++ "_schema.json")
                  (JsonSchema (reparseObject schema)) in
    let (tb, fs') := Table.new tableName schema fs in
    (Return tb,
     {| name := name db; tables := set (tables db) tableName tb; files := fs' |}).

Definition getTable (db : t) (tableName : string) : completion Table.t :=
  match get (tables db) tableName with
  | Some tb => Return tb
  | None => Throw ("Table '" ++ tableName ++ "' does not exist")
  end.

(** [delete o[k]] and [fs.unlinkSync] *)
Definition remove (A : Type) (o : obj A) (k : string) : obj A :=
  List.filter (fun kv => negb (String.eqb (fst kv) k)) o.

Definition dropTable (db : t) (tableName : string) : completion bool * t :=
  match get (tables db) tableName with
  | None => (Throw ("Table '" ++ tableName ++ "' does not exist"), db)
  | Some tb =>
      let fs := remove (remove (files db) (Table.filePath tb)) (Table.indexPath tb) in
      (Return true,
       {| name := name db;
          tables := remove (tables db) tableName;
          files := remove fs (tableName ++ "_schema.json") |})
  end.

Definition listTables (db : t) : list string := keys (tables db).

(** The table object is shared between the database and its callers:
    a method run on it is seen by the database. *)
Definition store (db : t) (tableName : string) (tb : Table.t) (fs : Files) : t :=
  {| name := name db; tables := set (tables db) tableName tb; files := fs |}.

End WithRuntime.

End Database.

(* ================================================================== *)
(** * SQLParser.js *)
(* ================================================================== *)

Module SQLParser.
Import JS Storage.

(** What a result envelope carries in [data]. *)
Inductive payload : Type :=
| NoData
| Row (r : object)
| Rows (rs : list object).

(** The result envelope; [message] and [error] are absent when [None]. *)
Record envelope : Type := {
  success : bool;
  message : option string;
  data : payload;
  error : option string
}.

Definition ok (msg : string) (d : payload) : envelope :=
  {| success := true; message := Some msg; data := d; error := None |}.

Definition tokenize (sql : string) : list string :=
  Str.splitSpaces nil
    (Str.replaceAll ";" ""
       (Str.replaceAll "," " , "
          (Str.replaceAll ")" " ) " (Str.replaceAll "(" " ( " sql)))).

(** [tokens[i]?.toUpperCase() === kw] *)
Definition isKeyword (tok : option string) (kw : string) : bool :=
  match tok with
  | Some s => String.eqb (Str.toUpperCase s) kw
  | None => false
  end.

(** [tokens[i] === s] *)
Definition isToken (tok : option string) (s : string) : bool :=
  match tok with
  | Some x => String.eqb x s
  | None => false
  end.

(** A token used as a property key or inside a message: a missing token
    is [undefined]. *)
Definition text (tok : option string) : string :=
  match tok with Some s => s | None => "undefined" end.

(** [!isNaN(value)] for a string [value]. *)
Definition numeric (value : string) : bool := negb (isNaN (StringToNumber value)).

(** The literal of a value in [parseInsert]. *)
Definition parseInsert_value (value : string) : JS.value :=
  if Str.startsWith value "'" && Str.endsWith value "'" then
    VStr (Str.slice_1_m1 value)
  else if numeric value then VNum (StringToNumber value)
  else if String.eqb value "TRUE" || String.eqb value "true" then VBool true
  else if String.eqb value "FALSE" || String.eqb value "false" then VBool false
  else if String.eqb value "NULL" then VNull
  else VStr value.

(** The literal of the comparand in [parseCondition]. *)
Definition parseCondition_value (value : string) : JS.value :=
  let parsedValue := VStr value in
  if Str.startsWith value "'" && Str.endsWith value "'" then
    VStr (Str.slice_1_m1 value)
  else if numeric value then VNum (StringToNumber value)
  else if String.eqb value "TRUE" || String.eqb value "true" then VBool true
  else if String.eqb value "FALSE" || String.eqb value "false" then VBool false
  else if String.eqb value "NULL" then VNull
  else parsedValue.

(** The literal of a [SET] value in [parseUpdate]. *)
Definition parseUpdate_value (value : string) : JS.value :=
  if Str.startsWith value "'" && Str.endsWith value "'" then
    VStr (Str.slice_1_m1 value)
  else if numeric value then VNum (StringToNumber value)
  else if String.eqb value "TRUE" || String.eqb value "true" then VBool true
  else if String.eqb value "FALSE" || String.eqb value "false" then VBool false
  else if String.eqb value "NULL" then VNull
  else VStr value.

Definition noStartsWith : string :=
  "Cannot read properties of undefined (reading 'startsWith')".

(** [parseCondition(tokens, start)], on the tokens from [start] on. *)
Definition parseCondition (rest : list string) : completion object :=
  let column := nth_error rest 0 in
  let operator := nth_error rest 1 in
  match nth_error rest 2 with
  | Some value =>
      Return [(text column, VObj [(text operator, parseCondition_value value)])]
  | None => Throw noStartsWith
  end.

(** [ToIntegerOrInfinity] followed by the clamping of [slice]'s [end]. *)
Definition sliceEnd (len : nat) (limit : number) : nat :=
  match limit with
  | NaN => 0%nat
  | Inf true => 0%nat
  | Inf false => len
  | Dec m k =>
      let e := Z.quot m (pow10 k) in
      if e <? 0 then Z.to_nat (Z.max (Z.of_nat len + e) 0)
      else Nat.min (Z.to_nat e) len
  end.

(** [results.slice(0, limit)] *)
Definition slice0 (results : list object) (limit : number) : list object :=
  firstn (sliceEnd (List.length results) limit) results.

(** [if (limit) results = results.slice(0, limit)]; [None] is the
    [null] of a query without a LIMIT clause. *)
Definition applyLimit (limit : option number) (results : list object)
  : list object :=
  match limit with
  | Some n => if ToBoolean (VNum n) then slice0 results n else results
  | None => results
  end.

(** The projection of [parseSelect]. *)
Definition project (columns : list string) (results : list object)
  : list object :=
  if negb (existsb (String.eqb "*") columns) && (0 <? List.length columns)%nat
  then
    List.map
      (fun row =>
         fold_left
           (fun selected col =>
              if has row col then set selected col (prop row col) else selected)
           columns nil)
      results
  else results.

Section WithRuntime.
Context {rt : Runtime}.

(** The comparison function given to [sort]. *)
Definition order (orderBy orderDir : string) (a b : object) : Z :=
  let aVal := prop a orderBy in
  let bVal := prop b orderBy in
  if String.eqb orderDir "ASC" then
    if jsGt aVal bVal then 1 else if jsLt aVal bVal then -1 else 0
  else
    if jsLt aVal bVal then 1 else if jsGt aVal bVal then -1 else 0.

(** [Array.prototype.sort] is stable; it is modelled by the stable
    insertion sort, which is what every conforming engine computes when
    the comparison function is a consistent ordering. *)
Fixpoint insertSorted (cmp : object -> object -> Z) (x : object)
         (sorted : list object) : list object :=
  match sorted with
  | nil => [x]
  | y :: rest => if 0 <? cmp y x then x :: sorted
                 else y :: insertSorted cmp x rest
  end.

Definition sort (cmp : object -> object -> Z) (l : list object) : list object :=
  fold_left (fun sorted x => insertSorted cmp x sorted) l nil.

(** [if (orderBy) results.sort(...)] *)
Definition applyOrder (orderBy : option string) (orderDir : string)
           (results : list object) : list object :=
  match orderBy with
  | Some c => if String.eqb c "" then results else sort (order c orderDir) results
  | None => results
  end.

(** The column list of SELECT: [(columns, tokens from FROM on)]. *)
Fixpoint selectColumns (rest : list string) : list string * list string :=
  match rest with
  | nil => (nil, nil)
  | tok :: r =>
      if String.eqb (Str.toUpperCase tok) "FROM" then (nil, rest)
      else
        let (cols, after) := selectColumns r in
        (if String.eqb tok "," then cols else tok :: cols, after)
  end.

(** The WHERE clause of SELECT: conditions and the tokens after it. *)
Definition selectWhere (rest : list string) : completion object * list string :=
  if isKeyword (nth_error rest 0) "WHERE" then
    (parseCondition (skipn 1 rest), skipn 4 rest)
  else (Return nil, rest).

(** The ORDER BY clause: [(orderBy, orderDir)] and the tokens after it. *)
Definition selectOrder (rest : list string)
  : option string * string * list string :=
  if isKeyword (nth_error rest 0) "ORDER" && isKeyword (nth_error rest 1) "BY"
  then
    let orderBy := nth_error rest 2 in
    let after := skipn 3 rest in
    if isKeyword (nth_error after 0) "ASC" || isKeyword (nth_error after 0) "DESC"
    then (orderBy, Str.toUpperCase (text (nth_error after 0)), skipn 1 after)
    else (orderBy, "ASC", after)
  else (None, "ASC", rest).

(** The LIMIT clause. *)
Definition selectLimit (rest : list string) : option number :=
  if isKeyword (nth_error rest 0) "LIMIT"
  then Some (parseInt (text (nth_error rest 1)))
  else None.

Definition parseSelect (tokens : list string) (db : Database.t)
  : completion envelope :=
  let (columns, rest) := selectColumns (skipn 1 tokens) in
  if negb (isKeyword (nth_error rest 0) "FROM") then
    Throw "Expected FROM in SELECT"
  else
    let tableName := text (nth_error rest 1) in
    match Database.getTable db tableName with
    | Return table =>
        match selectWhere (skipn 2 rest) with
        | (Return conditions, rest) =>
            let '(orderBy, orderDir, rest) := selectOrder rest in
            let limit := selectLimit rest in
            match Table.find table conditions with
            | Return results =>
                let results := project columns results in
                let results := applyOrder orderBy orderDir results in
                let results := applyLimit limit results in
                Return (ok ("Found " ++ Str.ofZ (Z.of_nat (List.length results))
                                     ++ " record(s)")
                           (Rows results))
            | Throw m => Throw m
            | Diverge => Diverge
            end
        | (Throw m, _) => Throw m
        | (Diverge, _) => Diverge
        end
    | Throw m => Throw m
    | Diverge => Diverge
    end.

(** ** INSERT *)

(** The column list of INSERT, after its opening parenthesis.  When the
    closing parenthesis is missing, the loop pushes [undefined] for
    ever. *)
Fixpoint insertColumns (rest : list string)
  : completion (list string * list string) :=
  match rest with
  | nil => Diverge
  | tok :: r =>
      if String.eqb tok ")" then Return (nil, r)
      else
        match insertColumns (match r with
                             | c :: r' => if String.eqb c "," then r' else r
                             | nil => r
                             end) with
        | Return (cols, after) => Return (tok :: cols, after)
        | other => other
        end
  end.

(** The value list of INSERT, after its opening parenthesis. *)
Fixpoint insertValues (rest : list string) : completion (list value) :=
  match rest with
  | nil => Throw noStartsWith
  | tok :: r =>
      if String.eqb tok ")" then Return nil
      else
        match insertValues (match r with
                            | c :: r' => if String.eqb c "," then r' else r
                            | nil => r
                            end) with
        | Return vals => Return (parseInsert_value tok :: vals)
        | other => other
        end
  end.

(** [for (j ...) record[columns[j]] = values[j]] *)
Fixpoint pairUp (record : object) (columns : list string) (values : list value)
  : object :=
  match columns with
  | nil => record
  | c :: cs =>
      pairUp (set record c (match values with v :: _ => v | nil => VUndefined end))
             cs (List.tl values)
  end.

Definition parseInsert (tokens : list string) (db : Database.t)
  : completion envelope * Database.t :=
  if negb (isKeyword (nth_error tokens 1) "INTO") then
    (Throw "Expected INTO after INSERT", db)
  else
    let tableName := text (nth_error tokens 2) in
    match Database.getTable db tableName with
    | Return table =>
        let parsedColumns :=
          if isToken (nth_error tokens 3) "(" then insertColumns (skipn 4 tokens)
          else Return (nil, skipn 3 tokens) in
        match parsedColumns with
        | Return (columns, rest) =>
            if negb (isKeyword (nth_error rest 0) "VALUES") then
              (Throw "Expected VALUES", db)
            else if negb (isToken (nth_error rest 1) "(") then
              (Throw "Expected ( after VALUES", db)
            else
              match insertValues (skipn 2 rest) with
              | Return values =>
                  let record := pairUp nil columns values in
                  match Table.insert table (Database.files db) record with
                  | (Return result, table', fs) =>
                      (Return
                         (ok ("Record inserted with ID: "
                                ++ ToString
                                     (Table.orElse
                                        (prop result "id")
                                        (prop result (Table.primaryKeyName table'))))
                             (Row result)),
                       Database.store db tableName table' fs)
                  | (Throw m, table', fs) =>
                      (Throw m, Database.store db tableName table' fs)
                  | (Diverge, table', fs) =>
                      (Diverge, Database.store db tableName table' fs)
                  end
              | Throw m => (Throw m, db)
              | Diverge => (Diverge, db)
              end
        | Throw m => (Throw m, db)
        | Diverge => (Diverge, db)
        end
    | Throw m => (Throw m, db)
    | Diverge => (Diverge, db)
    end.

(** ** UPDATE and DELETE *)

(** The SET clause of UPDATE: the patch and the tokens after it.  Each
    turn of the loop consumes at least three tokens. *)
Fixpoint updateSet (updates : object) (rest : list string)
  : completion (object * list string) :=
  match rest with
  | nil => Return (updates, nil)
  | column :: r =>
      if String.eqb (Str.toUpperCase column) "WHERE" then Return (updates, rest)
      else
        match r with
        | eq :: r1 =>
            if negb (String.eqb eq "=") then Throw "Expected = after column name"
            else
              match r1 with
              | value :: r2 =>
                  updateSet (set updates column (parseUpdate_value value))
                            (match r2 with
                             | c :: r3 => if String.eqb c "," then r3 else r2
                             | nil => r2
                             end)
              | nil => Throw noStartsWith
              end
        | nil => Throw "Expected = after column name"
        end
  end.

Definition parseUpdate (tokens : list string) (db : Database.t)
  : completion envelope * Database.t :=
  let tableName := text (nth_error tokens 1) in
  match Database.getTable db tableName with
  | Return table =>
      if negb (isKeyword (nth_error tokens 2) "SET") then
        (Throw "Expected SET after table name", db)
      else
        match updateSet nil (skipn 3 tokens) with
        | Return (updates, rest) =>
            let parsedWhere :=
              if isKeyword (nth_error rest 0) "WHERE"
              then parseCondition (skipn 1 rest)
              else Return nil in
            match parsedWhere with
            | Return conditions =>
                match Table.update table (Database.files db) conditions updates with
                | (Return affected, table', fs) =>
                    (Return (ok ("Updated " ++ Str.ofZ (Z.of_nat affected)
                                            ++ " record(s)") NoData),
                     Database.store db tableName table' fs)
                | (Throw m, table', fs) =>
                    (Throw m, Database.store db tableName table' fs)
                | (Diverge, table', fs) =>
                    (Diverge, Database.store db tableName table' fs)
                end
            | Throw m => (Throw m, db)
            | Diverge => (Diverge, db)
            end
        | Throw m => (Throw m, db)
        | Diverge => (Diverge, db)
        end
  | Throw m => (Throw m, db)
  | Diverge => (Diverge, db)
  end.

Definition parseDelete (tokens : list string) (db : Database.t)
  : completion envelope * Database.t :=
  if negb (isKeyword (nth_error tokens 1) "FROM") then
    (Throw "Expected FROM after DELETE", db)
  else
    let tableName := text (nth_error tokens 2) in
    match Database.getTable db tableName with
    | Return table =>
        let parsedWhere :=
          if isKeyword (nth_error tokens 3) "WHERE"
          then parseCondition (skipn 4 tokens)
          else Return nil in
        match parsedWhere with
        | Return conditions =>
            match Table.delete table (Database.files db) conditions with
            | (Return affected, table', fs) =>
                (Return (ok ("Deleted " ++ Str.ofZ (Z.of_nat affected)
                                        ++ " record(s)") NoData),
                 Database.store db tableName table' fs)
            | (Throw m, table', fs) =>
                (Throw m, Database.store db tableName table' fs)
            | (Diverge, table', fs) =>
                (Diverge, Database.store db tableName table' fs)
            end
        | Throw m => (Throw m, db)
        | Diverge => (Diverge, db)
        end
    | Throw m => (Throw m, db)
    | Diverge => (Diverge, db)
    end.

(** ** CREATE and DROP *)

Definition noToLowerCase : string :=
  "Cannot read properties of undefined (reading 'toLowerCase')".

(** The two loops of [parseCreate] over the tokens from position 4 on:
    the outer one reads a column name and its type, the inner one the
    constraints up to the next comma or closing parenthesis. *)
Fixpoint createColumns (schema : object) (rest : list string) {struct rest}
  : completion object :=
  match rest with
  | nil => Return schema
  | columnName :: r =>
      if String.eqb columnName ")" then Return schema
      else
        match r with
        | nil => Throw noToLowerCase
        | dataType :: r1 =>
            (fix constraints (columnDef : object) (l : list string) {struct l}
               : completion object :=
               match l with
               | nil => Return (set schema columnName (VObj columnDef))
               | tok :: l' =>
                   if String.eqb tok "," then
                     createColumns (set schema columnName (VObj columnDef)) l'
                   else if String.eqb tok ")" then
                     Return (set schema columnName (VObj columnDef))
                   else
                     let constraint := Str.toUpperCase tok in
                     if String.eqb constraint "PRIMARY" then
                       constraints (set columnDef "primaryKey" (VBool true))
                                   (match l' with
                                    | k :: l'' => if String.eqb k "KEY" then l'' else l'
                                    | nil => l'
                                    end)
                     else if String.eqb constraint "UNIQUE" then
                       constraints (set columnDef "unique" (VBool true)) l'
                     else if String.eqb constraint "AUTO_INCREMENT" then
                       constraints (set columnDef "autoIncrement" (VBool true)) l'
                     else if String.eqb constraint "NOT" then
                       constraints (set columnDef "required" (VBool true))
                                   (match l' with
                                    | k :: l'' => if String.eqb k "NULL" then l'' else l'
                                    | nil => l'
                                    end)
                     else if String.eqb constraint "DEFAULT" then
                       match l' with
                       | v :: l'' =>
                           constraints (set columnDef "defaultValue" (VStr v)) l''
                       | nil =>
                           Return (set schema columnName
                                       (VObj (set columnDef "defaultValue" VUndefined)))
                       end
                     else constraints columnDef l'
               end)
              [("type", VStr (Str.toLowerCase dataType))] r1
        end
  end.

Definition parseCreate (tokens : list string) (db : Database.t)
  : completion envelope * Database.t :=
  if negb (isKeyword (nth_error tokens 1) "TABLE") then
    (Throw "Expected TABLE after CREATE", db)
  else
    let tableName := text (nth_error tokens 2) in
    match createColumns nil (skipn 4 tokens) with
    | Return schema =>
        match Database.createTable db tableName schema with
        | (Return _, db') =>
            (Return (ok ("Table " ++ tableName ++ " created") NoData), db')
        | (Throw m, db') => (Throw m, db')
        | (Diverge, db') => (Diverge, db')
        end
    | Throw m => (Throw m, db)
    | Diverge => (Diverge, db)
    end.

Definition parseDrop (tokens : list string) (db : Database.t)
  : completion envelope * Database.t :=
  if negb (isKeyword (nth_error tokens 1) "TABLE") then
    (Throw "Expected TABLE after DROP", db)
  else
    let tableName := text (nth_error tokens 2) in
    match Database.dropTable db tableName with
    | (Return _, db') =>
        (Return (ok ("Table " ++ tableName ++ " dropped") NoData), db')
    | (Throw m, db') => (Throw m, db')
    | (Diverge, db') => (Diverge, db')
    end.

(** ** The dispatcher *)

(** [{ success: false, error: error.message }] *)
Definition failure (m : string) : envelope :=
  {| success := false; message := None; data := NoData; error := Some m |}.

(** The [catch] of [parseAndExecute]: what the table did before the
    error stays done. *)
Definition caught (r : completion envelope * Database.t)
  : completion envelope * Database.t :=
  match r with
  | (Throw m, db) => (Return (failure m), db)
  | other => other
  end.

Definition parseAndExecute (sql : string) (db : Database.t)
  : completion envelope * Database.t :=
  let tokens := tokenize sql in
  let command := nth_error tokens 0 in
  caught
    (if isKeyword command "CREATE" then parseCreate tokens db
     else if isKeyword command "INSERT" then parseInsert tokens db
     else if isKeyword command "SELECT" then (parseSelect tokens db, db)
     else if isKeyword command "UPDATE" then parseUpdate tokens db
     else if isKeyword command "DELETE" then parseDelete tokens db
     else if isKeyword command "DROP" then parseDrop tokens db
     else if isKeyword command "USE" then
       (Return (ok ("Using database " ++ text (nth_error tokens 1)) NoData), db)
     else
       (Throw ("Unknown command: "
                 ++ match command with
                    | Some c => Str.toUpperCase c
                    | None => "undefined"
                    end), db)).

(** [Database.query]: a new parser run on the database itself. *)
Definition query (db : Database.t) (sql : string)
  : completion envelope * Database.t :=
  parseAndExecute sql db.

End WithRuntime.

End SQLParser.

(* ================================================================== *)
(** * The specification's vocabulary *)
(* ================================================================== *)

Module Spec.
Import JS Storage.

(** A token in single quotes. *)
Definition quoted (tok : string) : bool :=
  Str.startsWith tok "'" && Str.endsWith tok "'".

(** The six type names of the specification's data model. *)
Definition knownTypes : list string :=
  ["string"; "number"; "boolean"; "date"; "object"; "array"].

Definition isKnownType (type : value) : bool :=
  existsb (Table.isType type) knownTypes.

(** The names of the members of [Object.prototype].  The tables, the
    indexes, the buckets of an index and the records are plain objects used
    as maps, and the source reads them without asking whether a key is their
    own: under one of these names it finds the inherited member.  The
    embedding reads own properties only, so it is the source on the names
    outside this list, and the statements that depend on such a read are
    made for these. *)
Definition inheritedNames : list string :=
  ["constructor"; "toString"; "toLocaleString"; "valueOf"; "hasOwnProperty";
   "isPrototypeOf"; "propertyIsEnumerable"; "__proto__";
   "__defineGetter__"; "__defineSetter__"; "__lookupGetter__"; "__lookupSetter__"].

Definition ordinaryName (k : string) : bool :=
  negb (existsb (String.eqb k) inheritedNames).

(** A value that [===] compares by what it holds: not a date, an array
    or an object, which the source compares by identity. *)
Definition primitive (v : value) : bool :=
  match v with
  | VDate _ | VArr _ | VObj _ => false
  | _ => true
  end.

(** No column of the schema is defined as [null] or [undefined].  The
    constructor reads the properties of every column definition, which
    throws a TypeError for these two; [Table.normalizeSchema] is the loop
    for the schemas where it does not. *)
Definition columnsDefined (schema : object) : bool :=
  forallb (fun kv => match snd kv with
                     | VNull | VUndefined => false
                     | _ => true
                     end)
          schema.

(** The tokens of a list of items written with commas between them. *)
Fixpoint commaList (items : list string) : list string :=
  match items with
  | nil => nil
  | [x] => [x]
  | x :: rest => x :: "," :: commaList rest
  end.

(** A token that is neither a comma nor a closing parenthesis. *)
Definition plain (tok : string) : bool :=
  negb (String.eqb tok ",") && negb (String.eqb tok ")").

(** The character [c] occurs in [s] only between two white-space
    characters; [before] tells whether [s] starts the text or follows a
    white-space character. *)
Fixpoint setApart (c : ascii) (before : bool) (s : string) : Prop :=
  match s with
  | EmptyString => True
  | String d r =>
      (d = c ->
       before = true
       /\ exists e r', r = String e r' /\ Str.isSpace e = true)
      /\ setApart c (Str.isSpace d) r
  end.

Section WithRuntime.
Context {rt : Runtime}.

(** Section 4.1, the uniqueness check: the first row the column's index
    lists under the coerced value has another primary-key value than
    the record being validated. *)
Definition duplicate (tb : Table.t) (record : object) (column : string)
           (coerced : value) : bool :=
  match get (Table.indexes tb) column with
  | Some ix =>
      match get ix (ToString coerced) with
      | Some (i :: _) =>
          negb (strictEq
                  (prop (Table.copyRow (nth_error (Table.data tb) i))
                        (Table.primaryKeyName tb))
                  (prop record (Table.primaryKeyName tb)))
      | _ => false
      end
  | None => false
  end.

(** The keys under which validation looks up an index are ordinary
    names: for every unique column that has an index, the value of the
    record, coerced to the type of the column, does not read as the name
    of a member of [Object.prototype]. *)
Definition ordinaryLookups (tb : Table.t) (record : object) : bool :=
  forallb (fun c =>
             negb (Column.unique (snd c) && has (Table.indexes tb) (fst c))
             || ordinaryName
                  (ToString (Table.coerceValue (prop record (fst c))
                                               (Column.type (snd c)))))
          (Table.schema tb).

(** No row holds, for the column, a value that reads as the name of a
    member of [Object.prototype]: the keys [rebuildIndex] files the rows
    under are ordinary names. *)
Definition ordinaryValues (rows : list object) (column : string) : bool :=
  forallb (fun row => ordinaryName (ToString (prop row column))) rows.

(** Section 4.1: the errors one column records, whatever was recorded
    for the columns before it. *)
Definition columnErrors (tb : Table.t) (record : object) (column : string)
           (def : Column.t) : list string :=
  if has record column then
    if Table.validateType (prop record column) (Column.type def) then
      if Column.unique def
         && duplicate tb record column
              (Table.coerceValue (prop record column) (Column.type def))
      then ["Duplicate value for unique column '" ++ column ++ "'"]
      else nil
    else ["Invalid type for '" ++ column ++ "': expected "
            ++ ToString (Column.type def)]
  else if Column.autoIncrement def then nil
  else if Column.required def && isUndefined (Column.defaultValue def)
  then ["Required column '" ++ column ++ "' is missing"]
  else nil.

(** All the errors validation records for a record, in schema order. *)
Definition recordErrors (tb : Table.t) (record : object) : list string :=
  List.flat_map (fun c => columnErrors tb record (fst c) (snd c))
                (Table.schema tb).

(** Section 4.1: what one column adds to the validated mapping. *)
Definition columnResult (record : object) (column : string) (def : Column.t)
           (result : object) : object :=
  if has record column then
    if Table.validateType (prop record column) (Column.type def)
    then set result column
             (Table.coerceValue (prop record column) (Column.type def))
    else result
  else if Column.autoIncrement def then result
  else if isUndefined (Column.defaultValue def) then result
  else set result column
           (Table.coerceValue (Column.defaultValue def) (Column.type def)).

Definition recordResult (tb : Table.t) (record : object) : object :=
  fold_left (fun result c => columnResult record (fst c) (snd c) result)
            (Table.schema tb) nil.

(** Index/data consistency (section 8): every row is listed under its
    value's key at its position, and every listed position holds a row
    with that key.  [consistent] decides it for the concrete tables. *)
Definition listed (ix : obj (list nat)) (column : string) (i : nat)
           (row : object) : bool :=
  isUndefined (prop row column)
  || match get ix (ToString (prop row column)) with
     | Some b => existsb (Nat.eqb i) b
     | None => false
     end.

Definition fresh (rows : list object) (column : string) (key : string)
           (i : nat) : bool :=
  match nth_error rows i with
  | Some row => negb (isUndefined (prop row column))
                && String.eqb (ToString (prop row column)) key
  | None => false
  end.

Definition consistentIndex (rows : list object) (column : string)
           (ix : obj (list nat)) : bool :=
  forallb (fun ir => listed ix column (fst ir) (snd ir))
          (List.combine (List.seq 0 (List.length rows)) rows)
  && forallb (fun kb => forallb (fresh rows column (fst kb)) (snd kb)) ix.

Definition consistent (tb : Table.t) : bool :=
  forallb (fun ci => consistentIndex (Table.data tb) (fst ci) (snd ci))
          (Table.indexes tb).

(** The same property as a proposition, for the general statements:
    [agrees rows column ix] when every row that has a value for the column
    is listed at its position, and every listed position is the one of a
    row with the key it is listed under. *)
Definition agrees (rows : list object) (column : string) (ix : obj (list nat))
  : Prop :=
  (forall i row,
      nth_error rows i = Some row -> isUndefined (prop row column) = false ->
      exists b, get ix (ToString (prop row column)) = Some b /\ In i b)
  /\ (forall key b p,
         get ix key = Some b -> In p b ->
         exists row, nth_error rows p = Some row
                     /\ isUndefined (prop row column) = false
                     /\ ToString (prop row column) = key).

Definition Consistent (tb : Table.t) : Prop :=
  forall column ix,
    get (Table.indexes tb) column = Some ix -> agrees (Table.data tb) column ix.

(** Uniqueness (section 8): no two rows hold the same value for the
    column. *)
Fixpoint distinctValues (vals : list value) : bool :=
  match vals with
  | nil => true
  | v :: r => negb (existsb (strictEq v) r) && distinctValues r
  end.

Definition uniqueColumn (tb : Table.t) (column : string) : bool :=
  distinctValues
    (List.map (fun row => prop row column)
              (List.filter (fun row => has row column) (Table.data tb))).

(** A record that JSON gives back as it was written. *)
Definition jsonStable (row : object) : Prop := reparseObject row = row.

(** A run of inserts that all succeed. *)
Fixpoint insertAll (tb : Table.t) (fs : Files) (records : list object)
  : option (Table.t * Files) :=
  match records with
  | nil => Some (tb, fs)
  | r :: rest =>
      match Table.insert tb fs r with
      | (Return _, tb', fs') => insertAll tb' fs' rest
      | _ => None
      end
  end.

End WithRuntime.

(** ** The files of one table *)

Section OneTable.
Variable name : string.

(** The three files of the table [name]. *)
Definition dataFile : string := name ++ ".json".
Definition indexFile : string := name ++ "_index.json".
Definition schemaFile : string := name ++ "_schema.json".

(** The directory has the schema file of the table, and its data file
    holds [rows]. *)
Definition holds (rows : list object) (fs : Files) : Prop :=
  (exists s, get fs schemaFile = Some s)
  /\ get fs dataFile = Some (JsonRows rows).

Definition paths (tb : Table.t) : Prop :=
  Table.filePath tb = dataFile /\ Table.indexPath tb = indexFile.

(** A database in which the table has been loaded with [rows]. *)
Definition loaded (rows : list object) (db : Database.t) : Prop :=
  exists tb, get (Database.tables db) name = Some tb /\ Table.data tb = rows.

(** What every step of a reload of the directory [fs] keeps: the schema
    files are those of [fs], and the data file of the table holds
    [rows]. *)
Definition reloading (fs : Files) (rows : list object) (db : Database.t)
  : Prop :=
  (forall U, get (Database.files db) (U ++ "_schema.json")
             = get fs (U ++ "_schema.json"))
  /\ get (Database.files db) dataFile = Some (JsonRows rows).

End OneTable.

(** ** Reloading a directory *)

Section Reload.
Context {rt : Runtime}.

(** The index file of the table [T] has an index on [column]. *)
Definition indexOnFile (fs : Files) (T column : string) : bool :=
  match get fs (indexFile T) with
  | Some (JsonIndexes ix) => has ix column
  | _ => false
  end.

(** The index file of the table [T], if there is one, holds an index map.
    (In the place of an index file the source can only find the data file
    of a table named [<T>_index]; it reads it as an array, the embedding as
    no index.) *)
Definition indexFileIsMap (fs : Files) (T : string) : bool :=
  match get fs (indexFile T) with
  | Some (JsonIndexes _) | None => true
  | Some _ => false
  end.

(** The constructor does not build the index of the primary key from the
    rows on file, or the rows have ordinary values for the key.  (The
    source files a row whose key value reads as the name of a member of
    [Object.prototype] under the inherited member, which throws.) *)
Definition buildsAsEmbedded (fs : Files) (T : string) (schema : object) : bool :=
  let tb := fst (Table.new T schema fs) in
  negb (Table.hasPrimaryKey tb)
  || indexOnFile fs T (Table.primaryKeyName tb)
  || ordinaryValues (Table.data tb) (Table.primaryKeyName tb).

(** The reload of the directory [fs] constructs its tables as the
    embedding does: for every table it constructs, the schema on file
    defines every column (the source throws on a column defined as [null],
    which ends the reload), the index of the primary key is built as
    embedded, and the file the indexes are saved in is not the data file of
    [name].  (The source reads a data file found in the place of an index
    file as an array and writes back its rows; the embedding reads it as no
    index and writes an index map.) *)
Definition reloadsAsEmbedded (name : string) (fs : Files) : bool :=
  forallb
    (fun f =>
       if Str.endsWith f ".json" then
         let T := Str.replaceFirst ".json" "" f in
         match get fs (schemaFile T) with
         | Some sf =>
             let schema := Table.enumerable (Database.parsed sf) in
             columnsDefined schema
             && negb (String.eqb name (T ++ "_index"))
             && buildsAsEmbedded fs T schema
         | None => true
         end
       else true)
    (keys fs).

End Reload.

End Spec.

(* ================================================================== *)
(** * Concrete tables *)
(* ================================================================== *)

Module Demo.
Import JS Storage.

(** ** An engine for the closed examples

    Dates are in UTC.  [Date.parse] reads the date-only form
    [YYYY-MM-DD] and the forms that [toISOString] and [toString] write;
    regular expressions
    are those [compare] builds from a LIKE pattern without other
    metacharacters: an anchored sequence of literal characters, [.] and
    [.*]. *)

(** Days since 1970-01-01 of a day of the proleptic Gregorian calendar. *)
Definition daysFromCivil (y m d : Z) : Z :=
  let y := if m <=? 2 then y - 1 else y in
  let era := y / 400 in
  let yoe := y - era * 400 in
  let doy := (153 * (if 2 <? m then m - 3 else m + 9) + 2) / 5 + d - 1 in
  let doe := yoe * 365 + yoe / 4 - yoe / 100 + doy in
  era * 146097 + doe - 719468.

(** Year, month and day of a number of days since 1970-01-01. *)
Definition civilFromDays (z : Z) : Z * Z * Z :=
  let z := z + 719468 in
  let era := z / 146097 in
  let doe := z - era * 146097 in
  let yoe := (doe - doe / 1460 + doe / 36524 - doe / 146096) / 365 in
  let doy := doe - (365 * yoe + yoe / 4 - yoe / 100) in
  let mp := (5 * doy + 2) / 153 in
  let d := doy - (153 * mp + 2) / 5 + 1 in
  let m := if mp <? 10 then mp + 3 else mp - 9 in
  (if m <=? 2 then yoe + era * 400 + 1 else yoe + era * 400, m, d).

(** [n] in decimal, padded with zeros to [width] digits. *)
Definition padded (width : nat) (n : Z) : string :=
  let digits := Str.ofZ n in
  Str.ofChars (List.repeat "0"%char (width - String.length digits)%nat) ++ digits.

Definition toISOString (t : number) : string :=
  match t with
  | Dec ms 0 =>
      let '(y, m, d) := civilFromDays (ms / 86400000) in
      let r := ms mod 86400000 in
      (if (0 <=? y) && (y <=? 9999) then padded 4 y
       else (if y <? 0 then "-" else "+") ++ padded 6 (Z.abs y))
        ++ "-" ++ padded 2 m ++ "-" ++ padded 2 d
        ++ "T" ++ padded 2 (r / 3600000)
        ++ ":" ++ padded 2 (r mod 3600000 / 60000)
        ++ ":" ++ padded 2 (r mod 60000 / 1000)
        ++ "." ++ padded 3 (r mod 1000) ++ "Z"
  | _ => "Invalid Date"
  end.

(** The number a run of decimal digits denotes. *)
Definition digitsOf (l : list ascii) : option Z :=
  match l with
  | nil => None
  | _ => if forallb Str.isDigit l then Some (digitsValue 10 l) else None
  end.

(** The forms [YYYY-MM-DD] and [YYYY-MM-DDTHH:mm:ss.sssZ]. *)
Definition parseISO (s : string) : number :=
  let full := if (String.length s =? 10)%nat then s ++ "T00:00:00.000Z" else s in
  match Str.chars full with
  | [y1; y2; y3; y4; _; m1; m2; _; d1; d2; _; h1; h2; _; n1; n2; _; s1; s2; _;
     f1; f2; f3; _] =>
      match digitsOf [y1; y2; y3; y4], digitsOf [m1; m2], digitsOf [d1; d2],
            digitsOf [h1; h2], digitsOf [n1; n2], digitsOf [s1; s2],
            digitsOf [f1; f2; f3] with
      | Some y, Some m, Some d, Some h, Some n, Some sec, Some f =>
          let t := Int (daysFromCivil y m d * 86400000
                        + h * 3600000 + n * 60000 + sec * 1000 + f) in
          if String.eqb (toISOString t) full then t else NaN
      | _, _, _, _, _, _, _ => NaN
      end
  | _ => NaN
  end.

(** The pieces of a LIKE pattern turned into a regular expression. *)
Inductive piece : Type :=
| Literal (c : ascii)
| AnyChar
| AnyRun.

Definition isMeta (c : ascii) : bool :=
  existsb (Ascii.eqb c) (Str.chars "\^$.*+?()[]{}|/").

(** The pieces before the closing [$]; [None] when something else than
    a literal, [.] or [.*] occurs. *)
Fixpoint pieces (l : list ascii) : option (list piece) :=
  match l with
  | nil => None
  | c :: r =>
      if Ascii.eqb c "$" && match r with nil => true | _ => false end
      then Some nil
      else if Ascii.eqb c "." then
        match r with
        | d :: r' =>
            if Ascii.eqb d "*" then option_map (cons AnyRun) (pieces r')
            else option_map (cons AnyChar) (pieces r)
        | nil => option_map (cons AnyChar) (pieces r)
        end
      else if isMeta c then None
      else option_map (cons (Literal c)) (pieces r)
  end.

Definition notLineEnd (c : ascii) : bool :=
  negb (Ascii.eqb c "010") && negb (Ascii.eqb c "013").

Fixpoint matchPieces (ps : list piece) : list ascii -> bool :=
  match ps with
  | nil => fun s => match s with nil => true | _ => false end
  | Literal c :: rest =>
      fun s => match s with
               | d :: r => Ascii.eqb c d && matchPieces rest r
               | nil => false
               end
  | AnyChar :: rest =>
      fun s => match s with
               | d :: r => notLineEnd d && matchPieces rest r
               | nil => false
               end
  | AnyRun :: rest =>
      fix run (s : list ascii) : bool :=
        matchPieces rest s
        || match s with
           | d :: r => notLineEnd d && run r
           | nil => false
           end
  end.

Definition testRegExp (src s : string) : option bool :=
  match Str.chars src with
  | c :: body =>
      if Ascii.eqb c "^"
      then option_map (fun ps => matchPieces ps (Str.chars s)) (pieces body)
      else None
  | nil => None
  end.

Definition dayName (days : Z) : string :=
  nth (Z.to_nat ((days + 4) mod 7))
      ["Sun"; "Mon"; "Tue"; "Wed"; "Thu"; "Fri"; "Sat"] "".

Definition monthName (m : Z) : string :=
  nth (Z.to_nat (m - 1))
      ["Jan"; "Feb"; "Mar"; "Apr"; "May"; "Jun";
       "Jul"; "Aug"; "Sep"; "Oct"; "Nov"; "Dec"] "".

(** [Date.prototype.toString] in the UTC time zone. *)
Definition toDateString (t : number) : string :=
  match t with
  | Dec ms 0 =>
      let '(y, m, d) := civilFromDays (ms / 86400000) in
      let r := ms mod 86400000 in
      dayName (ms / 86400000) ++ " " ++ monthName m ++ " " ++ padded 2 d ++ " "
        ++ (if y <? 0 then "-" else "") ++ padded 4 (Z.abs y) ++ " "
        ++ padded 2 (r / 3600000) ++ ":" ++ padded 2 (r mod 3600000 / 60000)
        ++ ":" ++ padded 2 (r mod 60000 / 1000)
        ++ " GMT+0000 (Coordinated Universal Time)"
  | _ => "Invalid Date"
  end.

(** The form [toDateString] writes. *)
Definition parseDateString (s : string) : number :=
  match Str.chars s with
  | _ :: _ :: _ :: _ :: m1 :: m2 :: m3 :: _ :: d1 :: d2 :: _
      :: y1 :: y2 :: y3 :: y4 :: _ :: h1 :: h2 :: _ :: n1 :: n2 :: _
      :: s1 :: s2 :: _ =>
      let month :=
        List.find (fun m => String.eqb (monthName m) (Str.ofChars [m1; m2; m3]))
                  [1; 2; 3; 4; 5; 6; 7; 8; 9; 10; 11; 12] in
      match month, digitsOf [d1; d2], digitsOf [y1; y2; y3; y4],
            digitsOf [h1; h2], digitsOf [n1; n2], digitsOf [s1; s2] with
      | Some m, Some d, Some y, Some h, Some n, Some sec =>
          let t := Int (daysFromCivil y m d * 86400000
                        + h * 3600000 + n * 60000 + sec * 1000) in
          if String.eqb (toDateString t) s then t else NaN
      | _, _, _, _, _, _ => NaN
      end
  | _ => NaN
  end.

Definition parseDate (s : string) : number :=
  match parseISO s with
  | NaN => parseDateString s
  | t => t
  end.

Definition runtime : Runtime :=
  {| Date_parse := parseDate;
     Date_toString := toDateString;
     Date_toISOString := toISOString;
     RegExp_test := testRegExp |}.

#[local] Existing Instance runtime.

Definition num (z : Z) : value := VNum (Int z).

(** What a run of inserts leaves, failed inserts included. *)
Definition inserts (start : Table.t * Files) (records : list object)
  : Table.t * Files :=
  fold_left (fun st r => let '(_, tb, fs) := Table.insert (fst st) (snd st) r in
                         (tb, fs))
            records start.

(** The schema of the specification's worked example (section 8). *)
Definition peopleSchema : object :=
  [("id", VObj [("type", VStr "number"); ("primaryKey", VBool true);
                ("autoIncrement", VBool true)]);
   ("name", VObj [("type", VStr "string"); ("required", VBool true)]);
   ("age", VObj [("type", VStr "number"); ("defaultValue", num 18)])].

Definition noPeople : Table.t * Files := Table.new "t" peopleSchema nil.

(** Ann and Bo, ids 1 and 2. *)
Definition people : Table.t * Files :=
  inserts noPeople [[("name", VStr "Ann")];
                    [("name", VStr "Bo"); ("age", num 30)]].

(** The same rows in a table that has no index. *)
Definition peopleUnindexed : Table.t :=
  Table.withIndexes (fst people) nil.

(** One row, inserted with the id -5. *)
Definition negativeIds : Table.t * Files :=
  inserts noPeople [[("id", num (-5)); ("name", VStr "Ann")]].

(** The [users] table of [index.js]. *)
Definition usersSchema : object :=
  [("id", VObj [("type", VStr "number"); ("primaryKey", VBool true);
                ("autoIncrement", VBool true)]);
   ("username", VObj [("type", VStr "string"); ("required", VBool true);
                      ("unique", VBool true)]);
   ("email", VObj [("type", VStr "string"); ("required", VBool true)]);
   ("age", VObj [("type", VStr "number"); ("defaultValue", num 18)]);
   ("active", VObj [("type", VStr "boolean"); ("defaultValue", VBool true)]);
   ("createdAt", VObj [("type", VStr "date");
                       ("defaultValue", VDate (Int 1767225600000))])].

Definition alice : object :=
  [("username", VStr "alice"); ("email", VStr "alice@example.com"); ("age", num 25)].

Definition bob : object :=
  [("username", VStr "bob"); ("email", VStr "bob@example.com"); ("age", num 30)].

Definition charlie : object :=
  [("username", VStr "charlie"); ("email", VStr "charlie@example.com")].

Definition alice2 : object :=
  [("username", VStr "alice"); ("email", VStr "another@example.com")].

(** The state of [users] when [index.js] reaches "Testing constraints":
    three inserts, the update of alice's age and the index on [age].  The
    lookups and the two queries in between change nothing. *)
Definition users : Table.t * Files :=
  let '(tb, fs) := inserts (Table.new "users" usersSchema nil) [alice; bob; charlie] in
  let '(_, tb, fs) := Table.update tb fs [("username", VStr "alice")] [("age", num 26)] in
  let '(_, tb, fs) := Table.createIndex tb fs "age" in
  (tb, fs).

(** The table of the README, whose column types are SQL's. *)
Definition sqlSchema : object :=
  [("id", VObj [("type", VStr "int"); ("primaryKey", VBool true);
                ("autoIncrement", VBool true)]);
   ("name", VObj [("type", VStr "varchar"); ("required", VBool true)]);
   ("age", VObj [("type", VStr "int")])].

Definition sqlUsers : Table.t * Files := Table.new "users" sqlSchema nil.

(** A table with a date column, created in an empty database. *)
Definition eventsSchema : object :=
  [("id", VObj [("type", VStr "number"); ("primaryKey", VBool true);
                ("autoIncrement", VBool true)]);
   ("at", VObj [("type", VStr "date");
                ("defaultValue", VDate (Int 1767225600000))])].

Definition emptyDb : Database.t := Database.new "demo" nil.

(** What [createTable] returns and leaves, in a database where the table
    does not exist yet. *)
Definition create (db : Database.t) (name : string) (schema : object)
  : Table.t * Database.t :=
  match Database.createTable db name schema with
  | (Return tb, db') => (tb, db')
  | (_, db') => (fst (Table.new name schema (Database.files db)), db')
  end.

(** The example created through the database, so that its schema is on
    disk, and then filled. *)
Definition peopleCreated : Table.t * Database.t := create emptyDb "t" peopleSchema.

Definition peopleStored : Table.t * Files :=
  inserts (fst peopleCreated, Database.files (snd peopleCreated))
          [[("name", VStr "Ann")]; [("name", VStr "Bo"); ("age", num 30)]].

Definition eventsCreated : Table.t * Database.t :=
  create emptyDb "events" eventsSchema.

(** One event, inserted with the default date. *)
Definition eventsStored : Table.t * Files :=
  inserts (fst eventsCreated, Database.files (snd eventsCreated)) [nil].

Definition peopleDb : Database.t :=
  {| Database.name := "demo";
     Database.tables := [("t", fst people)];
     Database.files := snd people |}.

(** A table without a primary key, with two rows. *)
Definition notesSchema : object := [("text", VObj [("type", VStr "string")])].

Definition notes : Table.t * Files :=
  inserts (Table.new "notes" notesSchema nil)
          [[("text", VStr "a")]; [("text", VStr "b")]].

(** The database of the example once Ann and Bo are stored, and the
    notes created and stored next to them. *)
Definition peopleStoredDb : Database.t :=
  {| Database.name := "demo";
     Database.tables := [("t", fst peopleStored)];
     Database.files := snd peopleStored |}.

Definition notesCreated : Table.t * Database.t :=
  create peopleStoredDb "notes" notesSchema.

Definition notesStored : Table.t * Files :=
  inserts (fst notesCreated, Database.files (snd notesCreated))
          [[("text", VStr "a")]; [("text", VStr "b")]].

(** The notes under a name in which [.json] occurs. *)
Definition oldNotesCreated : Table.t * Database.t :=
  create emptyDb "notes.json.old" notesSchema.

Definition oldNotesStored : Table.t * Files :=
  inserts (fst oldNotesCreated, Database.files (snd oldNotesCreated))
          [[("text", VStr "a")]].

End Demo.

(* ================================================================== *)
(** * Facts about objects *)
(* ================================================================== *)

Import JS Storage.

Unset Implicit Arguments.

Section ObjFacts.
Variable A : Type.
Implicit Types (o : obj A) (k : string) (v : A).

Lemma get_replace_same o k v :
  has o k = true -> get (replace o k v) k = Some v.
Proof.
  unfold has. induction o as [|[k' v'] r IH]; simpl; [discriminate|].
  destruct (String.eqb k' k) eqn:E; simpl; rewrite E; auto.
Qed.

Lemma get_replace_other o k k' v :
  k' <> k -> get (replace o k v) k' = get o k'.
Proof.
  intros Hne. induction o as [|[k0 v0] r IH]; simpl; [reflexivity|].
  destruct (String.eqb k0 k) eqn:E; simpl.
  - apply String.eqb_eq in E. subst k0.
    destruct (String.eqb k k') eqn:E'; [|reflexivity].
    apply String.eqb_eq in E'. congruence.
  - rewrite IH. reflexivity.
Qed.

Lemma get_insertIndexKey_same o i k v :
  has o k = false -> get (insertIndexKey o i k v) k = Some v.
Proof.
  unfold has. induction o as [|[k' v'] r IH]; simpl; intros H.
  - now rewrite String.eqb_refl.
  - destruct (String.eqb k' k) eqn:E; [discriminate|].
    destruct (arrayIndex k') as [j|]; [destruct (j <? i)|]; simpl;
      rewrite ?E, ?String.eqb_refl; auto.
Qed.

Lemma get_insertIndexKey_other o i k k' v :
  k' <> k -> get (insertIndexKey o i k v) k' = get o k'.
Proof.
  intros Hne.
  assert (Hk : String.eqb k k' = false) by (apply String.eqb_neq; congruence).
  induction o as [|[k0 v0] r IH]; simpl.
  - now rewrite Hk.
  - destruct (arrayIndex k0) as [j|]; [destruct (j <? i)|]; simpl;
      rewrite ?Hk, ?IH; reflexivity.
Qed.

Lemma get_app_last o k k' v :
  get (o ++ [(k, v)])%list k' =
  match get o k' with
  | Some x => Some x
  | None => if String.eqb k k' then Some v else None
  end.
Proof.
  induction o as [|[k0 v0] r IH]; simpl; [reflexivity|].
  destruct (String.eqb k0 k'); auto.
Qed.

Lemma get_set_same o k v : get (set o k v) k = Some v.
Proof.
  unfold set. destruct (has o k) eqn:H.
  - now apply get_replace_same.
  - destruct (arrayIndex k).
    + now apply get_insertIndexKey_same.
    + rewrite get_app_last. unfold has in H.
      destruct (get o k); [discriminate|]. now rewrite String.eqb_refl.
Qed.

Lemma get_set_other o k k' v : k' <> k -> get (set o k v) k' = get o k'.
Proof.
  intros Hne. unfold set. destruct (has o k).
  - now apply get_replace_other.
  - destruct (arrayIndex k).
    + now apply get_insertIndexKey_other.
    + rewrite get_app_last. destruct (get o k'); [reflexivity|].
      destruct (String.eqb k k') eqn:E; [|reflexivity].
      apply String.eqb_eq in E. congruence.
Qed.

Lemma has_set_same o k v : has (set o k v) k = true.
Proof. unfold has. now rewrite get_set_same. Qed.

Lemma has_set_other o k k' v : k' <> k -> has (set o k v) k' = has o k'.
Proof. intros. unfold has. now rewrite get_set_other. Qed.

End ObjFacts.

Section KeyFacts.
Variable A : Type.
Implicit Types (o : obj A) (k : string) (v : A).

Lemma keys_replace o k v : keys (replace o k v) = keys o.
Proof.
  unfold keys. induction o as [|[k' v'] r IH]; simpl; auto.
  destruct (String.eqb k' k); simpl; congruence.
Qed.

Lemma keys_insertIndexKey o i k v k' :
  In k' (keys (insertIndexKey o i k v)) -> k' = k \/ In k' (keys o).
Proof.
  unfold keys. induction o as [|[k0 v0] r IH]; simpl.
  - intuition.
  - destruct (arrayIndex k0) as [j|]; [destruct (j <? i)|]; simpl; intuition.
Qed.

Lemma keys_set o k v k' :
  In k' (keys (set o k v)) -> k' = k \/ In k' (keys o).
Proof.
  unfold set. destruct (has o k).
  - rewrite keys_replace. auto.
  - destruct (arrayIndex k).
    + apply keys_insertIndexKey.
    + unfold keys. rewrite map_app, in_app_iff. simpl. intuition.
Qed.

Lemma get_absent o k : ~ In k (keys o) -> get o k = None.
Proof.
  unfold keys. induction o as [|[k' v'] r IH]; simpl; intros H; auto.
  destruct (String.eqb k' k) eqn:E.
  - apply String.eqb_eq in E. intuition.
  - apply IH. intuition.
Qed.

Lemma get_present o k v : get o k = Some v -> In k (keys o).
Proof.
  intros H. destruct (in_dec string_dec k (keys o)) as [Hin|Hin]; auto.
  rewrite get_absent in H by assumption. discriminate.
Qed.

Lemma in_keys_has o k : In k (keys o) -> has o k = true.
Proof.
  intros H. unfold has. destruct (get o k) eqn:E; auto.
  exfalso. revert H E. unfold keys.
  induction o as [|[k' v'] r IH]; simpl; [tauto|].
  intros [->|H]; [now rewrite String.eqb_refl|].
  destruct (String.eqb k' k); [discriminate|auto].
Qed.

Lemma NoDup_keys_insertIndexKey o i k v :
  ~ In k (keys o) -> NoDup (keys o) -> NoDup (keys (insertIndexKey o i k v)).
Proof.
  unfold keys. induction o as [|[k0 v0] r IH]; simpl; intros Hk Hnd.
  - repeat constructor. tauto.
  - assert (Hcons : NoDup (k :: k0 :: List.map fst r)) by (constructor; auto).
    destruct (arrayIndex k0) as [j|]; [destruct (j <? i)|]; simpl; auto.
    inversion Hnd; subst. constructor.
    + intros Hin. apply keys_insertIndexKey in Hin. unfold keys in Hin.
      destruct Hin as [->|Hin]; tauto.
    + apply IH; tauto.
Qed.

Lemma NoDup_keys_set o k v : NoDup (keys o) -> NoDup (keys (set o k v)).
Proof.
  intros Hnd. unfold set. destruct (has o k) eqn:Hhas.
  - now rewrite keys_replace.
  - assert (Hk : ~ In k (keys o)).
    { intros Hin. apply in_keys_has in Hin. congruence. }
    destruct (arrayIndex k).
    + now apply NoDup_keys_insertIndexKey.
    + unfold keys in *. rewrite map_app. simpl.
      apply NoDup_app; auto.
      * repeat constructor. tauto.
      * intros x Hx [<-|[]]. tauto.
Qed.

End KeyFacts.

Lemma prop_set_same (o : object) k v : prop (set o k v) k = v.
Proof. unfold prop. now rewrite get_set_same. Qed.

Lemma prop_set_other (o : object) k k' v :
  k' <> k -> prop (set o k v) k' = prop o k'.
Proof. intros. unfold prop. now rewrite get_set_other. Qed.

(* ================================================================== *)
(** * Validation *)
(* ================================================================== *)

Section ValidationFacts.
Context {rt : Runtime}.

(** A lookup of one column that has an index never scans and never
    throws: it returns the copies of the rows the bucket lists. *)
Lemma find_indexed tb column v ix :
  get (Table.indexes tb) column = Some ix ->
  Table.find tb [(column, v)] =
  Return (match get ix (ToString v) with
          | Some indices =>
              List.map (fun i => Table.copyRow (nth_error (Table.data tb) i)) indices
          | None => nil
          end).
Proof.
  intros H. unfold Table.find. simpl. rewrite H.
  unfold prop. simpl. rewrite String.eqb_refl.
  destruct (get ix (ToString v)); reflexivity.
Qed.

Lemma findOne_indexed tb column v ix :
  get (Table.indexes tb) column = Some ix ->
  Table.findOne tb [(column, v)] =
  Return (match get ix (ToString v) with
          | Some (i :: _) => Some (Table.copyRow (nth_error (Table.data tb) i))
          | _ => None
          end).
Proof.
  intros H. unfold Table.findOne. rewrite find_indexed with (ix := ix) by exact H.
  destruct (get ix (ToString v)) as [[|i l]|]; reflexivity.
Qed.

(** One turn of the validation loop: the column's errors are appended to
    the errors so far, whatever these are. *)
Lemma validateColumn_spec tb record errors result column def :
  Table.validateColumn tb record (errors, result) column def =
  Return ((errors ++ Spec.columnErrors tb record column def)%list,
          Spec.columnResult record column def result).
Proof.
  unfold Table.validateColumn, Spec.columnErrors, Spec.columnResult, push.
  destruct (has record column) eqn:Hhas; simpl.
  - rewrite !andb_false_r. simpl.
    destruct (Table.validateType (prop record column) (Column.type def)); simpl;
      [|reflexivity].
    rewrite prop_set_same. unfold Spec.duplicate.
    destruct (Column.unique def); simpl; [|now rewrite app_nil_r].
    unfold has at 1.
    destruct (get (Table.indexes tb) column) as [ix|] eqn:Hix;
      [|now rewrite app_nil_r].
    rewrite findOne_indexed with (ix := ix) by exact Hix.
    destruct (get ix _) as [[|i l]|]; try now rewrite app_nil_r.
    destruct (strictEq _ _); simpl; [now rewrite app_nil_r|reflexivity].
  - rewrite !andb_true_r.
    destruct (Column.autoIncrement def); simpl; [now rewrite app_nil_r|].
    destruct (Column.required def), (isUndefined (Column.defaultValue def));
      simpl; rewrite ?app_nil_r; reflexivity.
Qed.

Lemma validateColumns_spec tb record columns : forall errors result,
  Table.validateColumns tb record (errors, result) columns =
  Return ((errors
             ++ List.flat_map (fun c => Spec.columnErrors tb record (fst c) (snd c))
                              columns)%list,
          fold_left (fun result c => Spec.columnResult record (fst c) (snd c) result)
                    columns result).
Proof.
  induction columns as [|[column def] rest IH]; intros.
  - simpl. now rewrite app_nil_r.
  - cbn [Table.validateColumns flat_map fold_left fst snd].
    rewrite validateColumn_spec, IH, <- app_assoc. reflexivity.
Qed.

(** [validateRecord] returns the validated mapping when no column
    recorded an error and throws the joined messages otherwise. *)
Lemma validateRecord_spec tb record :
  Table.validateRecord tb record =
  match Spec.recordErrors tb record with
  | nil => Return (Spec.recordResult tb record)
  | errors => Throw (String.concat ", " errors)
  end.
Proof.
  unfold Table.validateRecord. rewrite validateColumns_spec.
  unfold Spec.recordErrors, Spec.recordResult. cbn [app].
  destruct (flat_map _ _); reflexivity.
Qed.

End ValidationFacts.

(* ================================================================== *)
(** * Validation errors and failed inserts *)
(* ================================================================== *)

Section InsertFacts.
Context {rt : Runtime}.

(** C5, for the records the source validates without reading an inherited
    property: the columns are not named like a member of
    [Object.prototype], no value looked up in an index reads as such a
    name, and the record's primary-key value is compared by what it holds.
    The validation loop runs over the whole schema and records the errors
    of every column (the errors of a column do not depend on what the
    columns before it recorded).  When it records at least one error,
    [insert] throws one error whose message lists them all, joined by
    [", "], and it leaves the rows, the indexes and the files as they
    were. *)
Theorem C5_insert_aggregates_errors_and_changes_nothing
        (tb : Table.t) (fs : Files) (record : object) :
  forallb Spec.ordinaryName (keys (Table.schema tb)) = true ->
  Spec.ordinaryLookups tb record = true ->
  Spec.primitive (prop record (Table.primaryKeyName tb)) = true ->
  Table.validateColumns tb record (nil, nil) (Table.schema tb)
  = Return (Spec.recordErrors tb record, Spec.recordResult tb record)
  /\ (Spec.recordErrors tb record <> nil ->
      Table.insert tb fs record =
      (Throw (String.concat ", " (Spec.recordErrors tb record)), tb, fs)).
Proof.
  intros _ _ _. split.
  - now rewrite validateColumns_spec.
  - intros Herr. unfold Table.insert. rewrite validateRecord_spec.
    destruct (Spec.recordErrors tb record); [contradiction|reflexivity].
Qed.

End InsertFacts.

(** A record with three faulty columns is refused with three messages. *)
Lemma C5_witness :
  Table.insert (rt := Demo.runtime) (fst Demo.people) (snd Demo.people)
               [("id", VStr "x"); ("age", VStr "y")] =
  (Throw ("Invalid type for 'id': expected number, "
            ++ "Required column 'name' is missing, "
            ++ "Invalid type for 'age': expected number"),
   fst Demo.people, snd Demo.people).
Proof.
  exact (proj2 (@C5_insert_aggregates_errors_and_changes_nothing
                  Demo.runtime (fst Demo.people) (snd Demo.people)
                  [("id", VStr "x"); ("age", VStr "y")]
                  eq_refl eq_refl eq_refl)
               ltac:(vm_compute; discriminate)).
Defined.

(* ================================================================== *)
(** * Column types *)
(* ================================================================== *)

Section TypeFacts.
Context {rt : Runtime}.

(** C9, as the code has it.  A type name outside the six known ones
    selects the [default] branch of both switches: every value passes the
    type check and is kept as it is, and a column of such a type can only
    ever record a duplicate error. *)
Theorem C9_unknown_type_accepts_every_value (type : value) :
  Spec.isKnownType type = false ->
  (forall v, Table.validateType v type = true /\ Table.coerceValue v type = v)
  /\ (forall tb record column def,
         Column.type def = type -> has record column = true ->
         Spec.columnErrors tb record column def = nil
         \/ Spec.columnErrors tb record column def =
            ["Duplicate value for unique column '" ++ column ++ "'"]).
Proof.
  unfold Spec.isKnownType, Spec.knownTypes. cbn [existsb].
  intros H. repeat (apply orb_false_elim in H; destruct H as [?H H]).
  assert (Hv : forall v, Table.validateType v type = true
                         /\ Table.coerceValue v type = v).
  { intros v. unfold Table.validateType, Table.coerceValue.
    rewrite H0, H1, H2, H3, H4, H5. destruct v; auto. }
  split; [exact Hv|].
  intros tb record column def Hty Hhas. unfold Spec.columnErrors.
  rewrite Hhas, Hty. destruct (Hv (prop record column)) as [-> _].
  destruct (_ && _); auto.
Qed.

End TypeFacts.

Lemma C9_witness :
  (forall v, Table.validateType (rt := Demo.runtime) v (VStr "int") = true
             /\ Table.coerceValue (rt := Demo.runtime) v (VStr "int") = v)
  /\ (forall tb record column def,
         Column.type def = VStr "int" -> has record column = true ->
         Spec.columnErrors (rt := Demo.runtime) tb record column def = nil
         \/ Spec.columnErrors (rt := Demo.runtime) tb record column def =
            ["Duplicate value for unique column '" ++ column ++ "'"]).
Proof.
  exact (@C9_unknown_type_accepts_every_value Demo.runtime (VStr "int") eq_refl).
Defined.

(** C9 as stated fails: in the table of the README the column [age] has
    the type [int], which is none of the six; a string supplied for it is
    stored and no error is raised. *)
Lemma C9_counterexample :
  Spec.isKnownType (VStr "int") = false
  /\ exists tb fs,
       Table.insert (rt := Demo.runtime) (fst Demo.sqlUsers) (snd Demo.sqlUsers)
                    [("name", VStr "Alice"); ("age", VStr "old")]
       = (Return [("name", VStr "Alice"); ("age", VStr "old"); ("id", Demo.num 1)],
          tb, fs).
Proof.
  split; [reflexivity|]. eexists. eexists. vm_compute. reflexivity.
Qed.

(* ================================================================== *)
(** * Literals of the query language *)
(* ================================================================== *)

(** Every value of an INSERT is the literal of one of the tokens. *)
Lemma insertValues_literals rest : forall vals,
  SQLParser.insertValues rest = Return vals ->
  Forall (fun v => exists tok, In tok rest /\ v = SQLParser.parseInsert_value tok)
         vals.
Proof.
  induction rest as [rest IH]
    using (well_founded_induction
             (Wf_nat.well_founded_ltof _ (@List.length string))).
  destruct rest as [|tok r]; intros vals H; simpl in H; [discriminate|].
  destruct (String.eqb tok ")"); [inversion H; constructor|].
  set (r' := match r with
             | c :: r' => if String.eqb c "," then r' else r
             | nil => r
             end) in *.
  assert (Hsub : forall x, In x r' -> In x r).
  { subst r'. destruct r as [|c r0]; auto.
    destruct (String.eqb c ","); simpl; auto. }
  assert (Hlen : (List.length r' <= List.length r)%nat).
  { subst r'. destruct r as [|c r0]; auto.
    destruct (String.eqb c ","); simpl; auto. }
  destruct (SQLParser.insertValues r') as [vs| |] eqn:E; try discriminate.
  inversion H; subst; clear H. constructor.
  - exists tok. split; [now left|reflexivity].
  - assert (Hlt : Wf_nat.ltof _ (@List.length string) r' (tok :: r)).
    { unfold Wf_nat.ltof. simpl. lia. }
    specialize (IH r' Hlt vs E).
    eapply Forall_impl; [|exact IH].
    intros v (t & Ht & ->). exists t. split; [right; auto|reflexivity].
Qed.

(** Every value of the patch of an UPDATE is the literal of one of the
    tokens of its SET clause. *)
Lemma updateSet_literals rest : forall updates patch after,
  SQLParser.updateSet updates rest = Return (patch, after) ->
  forall k v, get patch k = Some v ->
              get updates k = Some v
              \/ exists tok, In tok rest /\ v = SQLParser.parseUpdate_value tok.
Proof.
  induction rest as [rest IH]
    using (well_founded_induction
             (Wf_nat.well_founded_ltof _ (@List.length string))).
  destruct rest as [|column r]; intros updates patch after H k v Hget; simpl in H.
  - inversion H; subst. auto.
  - destruct (String.eqb (Str.toUpperCase column) "WHERE");
      [inversion H; subst; auto|].
    destruct r as [|eq r1]; [discriminate|].
    destruct (negb (String.eqb eq "=")); [discriminate|].
    destruct r1 as [|value r2]; [discriminate|].
    set (r' := match r2 with
               | c :: r3 => if String.eqb c "," then r3 else r2
               | nil => r2
               end) in *.
    assert (Hsub : forall x, In x r' -> In x r2).
    { subst r'. destruct r2 as [|c r0]; auto.
      destruct (String.eqb c ","); simpl; auto. }
    assert (Hlen : (List.length r' <= List.length r2)%nat).
    { subst r'. destruct r2 as [|c r0]; auto.
      destruct (String.eqb c ","); simpl; auto. }
    assert (Hlt : Wf_nat.ltof _ (@List.length string) r' (column :: eq :: value :: r2)).
    { unfold Wf_nat.ltof. simpl. lia. }
    destruct (IH r' Hlt _ _ _ H k v Hget) as [Hupd|(t & Ht & ->)].
    + destruct (string_dec k column) as [->|Hne].
      * rewrite get_set_same in Hupd. inversion Hupd; subst.
        right. exists value. split; [simpl; auto|reflexivity].
      * rewrite get_set_other in Hupd by assumption. auto.
    + right. exists t. split; [simpl; auto|reflexivity].
Qed.

(** C8, as the code has it.  The three places that read a literal agree on
    every token.  A token in single quotes is the text between them; else
    a token that [Number] understands is that number; else exactly the
    spellings [TRUE], [true], [FALSE] and [false] are the booleans and
    [NULL] is null; every other token is its own text.  The values of an
    INSERT, the values of the patch of an UPDATE and the comparand of a
    condition are such literals of tokens of the query. *)
Theorem C8_literal_coercion :
  (forall tok : string,
      SQLParser.parseInsert_value tok = SQLParser.parseCondition_value tok
      /\ SQLParser.parseUpdate_value tok = SQLParser.parseCondition_value tok
      /\ (Spec.quoted tok = true ->
          SQLParser.parseCondition_value tok = VStr (Str.slice_1_m1 tok))
      /\ (Spec.quoted tok = false -> SQLParser.numeric tok = true ->
          SQLParser.parseCondition_value tok = VNum (StringToNumber tok))
      /\ (tok = "TRUE" \/ tok = "true" ->
          SQLParser.parseCondition_value tok = VBool true)
      /\ (tok = "FALSE" \/ tok = "false" ->
          SQLParser.parseCondition_value tok = VBool false)
      /\ (tok = "NULL" -> SQLParser.parseCondition_value tok = VNull)
      /\ (Spec.quoted tok = false -> SQLParser.numeric tok = false ->
          ~ In tok ["TRUE"; "true"; "FALSE"; "false"; "NULL"] ->
          SQLParser.parseCondition_value tok = VStr tok))
  /\ (forall rest vals,
         SQLParser.insertValues rest = Return vals ->
         Forall (fun v => exists tok,
                     In tok rest /\ v = SQLParser.parseInsert_value tok) vals)
  /\ (forall rest patch after,
         SQLParser.updateSet nil rest = Return (patch, after) ->
         forall k v, get patch k = Some v ->
                     exists tok, In tok rest /\ v = SQLParser.parseUpdate_value tok)
  /\ (forall rest conditions,
         SQLParser.parseCondition rest = Return conditions ->
         exists column operator tok,
           nth_error rest 2 = Some tok
           /\ conditions
              = [(column, VObj [(operator, SQLParser.parseCondition_value tok)])]).
Proof.
  split; [intros tok|split; [|split]].
  - split; [reflexivity|]. split; [reflexivity|].
    unfold SQLParser.parseCondition_value, Spec.quoted.
    split; [intros ->; reflexivity|].
    split; [intros -> ->; reflexivity|].
    split; [intros [-> | ->]; reflexivity|].
    split; [intros [-> | ->]; reflexivity|].
    split; [intros ->; reflexivity|].
    intros -> -> Hnot.
    repeat match goal with
           | |- context [String.eqb tok ?w] =>
               let E := fresh "E" in
               destruct (String.eqb tok w) eqn:E;
               [apply String.eqb_eq in E; exfalso; apply Hnot; subst tok;
                simpl; tauto|]
           end.
    reflexivity.
  - exact insertValues_literals.
  - intros rest patch after H k v Hget.
    destruct (updateSet_literals rest nil patch after H k v Hget) as [Hnil|Htok];
      [discriminate|exact Htok].
  - intros rest conditions. unfold SQLParser.parseCondition.
    destruct (nth_error rest 2) as [tok|]; [|discriminate].
    intros H. inversion H. eauto.
Qed.

Lemma C8_witness :
  SQLParser.parseCondition_value "'Ann'" = VStr "Ann"
  /\ SQLParser.parseCondition_value "999.99" = VNum (Dec 99999 2)
  /\ SQLParser.parseCondition_value "true" = VBool true
  /\ SQLParser.parseCondition_value "NULL" = VNull
  /\ SQLParser.parseCondition_value "Ann" = VStr "Ann"
  /\ Forall (fun v => exists tok,
                 In tok ["'Cy'"; ","; "2.5"; ")"]
                 /\ v = SQLParser.parseInsert_value tok)
            [VStr "Cy"; VNum (Dec 25 1)].
Proof.
  pose proof C8_literal_coercion as (Htok & Hins & _).
  pose proof (Htok "'Ann'") as (_ & _ & Hq & _).
  pose proof (Htok "999.99") as (_ & _ & _ & Hn & _).
  pose proof (Htok "true") as (_ & _ & _ & _ & Ht & _).
  pose proof (Htok "NULL") as (_ & _ & _ & _ & _ & _ & Hnull & _).
  pose proof (Htok "Ann") as (_ & _ & _ & _ & _ & _ & _ & Hraw).
  assert (Hnone : ~ In "Ann" ["TRUE"; "true"; "FALSE"; "false"; "NULL"]).
  { simpl. intros [H|[H|[H|[H|[H|[]]]]]]; discriminate H. }
  exact (conj (Hq eq_refl)
           (conj (Hn eq_refl eq_refl)
              (conj (Ht (or_intror eq_refl))
                 (conj (Hnull eq_refl)
                    (conj (Hraw eq_refl eq_refl Hnone)
                       (Hins ["'Cy'"; ","; "2.5"; ")"] _ eq_refl)))))).
Defined.

(** C8 as stated fails: [True] is [TRUE] up to case, but it is read as the
    text [True], not as the boolean, at the three places. *)
Lemma C8_counterexample :
  Str.toUpperCase "True" = "TRUE"
  /\ SQLParser.parseInsert_value "True" = VStr "True"
  /\ SQLParser.parseUpdate_value "True" = VStr "True"
  /\ SQLParser.parseCondition_value "True" = VStr "True"
  /\ SQLParser.parseCondition_value "True" <> VBool true.
Proof.
  repeat split; try reflexivity. discriminate.
Qed.

(* ================================================================== *)
(** * SELECT ... LIMIT *)
(* ================================================================== *)

Section LimitFacts.
Context {rt : Runtime}.

Lemma firstn_min_length (A : Type) (l : list A) (n : nat) :
  firstn (Nat.min n (List.length l)) l = firstn n l.
Proof.
  destruct (Nat.le_gt_cases n (List.length l)) as [H|H].
  - now rewrite Nat.min_l.
  - rewrite Nat.min_r by lia.
    rewrite !firstn_all2; auto; lia.
Qed.

(** A limit of zero is falsy and skips the truncation. *)
Lemma applyLimit_zero results :
  SQLParser.applyLimit (Some (Int 0)) results = results.
Proof. reflexivity. Qed.

(** A positive limit keeps the first [n] rows. *)
Lemma applyLimit_positive results n :
  0 < n ->
  SQLParser.applyLimit (Some (Int n)) results = firstn (Z.to_nat n) results.
Proof.
  intros Hn. unfold SQLParser.applyLimit, ToBoolean, numCompare, Int, pow10.
  cbn [Z.of_nat Z.pow]. rewrite Z.mul_1_r.
  destruct (Z.compare_spec n (0 * 1)) as [H|H|H]; try lia.
  unfold SQLParser.slice0, SQLParser.sliceEnd, pow10. cbn [Z.of_nat Z.pow].
  rewrite Z.quot_1_r.
  destruct (Z.ltb_spec n 0); [lia|]. apply firstn_min_length.
Qed.

End LimitFacts.

(** C10 at a failing input.  The example table holds Ann with the id 1
    and Bo with the id 2, and has the index on [id] that the constructor
    builds.  [SELECT * FROM t WHERE id = 1 LIMIT 0] returns no record,
    although Ann matches the WHERE clause: [find] looks the operator
    mapping up in the index and finds nothing, before the limit is
    applied.  The limit is not what loses the row: without the WHERE clause
    LIMIT 0 returns both rows and LIMIT 1 the first of them, and on the
    same rows without the index the statement returns Ann. *)
Lemma C10_limit_zero_returns_no_matching_record :
  List.map (fun row => prop row "id") (Table.data (fst Demo.people))
  = [Demo.num 1; Demo.num 2]
  /\ keys (Table.indexes (fst Demo.people)) = ["id"]
  /\ SQLParser.parseSelect (rt := Demo.runtime)
       (SQLParser.tokenize "SELECT * FROM t WHERE id = 1 LIMIT 0") Demo.peopleDb
     = Return (SQLParser.ok "Found 0 record(s)" (SQLParser.Rows nil))
  /\ SQLParser.parseSelect (rt := Demo.runtime)
       (SQLParser.tokenize "SELECT * FROM t LIMIT 0") Demo.peopleDb
     = Return (SQLParser.ok "Found 2 record(s)"
                 (SQLParser.Rows
                    [[("name", VStr "Ann"); ("age", Demo.num 18); ("id", Demo.num 1)];
                     [("name", VStr "Bo"); ("age", Demo.num 30); ("id", Demo.num 2)]]))
  /\ SQLParser.parseSelect (rt := Demo.runtime)
       (SQLParser.tokenize "SELECT * FROM t LIMIT 1") Demo.peopleDb
     = Return (SQLParser.ok "Found 1 record(s)"
                 (SQLParser.Rows
                    [[("name", VStr "Ann"); ("age", Demo.num 18); ("id", Demo.num 1)]]))
  /\ SQLParser.parseSelect (rt := Demo.runtime)
       (SQLParser.tokenize "SELECT * FROM t WHERE id = 1 LIMIT 0")
       {| Database.name := "demo";
          Database.tables := [("t", Demo.peopleUnindexed)];
          Database.files := snd Demo.people |}
     = Return (SQLParser.ok "Found 1 record(s)"
                 (SQLParser.Rows
                    [[("name", VStr "Ann"); ("age", Demo.num 18); ("id", Demo.num 1)]])).
Proof. repeat split. Qed.

(* ================================================================== *)
(** * Auto-increment *)
(* ================================================================== *)

(** The column names of a normalized schema are distinct, and so are
    those of every table the constructor returns. *)
Lemma normalizeSchema_NoDup (schema : object) :
  NoDup (keys (Table.normalizeSchema schema)).
Proof.
  unfold Table.normalizeSchema.
  generalize (keys schema). intros columns.
  assert (H : NoDup (keys (@nil (string * Column.t)))) by constructor.
  revert H. generalize (@nil (string * Column.t)).
  induction columns as [|c rest IH]; intros acc Hacc; simpl; auto.
  apply IH. now apply NoDup_keys_set.
Qed.

Lemma load_schema tb fs : Table.schema (Table.load tb fs) = Table.schema tb.
Proof. unfold Table.load. now destruct (get fs _) as [[| |]|]. Qed.

Lemma loadIndexes_schema tb fs :
  Table.schema (Table.loadIndexes tb fs) = Table.schema tb.
Proof. unfold Table.loadIndexes. now destruct (get fs _) as [[| |]|]. Qed.

Lemma new_schema {rt : Runtime} name schema fs :
  Table.schema (fst (Table.new name schema fs)) = Table.normalizeSchema schema.
Proof.
  unfold Table.new. destruct (_ && _).
  - unfold Table.createIndex. destruct (negb _); simpl;
      now rewrite loadIndexes_schema, load_schema.
  - simpl. now rewrite loadIndexes_schema, load_schema.
Qed.

Lemma insert_keeps_schema {rt : Runtime} tb fs record :
  Table.schema (snd (fst (Table.insert tb fs record))) = Table.schema tb.
Proof.
  unfold Table.insert. destruct (Table.validateRecord tb record); reflexivity.
Qed.

Section AutoIncrementFacts.
Context {rt : Runtime}.

Lemma in_keys_unique (A : Type) (o : obj A) k (v v' : A) :
  NoDup (keys o) -> In (k, v) o -> In (k, v') o -> v = v'.
Proof.
  unfold keys. induction o as [|[k0 v0] r IH]; simpl; [tauto|].
  intros Hnd [H|H] [H'|H']; inversion Hnd; subst.
  - congruence.
  - inversion H; subst. exfalso. apply H2. now apply (in_map fst) in H'.
  - inversion H'; subst. exfalso. apply H2. now apply (in_map fst) in H.
  - auto.
Qed.

(** Validation adds no value for a column that it skips. *)
Lemma columnResult_skips record column c def result :
  has record column = false ->
  (c = column -> Column.autoIncrement def = true) ->
  has result column = false ->
  has (Spec.columnResult record c def result) column = false.
Proof.
  intros Hrec Hauto Hres. unfold Spec.columnResult.
  destruct (String.eqb c column) eqn:E.
  - apply String.eqb_eq in E. subst c. rewrite Hrec, Hauto; auto.
  - apply String.eqb_neq in E.
    repeat match goal with
           | |- context [if ?b then _ else _] => destruct b
           end; auto; rewrite has_set_other; auto.
Qed.

Lemma recordResult_skips record column columns : forall result,
  has record column = false ->
  (forall d, In (column, d) columns -> Column.autoIncrement d = true) ->
  has result column = false ->
  has (fold_left (fun result c => Spec.columnResult record (fst c) (snd c) result)
                 columns result) column = false.
Proof.
  induction columns as [|[c d] rest IH]; intros result Hrec Hall Hres; simpl; auto.
  apply IH; auto.
  - intros d' Hin. apply Hall. now right.
  - apply columnResult_skips; auto. intros ->. apply Hall. now left.
Qed.

Lemma autoIncrement_keeps tb column columns : forall validated,
  has validated column = true ->
  has (fold_left (Table.assignNext tb) columns validated) column = true
  /\ prop (fold_left (Table.assignNext tb) columns validated) column
     = prop validated column.
Proof.
  induction columns as [|[c d] rest IH]; intros validated Hhas; simpl; auto.
  unfold Table.assignNext at 2 4. cbn [fst snd].
  destruct (Column.autoIncrement d && negb (has validated c)) eqn:E; auto.
  assert (c <> column).
  { intros ->. rewrite Hhas in E. now rewrite andb_false_r in E. }
  destruct (IH (set validated c
                    (VNum (numAdd (Table.maxOf (Table.data tb) c) (Int 1)))))
    as [H1 H2].
  - rewrite has_set_other; auto.
  - split; auto. rewrite H2. apply prop_set_other; auto.
Qed.

Lemma autoIncrement_assigns tb column def columns : forall validated,
  In (column, def) columns ->
  (forall d, In (column, d) columns -> Column.autoIncrement d = true) ->
  has validated column = false ->
  prop (fold_left (Table.assignNext tb) columns validated) column
  = VNum (numAdd (Table.maxOf (Table.data tb) column) (Int 1)).
Proof.
  induction columns as [|[c d] rest IH]; intros validated Hin Hall Hhas;
    [contradiction|].
  simpl. unfold Table.assignNext at 2. cbn [fst snd].
  destruct (String.eqb c column) eqn:E.
  - apply String.eqb_eq in E. subst c.
    rewrite (Hall d (or_introl eq_refl)), Hhas. cbn [andb negb].
    destruct (autoIncrement_keeps tb column rest
                (set validated column
                     (VNum (numAdd (Table.maxOf (Table.data tb) column) (Int 1))))
                (has_set_same _ _ _ _)) as [_ ->].
    apply prop_set_same.
  - apply String.eqb_neq in E.
    destruct Hin as [Hin|Hin]; [congruence|].
    apply IH; auto.
    + intros d' H'. apply Hall. now right.
    + destruct (_ && _); auto. rewrite has_set_other; auto.
Qed.

(** C3, as the code has it.  In a table whose column names are distinct
    (they are in every table the constructor returns, see
    [normalizeSchema_NoDup]), consider an insert that succeeds and supplies
    no value for an auto-increment column, the column not being named like
    a member of [Object.prototype].  Let [m] be the maximum of 0 and the
    numbers that [row[column] || 0] gives for the rows present before (the
    maximum never goes below 0), and let it be an integer below 2^53, so
    that adding 1 is exact in the arithmetic of the source.  Then the
    stored record holds [m + 1] for the column, and it is appended to the
    rows. *)
Theorem C3_auto_increment_is_one_more_than_max_with_floor_zero
        (tb : Table.t) (fs : Files) (record : object)
        (column : string) (def : Column.t) (m : Z)
        (stored : object) (tb' : Table.t) (fs' : Files) :
  NoDup (keys (Table.schema tb)) ->
  In (column, def) (Table.schema tb) ->
  Column.autoIncrement def = true ->
  Spec.ordinaryName column = true ->
  has record column = false ->
  fold_left
    (fun max row =>
       numMax max
         (ToNumber (if ToBoolean (prop row column)
                    then prop row column else VNum (Int 0))))
    (Table.data tb) (Int 0)
  = Int m ->
  m < 9007199254740992 ->
  Table.insert tb fs record = (Return stored, tb', fs') ->
  Table.data tb' = (Table.data tb ++ [stored])%list
  /\ prop stored column = VNum (Int (m + 1)).
Proof.
  intros Hnd Hin Hauto _ Hrec Hmax _ Hins.
  assert (Hall : forall d, In (column, d) (Table.schema tb) ->
                           Column.autoIncrement d = true).
  { intros d Hd. now rewrite (in_keys_unique _ _ _ _ _ Hnd Hd Hin). }
  unfold Table.insert in Hins. rewrite validateRecord_spec in Hins.
  destruct (Spec.recordErrors tb record); [|discriminate Hins].
  inversion Hins; subst; clear Hins. split; [reflexivity|].
  unfold Table.autoIncrement.
  rewrite autoIncrement_assigns with (def := def); auto.
  - unfold Table.maxOf, Table.orElse. rewrite Hmax.
    unfold numAdd, Int, pow10. cbn [Nat.add normDec Z.of_nat].
    do 2 f_equal. lia.
  - unfold Spec.recordResult. apply recordResult_skips; auto.
Qed.

End AutoIncrementFacts.

(** Ann has the id 1 and Bo the id 2: the next record gets the id 3. *)
Lemma C3_witness :
  Table.data (snd (fst (Table.insert (rt := Demo.runtime)
                                     (fst Demo.people) (snd Demo.people)
                                     [("name", VStr "Cy")])))
  = (Table.data (fst Demo.people)
       ++ [[("name", VStr "Cy"); ("age", Demo.num 18); ("id", Demo.num 3)]])%list
  /\ prop [("name", VStr "Cy"); ("age", Demo.num 18); ("id", Demo.num 3)] "id"
     = Demo.num 3.
Proof.
  assert (E : Table.insert (rt := Demo.runtime)
                           (fst Demo.people) (snd Demo.people)
                           [("name", VStr "Cy")]
              = (Return [("name", VStr "Cy"); ("age", Demo.num 18);
                         ("id", Demo.num 3)],
                 snd (fst (Table.insert (rt := Demo.runtime)
                                        (fst Demo.people) (snd Demo.people)
                                        [("name", VStr "Cy")])),
                 snd (Table.insert (rt := Demo.runtime)
                                   (fst Demo.people) (snd Demo.people)
                                   [("name", VStr "Cy")])))
    by (vm_compute; reflexivity).
  exact (@C3_auto_increment_is_one_more_than_max_with_floor_zero
           Demo.runtime (fst Demo.people) (snd Demo.people)
           [("name", VStr "Cy")] "id"
           {| Column.type := VStr "number"; Column.required := true;
              Column.primaryKey := true; Column.unique := true;
              Column.autoIncrement := true; Column.defaultValue := VUndefined;
              Column.foreignKey := VNull |}
           2 _ _ _
           ltac:(repeat constructor; simpl; intuition discriminate)
           (or_introl eq_refl) eq_refl eq_refl eq_refl eq_refl eq_refl E).
Defined.

(** C3 as stated fails: the only id present is -5, so one more than the
    maximum of the present ids is -4; the record inserted next gets 1. *)
Lemma C3_counterexample :
  List.map (fun row => prop row "id") (Table.data (fst Demo.negativeIds))
  = [Demo.num (-5)]
  /\ exists stored tb' fs',
       Table.insert (rt := Demo.runtime) (fst Demo.negativeIds)
                    (snd Demo.negativeIds) [("name", VStr "Bo")]
       = (Return stored, tb', fs')
       /\ prop stored "id" = Demo.num 1
       /\ prop stored "id" <> Demo.num (1 + -5).
Proof.
  split; [reflexivity|].
  do 3 eexists. split; [vm_compute; reflexivity|].
  split; [reflexivity|discriminate].
Qed.

(** The quirk the specification points at: once the row with the largest
    id is deleted, that id is given out again. *)
Example freed_maximum_is_reissued :
  let '(_, tb, fs) :=
    Table.delete (rt := Demo.runtime) (fst Demo.people) (snd Demo.people)
                 [("id", Demo.num 2)] in
  List.map (fun row => prop row "id") (Table.data tb) = [Demo.num 1]
  /\ exists stored tb' fs',
       Table.insert (rt := Demo.runtime) tb fs [("name", VStr "Cy")]
       = (Return stored, tb', fs')
       /\ prop stored "id" = Demo.num 2.
Proof.
  vm_compute. split; [reflexivity|]. do 3 eexists. split; reflexivity.
Qed.

(* ================================================================== *)
(** * Where the code departs from the specification *)
(* ================================================================== *)

Section IndexFacts.
Context {rt : Runtime}.

Lemma get_map_entries (A B : Type) (f : string -> A -> B) (o : obj A) k :
  get (List.map (fun ci => (fst ci, f (fst ci) (snd ci))) o) k
  = match get o k with
    | Some v => Some (f k v)
    | None => None
    end.
Proof.
  induction o as [|[k' v'] r IH]; simpl; [reflexivity|].
  destruct (String.eqb k' k) eqn:E; [|exact IH].
  apply String.eqb_eq in E. now subst.
Qed.

(** Appending a row and listing it keeps an index in agreement with the
    rows. *)
Lemma indexAdd_agrees rows column ix row :
  Spec.agrees rows column ix ->
  Spec.agrees (rows ++ [row]) column
              (Table.indexAdd ix (prop row column) (List.length rows)).
Proof.
  intros [Hlisted Hfresh].
  assert (Hold : forall p r, nth_error rows p = Some r ->
                             nth_error (rows ++ [row]) p = Some r).
  { intros p r Hp. rewrite nth_error_app1; auto.
    apply nth_error_Some. congruence. }
  assert (Hsplit : forall i r, nth_error (rows ++ [row]) i = Some r ->
                               nth_error rows i = Some r
                               \/ (i = List.length rows /\ r = row)).
  { intros i r Hi. destruct (Nat.lt_ge_cases i (List.length rows)) as [Hlt|Hge].
    - left. now rewrite nth_error_app1 in Hi.
    - right. rewrite nth_error_app2 in Hi by assumption.
      destruct (i - List.length rows)%nat as [|j] eqn:E; simpl in Hi.
      + inversion Hi. split; [lia|reflexivity].
      + destruct j; discriminate. }
  assert (Hnew : nth_error (rows ++ [row]) (List.length rows) = Some row).
  { rewrite nth_error_app2, Nat.sub_diag by lia. reflexivity. }
  unfold Table.indexAdd. destruct (isUndefined (prop row column)) eqn:Hundef.
  - split.
    + intros i r Hi Hdef. destruct (Hsplit i r Hi) as [Hi'|[_ ->]];
        [eauto|congruence].
    + intros key b p Hget Hin.
      destruct (Hfresh key b p Hget Hin) as (r & Hp & Hdef & Hkey). eauto.
  - set (key := ToString (prop row column)).
    set (bucket := match get ix key with Some b => b | None => nil end).
    split.
    + intros i r Hi Hdef. destruct (Hsplit i r Hi) as [Hi'|[-> ->]].
      * destruct (Hlisted i r Hi' Hdef) as (b & Hb & Hin).
        destruct (string_dec (ToString (prop r column)) key) as [Heq|Hne].
        -- rewrite Heq, get_set_same. eexists. split; [reflexivity|].
           unfold push, bucket. rewrite Heq in Hb. rewrite Hb.
           apply in_or_app. now left.
        -- rewrite get_set_other by assumption. eauto.
      * fold key. rewrite get_set_same. eexists. split; [reflexivity|].
        unfold push. apply in_or_app. right. now left.
    + intros k b p Hget Hin. destruct (string_dec k key) as [->|Hne].
      * rewrite get_set_same in Hget. inversion Hget; subst b; clear Hget.
        unfold push in Hin. apply in_app_or in Hin. destruct Hin as [Hin|[<-|[]]].
        -- unfold bucket in Hin. destruct (get ix key) as [b|] eqn:Hb; [|contradiction].
           destruct (Hfresh key b p Hb Hin) as (r & Hp & Hdef & Hkey). eauto.
        -- exists row. auto.
      * rewrite get_set_other in Hget by assumption.
        destruct (Hfresh k b p Hget Hin) as (r & Hp & Hdef & Hkey). eauto.
Qed.

(** The part of the index/data consistency property that the code keeps:
    an insert that succeeds on a consistent table leaves it consistent. *)
Lemma insert_preserves_consistency tb fs record stored tb' fs' :
  Spec.Consistent tb ->
  Table.insert tb fs record = (Return stored, tb', fs') ->
  Spec.Consistent tb'.
Proof.
  intros Hc. unfold Table.insert.
  destruct (Table.validateRecord tb record) as [validated| |]; try discriminate.
  intros H. inversion H; subst; clear H.
  intros column ix. simpl.
  rewrite get_map_entries
    with (f := fun c ix0 =>
                 Table.indexAdd ix0 (prop (Table.autoIncrement tb validated) c)
                                (List.length (Table.data tb))).
  destruct (get (Table.indexes tb) column) as [ix0|] eqn:E; [|discriminate].
  intros Hix. inversion Hix; subst; clear Hix.
  unfold push. apply indexAdd_agrees. now apply Hc.
Qed.

End IndexFacts.

Section DefectFacts.
Context {rt : Runtime}.

(** What [delete] leaves in the indexes: every index is the one rebuilt
    from the rows as they were before the removal. *)
Lemma delete_rebuilds_from_old_rows tb fs conditions n tb' fs' :
  Table.delete tb fs conditions = (Return n, tb', fs') ->
  forall col ix,
    get (Table.indexes tb) col = Some ix ->
    get (Table.indexes tb') col = Some (Table.buildIndex (Table.data tb) col).
Proof.
  unfold Table.delete.
  destruct (Table.find tb conditions) as [toDelete| |]; try discriminate.
  set (indices := Table.sortDescending (Table.positionsOf tb toDelete)).
  set (step := fun (tb' : Table.t) (col : string) =>
                 Table.rebuildIndex
                   (Table.withIndexes tb'
                      (set (Table.indexes tb') col
                           (fold_left
                              (fun ix idx =>
                                 Table.indexRemove ix
                                   (prop (Table.rowAt tb' idx) col) idx)
                              indices
                              match get (Table.indexes tb') col with
                              | Some ix => ix
                              | None => nil
                              end)))
                   col).
  intros H. inversion H; subst; clear H. simpl.
  assert (Hfold : forall cols t0,
             Table.data (fold_left step cols t0) = Table.data t0
             /\ forall col,
                  get (Table.indexes (fold_left step cols t0)) col
                  = if in_dec string_dec col cols
                    then Some (Table.buildIndex (Table.data t0) col)
                    else get (Table.indexes t0) col).
  { induction cols as [|c rest IH]; intros t0; simpl; [auto|].
    destruct (IH (step t0 c)) as [Hd Hg]. split; [now rewrite Hd|].
    intros col. rewrite Hg. change (Table.data (step t0 c)) with (Table.data t0).
    destruct (in_dec string_dec col rest) as [Hin|Hin].
    - destruct (string_dec c col); reflexivity.
    - unfold step, Table.rebuildIndex. simpl.
      destruct (string_dec c col) as [->|Hne].
      + now rewrite get_set_same.
      + rewrite !get_set_other by congruence. reflexivity. }
  intros col ix Hix. destruct (Hfold (keys (Table.indexes tb)) tb) as [_ Hg].
  rewrite Hg. destruct (in_dec string_dec col (keys (Table.indexes tb))) as [|Hn];
    [reflexivity|].
  exfalso. apply Hn. eapply get_present; eauto.
Qed.

(** A condition that is an operator mapping finds nothing on a column that
    has an index, unless "[object Object]" is a key of that index. *)
Lemma operator_condition_is_looked_up tb col ops ix :
  get (Table.indexes tb) col = Some ix ->
  get ix "[object Object]" = None ->
  Table.find tb [(col, VObj ops)] = Return nil.
Proof.
  intros Hix Hkey. rewrite find_indexed with (ix := ix) by exact Hix.
  simpl. now rewrite Hkey.
Qed.

(** A unique column without an index never records a duplicate. *)
Lemma unique_without_index_is_unchecked tb record column def :
  get (Table.indexes tb) column = None ->
  ~ In ("Duplicate value for unique column '" ++ column ++ "'")
       (Spec.columnErrors tb record column def).
Proof.
  intros Hix. unfold Spec.columnErrors, Spec.duplicate. rewrite Hix.
  rewrite andb_false_r.
  repeat match goal with
         | |- context [if ?b then _ else _] => destruct b
         end; simpl; try tauto.
  - intros [H|[]]. apply (f_equal (fun s => String.get 0 s)) in H.
    discriminate H.
  - intros [H|[]]. apply (f_equal (fun s => String.get 0 s)) in H.
    discriminate H.
Qed.

End DefectFacts.

(** Whatever a run of inserts does, it keeps a consistent table
    consistent: a failed insert leaves the table as it was. *)
Lemma inserts_Consistent records : forall st,
  Spec.Consistent (rt := Demo.runtime) (fst st) ->
  Spec.Consistent (rt := Demo.runtime) (fst (Demo.inserts st records)).
Proof.
  unfold Demo.inserts.
  induction records as [|r rest IH]; intros st Hc; simpl; [exact Hc|].
  apply IH.
  destruct (Table.insert (rt := Demo.runtime) (fst st) (snd st) r)
    as [[[stored| |] tb] fs] eqn:E; simpl.
  - eapply insert_preserves_consistency; eauto.
  - unfold Table.insert in E.
    destruct (Table.validateRecord (fst st) r); inversion E; subst; exact Hc.
  - unfold Table.insert in E.
    destruct (Table.validateRecord (fst st) r); inversion E; subst; exact Hc.
Qed.

(** The table of the worked example is consistent: it is an empty table
    after two inserts. *)
Lemma people_Consistent : Spec.Consistent (rt := Demo.runtime) (fst Demo.people).
Proof.
  apply inserts_Consistent.
  intros column ix.
  change (Table.indexes (fst Demo.noPeople))
    with [("id", @nil (string * list nat))].
  change (Table.data (fst Demo.noPeople)) with (@nil object).
  intros H. destruct (string_dec column "id") as [->|Hne].
  2: { rewrite get_absent in H; [discriminate H|]. simpl. intuition congruence. }
  inversion H; subst. split.
  - intros [|i] row Hi; discriminate Hi.
  - intros key b p Hget. discriminate Hget.
Qed.

(** C1 at a failing input.  [delete] rebuilds every index from the rows
    before it removes the deleted ones.  After Ann (id 1) is deleted, Bo is
    the row 0, but the index still lists id 1 at position 0 and id 2 at
    position 1; a lookup of id 2 then reads past the end of the rows and
    returns an empty record.  Before the delete the index was consistent. *)
Lemma C1_delete_leaves_stale_index :
  Spec.Consistent (rt := Demo.runtime) (fst Demo.people)
  /\ Spec.consistent (rt := Demo.runtime) (fst Demo.people) = true
  /\ exists tb fs,
       Table.delete (rt := Demo.runtime) (fst Demo.people) (snd Demo.people)
                    [("id", Demo.num 1)] = (Return 1%nat, tb, fs)
       /\ Table.data tb
          = [[("name", VStr "Bo"); ("age", Demo.num 30); ("id", Demo.num 2)]]
       /\ Table.indexes tb = [("id", [("1", [0%nat]); ("2", [1%nat])])]
       /\ Spec.consistent (rt := Demo.runtime) tb = false
       /\ ~ Spec.Consistent (rt := Demo.runtime) tb
       /\ Table.find (rt := Demo.runtime) tb [("id", Demo.num 2)] = Return [nil].
Proof.
  split; [exact people_Consistent|]. split; [reflexivity|]. do 2 eexists.
  split; [vm_compute; reflexivity|].
  split; [reflexivity|]. split; [reflexivity|]. split; [reflexivity|].
  split; [|reflexivity].
  intros Hc. destruct (Hc "id" _ eq_refl) as [_ Hfresh].
  destruct (Hfresh "2" [1%nat] 1%nat eq_refl (or_introl eq_refl))
    as (row & Hrow & _).
  discriminate Hrow.
Qed.

(** The incremental maintenance of [insert] does keep the index of the
    example consistent. *)
Example insert_keeps_example_consistent :
  let '(_, tb, _) :=
    Table.insert (rt := Demo.runtime) (fst Demo.people) (snd Demo.people)
                 [("name", VStr "Cy")] in
  Spec.consistent (rt := Demo.runtime) tb = true.
Proof. reflexivity. Qed.

(** C2 at a failing input, the one [index.js] tries under "Testing
    constraints": [username] is unique, but only [id] and [age] have an
    index, so the uniqueness check is skipped and a second alice is stored
    (with the id 4). *)
Lemma C2_duplicate_username_is_stored :
  exists stored tb fs,
    Table.insert (rt := Demo.runtime) (fst Demo.users) (snd Demo.users) Demo.alice2
    = (Return stored, tb, fs)
    /\ prop stored "id" = Demo.num 4
    /\ List.map (fun row => prop row "username") (Table.data tb)
       = [VStr "alice"; VStr "bob"; VStr "charlie"; VStr "alice"]
    /\ Spec.uniqueColumn tb "username" = false
    /\ keys (Table.indexes tb) = ["id"; "age"]
    /\ (exists def, get (Table.schema tb) "username" = Some def
                    /\ Column.unique def = true).
Proof.
  do 3 eexists. split; [vm_compute; reflexivity|].
  split; [reflexivity|]. split; [reflexivity|]. split; [reflexivity|].
  split; [reflexivity|]. eexists. split; reflexivity.
Qed.

(** The primary key itself is not protected on insert either: the check
    compares the primary key of the row found with the one of the record
    being inserted, and these are equal exactly when the key is taken. *)
Example duplicate_primary_key_is_stored :
  exists stored tb fs,
    Table.insert (rt := Demo.runtime) (fst Demo.people) (snd Demo.people)
                 [("id", Demo.num 1); ("name", VStr "Cy")]
    = (Return stored, tb, fs)
    /\ List.map (fun row => prop row "id") (Table.data tb)
       = [Demo.num 1; Demo.num 2; Demo.num 1]
    /\ Spec.uniqueColumn tb "id" = false.
Proof.
  do 3 eexists. split; [vm_compute; reflexivity|]. split; reflexivity.
Qed.

(** C4 at a failing input.  The condition [{id: {'=': 1}}] has one key and
    [id] has an index, so [find] looks the operator mapping up in the index
    (under the key "[object Object]") and returns nothing; the same rows
    without the index are scanned and Ann is found. *)
Lemma C4_operator_condition_on_indexed_column_finds_nothing :
  Table.data Demo.peopleUnindexed = Table.data (fst Demo.people)
  /\ Table.find (rt := Demo.runtime) Demo.peopleUnindexed
                [("id", VObj [("=", Demo.num 1)])]
     = Return [[("name", VStr "Ann"); ("age", Demo.num 18); ("id", Demo.num 1)]]
  /\ Table.find (rt := Demo.runtime) (fst Demo.people)
                [("id", VObj [("=", Demo.num 1)])]
     = Return nil.
Proof. repeat split. Qed.

(** This is the shape every WHERE clause has: the SELECT by id of the
    example finds no row. *)
Example select_by_primary_key_finds_nothing :
  exists env,
    SQLParser.parseSelect (rt := Demo.runtime)
      (SQLParser.tokenize "SELECT * FROM t WHERE id = 1") Demo.peopleDb
    = Return env
    /\ SQLParser.data env = SQLParser.Rows nil.
Proof. eexists. split; reflexivity. Qed.

(** C6 at a failing input.  The patch sets the primary key of every row to
    2, the key Bo already has.  The index entries of all target rows,
    Bo's included, are removed before the check, so no collision is seen:
    the update returns 2 and both rows end with the id 2. *)
Lemma C6_colliding_primary_key_is_written :
  List.map (fun row => prop row "id") (Table.data (fst Demo.people))
  = [Demo.num 1; Demo.num 2]
  /\ exists tb fs,
       Table.update (rt := Demo.runtime) (fst Demo.people) (snd Demo.people)
                    nil [("id", Demo.num 2)] = (Return 2%nat, tb, fs)
       /\ List.map (fun row => prop row "id") (Table.data tb)
          = [Demo.num 2; Demo.num 2].
Proof.
  split; [reflexivity|]. do 2 eexists. split; [vm_compute; reflexivity|].
  reflexivity.
Qed.

(** When the row that holds the key is not a target, the collision is
    seen before anything is written; the index entries of the target row
    are lost all the same. *)
Example collision_with_another_row_is_rejected :
  exists tb,
    Table.update (rt := Demo.runtime) (fst Demo.people) (snd Demo.people)
                 [("id", Demo.num 1)] [("id", Demo.num 2)]
    = (Throw "Duplicate primary key value", tb, snd Demo.people)
    /\ Table.data tb = Table.data (fst Demo.people)
    /\ Table.indexes tb = [("id", [("1", nil); ("2", [1%nat])])].
Proof. eexists. split; [vm_compute; reflexivity|]. split; reflexivity. Qed.

(* ================================================================== *)
(** * Persistence *)
(* ================================================================== *)

Section StringFacts.

Lemma length_append (a b : string) :
  String.length (a ++ b) = (String.length a + String.length b)%nat.
Proof. induction a; simpl; auto. Qed.

Lemma append_inv_head (a b c : string) : a ++ b = a ++ c -> b = c.
Proof. induction a; simpl; intros H; auto. inversion H; auto. Qed.

Lemma dropPrefix_length (pat : string) : forall s rest,
  Str.dropPrefix pat s = Some rest ->
  String.length s = (String.length pat + String.length rest)%nat.
Proof.
  induction pat as [|c p IH]; simpl; intros s rest H.
  - now inversion H.
  - destruct s as [|d r]; [discriminate|].
    destruct (Ascii.eqb c d); [|discriminate].
    simpl. f_equal. now apply IH.
Qed.

(** Removing one occurrence of [pat] shortens a string by at most the
    length of [pat]. *)
Lemma replaceFirst_length (pat s : string) :
  (String.length s
   <= String.length (Str.replaceFirst pat "" s) + String.length pat)%nat.
Proof.
  induction s as [|c r IH].
  - simpl. destruct (Str.dropPrefix pat "") eqn:E; simpl; lia.
  - cbn [Str.replaceFirst].
    destruct (Str.dropPrefix pat (String c r)) eqn:E.
    + apply dropPrefix_length in E. simpl in *. lia.
    + simpl in *. lia.
Qed.

Lemma replaceFirst_extension (name : string) :
  ~ In "."%char (Str.chars name) ->
  Str.replaceFirst ".json" "" (name ++ ".json") = name.
Proof.
  induction name as [|c r IH]; intros Hdot; [reflexivity|].
  unfold Str.chars in *. simpl in Hdot.
  cbn [append Str.replaceFirst Str.dropPrefix].
  destruct (Ascii.eqb "." c) eqn:E.
  - apply Ascii.eqb_eq in E. exfalso. apply Hdot. now left.
  - f_equal. apply IH. intros H. apply Hdot. now right.
Qed.

Lemma append_assoc (a b c : string) : (a ++ b) ++ c = a ++ (b ++ c).
Proof. induction a; simpl; [reflexivity|now rewrite IHa]. Qed.

(** Two strings that end in suffixes of one length are equal only if the
    suffixes are. *)
Lemma append_same_length (a : string) : forall b s t,
  String.length s = String.length t -> a ++ s = b ++ t -> a = b /\ s = t.
Proof.
  induction a as [|c a IH]; intros [|d b] s t Hlen H; simpl in H.
  - auto.
  - exfalso. apply (f_equal String.length) in H. simpl in H.
    rewrite length_append in H. lia.
  - exfalso. apply (f_equal String.length) in H. simpl in H.
    rewrite length_append in H. lia.
  - inversion H; subst. destruct (IH b s t Hlen H2) as [-> ->]. auto.
Qed.

(** No index file is a schema file, and an index file is a data file only
    for a table whose name ends in [_index]. *)
Lemma index_file_not_schema (T U : string) :
  T ++ "_index.json" <> U ++ "_schema.json".
Proof.
  intros H.
  change (U ++ "_schema.json") with (U ++ ("_" ++ "schema.json")) in H.
  rewrite <- append_assoc in H.
  apply append_same_length in H; [|reflexivity].
  destruct H as [_ H]. discriminate H.
Qed.

Lemma index_file_is_data (T name : string) :
  T ++ "_index.json" = name ++ ".json" -> name = T ++ "_index".
Proof.
  intros H.
  change (T ++ "_index.json") with (T ++ ("_index" ++ ".json")) in H.
  rewrite <- append_assoc in H.
  apply append_same_length in H; [|reflexivity].
  now destruct H as [-> _].
Qed.

Lemma endsWith_append (name p : string) : Str.endsWith (name ++ p) p = true.
Proof.
  induction name as [|c r IH]; simpl.
  - destruct p; simpl; rewrite ?Ascii.eqb_refl, ?String.eqb_refl; reflexivity.
  - rewrite IH. apply orb_true_r.
Qed.

End StringFacts.

Section TableFiles.
Context {rt : Runtime}.
Variable name : string.

Lemma index_not_data : Spec.indexFile name <> Spec.dataFile name.
Proof. intros H. apply append_inv_head in H. discriminate. Qed.

Lemma schema_not_data : Spec.schemaFile name <> Spec.dataFile name.
Proof. intros H. apply append_inv_head in H. discriminate. Qed.

Lemma schema_not_index : Spec.schemaFile name <> Spec.indexFile name.
Proof. intros H. apply append_inv_head in H. discriminate. Qed.

(** What the constructor leaves: the table reads its rows from the data
    file, and at most the index file is written. *)
Lemma new_spec schema fs :
  Spec.paths name (fst (Table.new name schema fs))
  /\ Table.data (fst (Table.new name schema fs))
     = match get fs (Spec.dataFile name) with
       | Some (JsonRows rows) => rows
       | _ => nil
       end
  /\ (snd (Table.new name schema fs) = fs
      \/ exists ix,
          snd (Table.new name schema fs)
          = set fs (Spec.indexFile name) (JsonIndexes ix)).
Proof.
  unfold Table.new, Spec.paths.
  set (sch := Table.normalizeSchema schema).
  set (tb0 := {| Table.name := name; Table.schema := sch;
                 Table.filePath := name ++ ".json";
                 Table.indexPath := name ++ "_index.json";
                 Table.data := nil; Table.indexes := nil;
                 Table.primaryKey := Table.findPrimaryKey sch |}).
  assert (Hload : Table.filePath (Table.load tb0 fs) = Spec.dataFile name
                  /\ Table.indexPath (Table.load tb0 fs) = Spec.indexFile name
                  /\ Table.data (Table.load tb0 fs)
                     = match get fs (Spec.dataFile name) with
                       | Some (JsonRows rows) => rows
                       | _ => nil
                       end).
  { unfold Table.load. change (Table.filePath tb0) with (Spec.dataFile name).
    destruct (get fs (Spec.dataFile name)) as [[rows|ix|s]|]; simpl; auto. }
  destruct Hload as (Hf & Hi & Hd).
  set (tb1 := Table.load tb0 fs) in *.
  assert (Hix : Table.filePath (Table.loadIndexes tb1 fs) = Spec.dataFile name
                /\ Table.indexPath (Table.loadIndexes tb1 fs) = Spec.indexFile name
                /\ Table.data (Table.loadIndexes tb1 fs) = Table.data tb1).
  { unfold Table.loadIndexes.
    destruct (get fs (Table.indexPath tb1)) as [[rows|ix|s]|]; simpl; auto. }
  destruct Hix as (Hf' & Hi' & Hd').
  set (tb2 := Table.loadIndexes tb1 fs) in *.
  destruct (Table.hasPrimaryKey tb2 && negb (has (Table.indexes tb2) _)); simpl.
  - unfold Table.createIndex.
    destruct (negb (has (Table.schema tb2) (Table.primaryKeyName tb2))); simpl.
    + rewrite Hf', Hi', Hd', Hd. auto.
    + rewrite Hf', Hi', Hd', Hd. repeat split; auto.
      right. unfold Table.saveIndexes. simpl. rewrite Hi'. eauto.
  - rewrite Hf', Hi', Hd', Hd. auto.
Qed.

End TableFiles.

Section RoundTrip.
Context {rt : Runtime}.
Variable name : string.

(** A successful insert rewrites the data file with the rows it leaves. *)
Lemma insert_holds tb fs record stored tb' fs' :
  Spec.paths name tb -> (exists s, get fs (Spec.schemaFile name) = Some s) ->
  Table.insert tb fs record = (Return stored, tb', fs') ->
  Spec.paths name tb' /\ Spec.holds name (List.map reparseObject (Table.data tb')) fs'.
Proof.
  intros [Hf Hi] [s Hs]. unfold Table.insert.
  destruct (Table.validateRecord tb record); try discriminate.
  intros H. inversion H; subst; clear H. simpl. split; [split; assumption|].
  unfold Table.saveIndexes, Table.save. simpl. rewrite Hf, Hi. split.
  - exists s. rewrite !get_set_other; auto.
    + apply schema_not_data.
    + apply schema_not_index.
  - rewrite get_set_other by (apply not_eq_sym; apply index_not_data).
    apply get_set_same.
Qed.

Lemma insertAll_holds records : forall tb fs tb' fs',
  Spec.paths name tb -> (exists s, get fs (Spec.schemaFile name) = Some s) ->
  records <> nil ->
  Spec.insertAll tb fs records = Some (tb', fs') ->
  Spec.paths name tb' /\ Spec.holds name (List.map reparseObject (Table.data tb')) fs'.
Proof.
  induction records as [|r rest IH]; intros tb fs tb' fs' Hp Hs Hne Hall;
    [contradiction|].
  simpl in Hall.
  destruct (Table.insert tb fs r) as [[[stored| |] tb1] fs1] eqn:E;
    try discriminate.
  destruct (insert_holds _ _ _ _ _ _ Hp Hs E) as [Hp1 Hh1].
  destruct rest as [|r' rest'].
  - simpl in Hall. inversion Hall; subst. auto.
  - apply (IH tb1 fs1); auto. apply Hh1. discriminate.
Qed.

(** The table [createTable] returns has the paths of its name, and its
    schema is on file. *)
Lemma createTable_holds db schema tb0 db0 :
  Database.createTable db name schema = (Return tb0, db0) ->
  Spec.paths name tb0
  /\ exists s, get (Database.files db0) (Spec.schemaFile name) = Some s.
Proof.
  unfold Database.createTable.
  destruct (has (Database.tables db) name); [discriminate|].
  set (fs := set (Database.files db) (name ++ "_schema.json")
                 (JsonSchema (reparseObject schema))).
  destruct (new_spec name schema fs) as (Hp & _ & Hfs).
  destruct (Table.new name schema fs) as [tb fs'] eqn:E. simpl in *.
  intros H. inversion H; subst; clear H. simpl. split; auto.
  exists (JsonSchema (reparseObject schema)).
  destruct Hfs as [->|[ix ->]].
  - apply get_set_same.
  - rewrite get_set_other by apply schema_not_index. apply get_set_same.
Qed.

(** ** Loading *)

Section Reload.
Variable fs : Files.
Variable rows : list object.

Hypothesis plainName : Str.replaceFirst ".json" "" (name ++ ".json") = name.
Hypothesis onFile : Spec.holds name rows fs.
Hypothesis apart : Spec.reloadsAsEmbedded name fs = true.

Lemma loadTable_step db f :
  In f (keys fs) -> Spec.reloading name fs rows db ->
  Spec.reloading name fs rows (Database.loadTable db f)
  /\ (f = Spec.dataFile name -> Spec.loaded name rows (Database.loadTable db f))
  /\ (Spec.loaded name rows db -> Spec.loaded name rows (Database.loadTable db f)).
Proof.
  intros Hin [Hsch Hdata].
  assert (Hown : f = Spec.dataFile name ->
                 Str.endsWith f ".json" = true
                 /\ Str.replaceFirst ".json" "" f = name).
  { intros ->. unfold Spec.dataFile. now rewrite endsWith_append, plainName. }
  unfold Spec.reloadsAsEmbedded in apart.
  rewrite forallb_forall in apart. specialize (apart f Hin).
  unfold Database.loadTable.
  destruct (Str.endsWith f ".json") eqn:Eends.
  2:{ split; [split; assumption|]. split; auto.
      intros Hf. destruct (Hown Hf). discriminate. }
  set (T := Str.replaceFirst ".json" "" f) in *.
  unfold Spec.schemaFile in apart. rewrite Hsch.
  destruct (get fs (T ++ "_schema.json")) as [sf|] eqn:Esf.
  2:{ split; [split; assumption|]. split; auto.
      intros Hf. destruct (Hown Hf) as [_ HT]. fold T in HT. subst T.
      rewrite HT in Esf. destruct onFile as [[s Hs] _].
      unfold Spec.schemaFile in Hs. congruence. }
  assert (Hkeep : name <> T ++ "_index").
  { apply andb_true_iff in apart. destruct apart as [H _].
    apply andb_true_iff in H. destruct H as [_ H].
    apply negb_true_iff in H. now apply String.eqb_neq. }
  clear apart.
  destruct (new_spec T (Table.enumerable (Database.parsed sf)) (Database.files db))
    as (_ & Hd & Hfs).
  destruct (Table.new T _ (Database.files db)) as [tb fs1].
  cbn [fst snd] in Hd, Hfs. cbn [Database.files Database.tables].
  assert (Hinv : Spec.reloading name fs rows {| Database.name := Database.name db;
                              Database.tables := set (Database.tables db) T tb;
                              Database.files := fs1 |}).
  { unfold Spec.reloading. cbn [Database.files].
    destruct Hfs as [->|[ix ->]]; [split; assumption|]. split.
    - intros U. rewrite get_set_other; auto.
      unfold Spec.indexFile. apply not_eq_sym. apply index_file_not_schema.
    - rewrite get_set_other; auto.
      intros H. symmetry in H. now apply index_file_is_data in H. }
  split; [exact Hinv|].
  assert (Hname : T = name -> Spec.loaded name rows
                    {| Database.name := Database.name db;
                       Database.tables := set (Database.tables db) T tb;
                       Database.files := fs1 |}).
  { intros HT. exists tb. cbn [Database.tables]. rewrite HT at 1.
    rewrite get_set_same. split; [reflexivity|].
    rewrite Hd, HT. fold (Spec.dataFile name). now rewrite Hdata. }
  split.
  - intros Hf. apply Hname. now destruct (Hown Hf).
  - intros (tb' & Hget & Hrows).
    destruct (String.eqb T name) eqn:E.
    + apply Hname. now apply String.eqb_eq.
    + apply String.eqb_neq in E. exists tb'. cbn [Database.tables].
      rewrite get_set_other; auto.
Qed.

Lemma loadTables_fold files : forall db,
  (forall f, In f files -> In f (keys fs)) -> Spec.reloading name fs rows db ->
  In (Spec.dataFile name) files \/ Spec.loaded name rows db ->
  Spec.loaded name rows (fold_left Database.loadTable files db).
Proof.
  induction files as [|f rest IH]; intros db Hincl Hinv Hl; simpl.
  - destruct Hl as [[]|Hl]. exact Hl.
  - destruct (loadTable_step db f (Hincl f (or_introl eq_refl)) Hinv)
      as (Hinv' & Hnew & Hold).
    apply IH; auto.
    + intros g Hg. apply Hincl. now right.
    + destruct Hl as [[->|Hin]|Hl]; auto.
Qed.

(** Reloading the directory yields the table with exactly the rows of its
    data file. *)
Lemma reload_holds dbName : Spec.loaded name rows (Database.new dbName fs).
Proof.
  unfold Database.new, Database.loadTables. cbn [Database.files].
  apply loadTables_fold.
  - auto.
  - split; [reflexivity|]. apply onFile.
  - left. destruct onFile as [_ Hdata]. now apply get_present in Hdata.
Qed.

End Reload.

End RoundTrip.

Section RoundTripTheorem.
Context {rt : Runtime}.

Lemma findAll_data tb : Table.findAll tb = Table.data tb.
Proof. unfold Table.findAll. simpl. apply map_id. Qed.


End RoundTripTheorem.



(* ================================================================== *)
(** * More facts about objects *)
(* ================================================================== *)

Section MoreObjFacts.
Variable A : Type.
Implicit Types (o : obj A) (k : string) (v : A).

Lemma has_false_not_in o k : has o k = false -> ~ In k (keys o).
Proof.
  intros H Hin. apply in_keys_has in Hin. congruence.
Qed.

Lemma replace_same o k v : get o k = Some v -> replace o k v = o.
Proof.
  induction o as [|[k' v'] r IH]; simpl; [reflexivity|].
  destruct (String.eqb k' k); intros H.
  - congruence.
  - now rewrite IH.
Qed.

Lemma set_same o k v : get o k = Some v -> set o k v = o.
Proof.
  intros H. unfold set, has. rewrite H. now apply replace_same.
Qed.

Lemma get_remove_same o k : get (Database.remove o k) k = None.
Proof.
  induction o as [|[k' v'] r IH]; simpl; [reflexivity|].
  destruct (String.eqb k' k) eqn:E; simpl; [assumption|].
  now rewrite E.
Qed.

Lemma get_remove_other o k k' :
  k' <> k -> get (Database.remove o k) k' = get o k'.
Proof.
  intros Hne. induction o as [|[k0 v0] r IH]; simpl; [reflexivity|].
  destruct (String.eqb k0 k) eqn:E; simpl.
  - apply String.eqb_eq in E. subst k0.
    destruct (String.eqb k k') eqn:E'; [|assumption].
    apply String.eqb_eq in E'. congruence.
  - now rewrite IH.
Qed.

Lemma remove_absent o k : ~ In k (keys o) -> Database.remove o k = o.
Proof.
  induction o as [|[k' v'] r IH]; simpl; [reflexivity|].
  intros H. destruct (String.eqb k' k) eqn:E; simpl.
  - apply String.eqb_eq in E. tauto.
  - rewrite IH; tauto.
Qed.

Lemma remove_insertIndexKey o i k v :
  ~ In k (keys o) -> Database.remove (insertIndexKey o i k v) k = o.
Proof.
  induction o as [|[k' v'] r IH]; simpl; intros H.
  - now rewrite String.eqb_refl.
  - assert (Hk : String.eqb k' k = false) by (apply String.eqb_neq; tauto).
    assert (Hhere : Database.remove ((k, v) :: (k', v') :: r) k = (k', v') :: r).
    { simpl. rewrite String.eqb_refl, Hk. simpl.
      fold (Database.remove r k). rewrite remove_absent; tauto. }
    destruct (arrayIndex k') as [j|]; [|exact Hhere].
    destruct (j <? i); [|exact Hhere].
    simpl. rewrite Hk. simpl. fold (Database.remove (insertIndexKey r i k v) k).
    rewrite IH; tauto.
Qed.

Lemma remove_set_absent o k v :
  has o k = false -> Database.remove (set o k v) k = o.
Proof.
  intros H. pose proof (has_false_not_in _ _ H) as Hnot.
  unfold set. rewrite H. destruct (arrayIndex k).
  - now apply remove_insertIndexKey.
  - unfold Database.remove. rewrite filter_app. simpl.
    rewrite String.eqb_refl. simpl. rewrite app_nil_r.
    now apply remove_absent.
Qed.

Lemma has_set o k k' v :
  has (set o k v) k' = String.eqb k k' || has o k'.
Proof.
  destruct (String.eqb k k') eqn:E.
  - apply String.eqb_eq in E. subst. apply has_set_same.
  - apply String.eqb_neq in E. rewrite has_set_other by congruence. reflexivity.
Qed.

Lemma map_entries_id (B : Type) (o' : obj B) :
  List.map (fun ci => (fst ci, snd ci)) o' = o'.
Proof.
  induction o' as [|[k v] r IH]; simpl; congruence.
Qed.

Lemma get_in o k v : get o k = Some v -> In (k, v) o.
Proof.
  induction o as [|[k' v'] r IH]; simpl; [discriminate|].
  destruct (String.eqb k' k) eqn:E.
  - apply String.eqb_eq in E. intros H. inversion H; subst. now left.
  - auto.
Qed.

End MoreObjFacts.

(* ================================================================== *)
(** * The schema and the constructor *)
(* ================================================================== *)

Lemma orElse_truthy (x y : value) :
  ToBoolean y = true -> ToBoolean (Table.orElse x y) = true.
Proof.
  intros H. unfold Table.orElse. destruct (ToBoolean x) eqn:E; assumption.
Qed.

(** X1.  For a schema none of whose column definitions is [null] or
    [undefined], [normalizeSchema] keeps every column of the schema and adds
    none, gives every column a truthy type, and makes every primary-key
    column required and unique. *)
Theorem normalizeSchema_makes_primary_key_required_and_unique (schema : object) :
  Spec.columnsDefined schema = true ->
  (forall column, has (Table.normalizeSchema schema) column = has schema column)
  /\ (forall column def,
         get (Table.normalizeSchema schema) column = Some def ->
         ToBoolean (Column.type def) = true
         /\ (Column.primaryKey def = true ->
             Column.required def = true /\ Column.unique def = true)).
Proof.
  intros _. unfold Table.normalizeSchema.
  set (step := fun (normalized : obj Column.t) (column : string) => _).
  assert (Hfold : forall ks acc,
             (forall column,
                 has (fold_left step ks acc) column
                 = existsb (fun k => String.eqb k column) ks || has acc column)
             /\ ((forall column def, get acc column = Some def ->
                    ToBoolean (Column.type def) = true
                    /\ (Column.primaryKey def = true ->
                        Column.required def = true /\ Column.unique def = true)) ->
                 forall column def, get (fold_left step ks acc) column = Some def ->
                    ToBoolean (Column.type def) = true
                    /\ (Column.primaryKey def = true ->
                        Column.required def = true /\ Column.unique def = true))).
  { induction ks as [|k ks IH]; intros acc; simpl.
    - split; auto.
    - destruct (IH (step acc k)) as [IH1 IH2]. split.
      + intros column. rewrite IH1. unfold step. rewrite has_set.
        destruct (existsb _ ks), (String.eqb k column), (has acc column); reflexivity.
      + intros Hacc. apply IH2. intros column def. unfold step.
        destruct (string_dec column k) as [->|Hne].
        * rewrite get_set_same. intros H. inversion H; subst; clear H. simpl.
          split; [apply orElse_truthy; reflexivity|].
          intros Hpk. rewrite Hpk. auto.
        * rewrite get_set_other by assumption. apply Hacc. }
  split.
  - intros column. destruct (Hfold (keys schema) nil) as [H _]. rewrite H.
    change (has (@nil (string * Column.t)) column) with false. rewrite orb_false_r.
    destruct (has schema column) eqn:E.
    + unfold has in E. destruct (get schema column) eqn:G; [|discriminate].
      apply get_present in G. apply existsb_exists. exists column.
      split; [assumption|apply String.eqb_refl].
    + apply has_false_not_in in E.
      destruct (existsb _ (keys schema)) eqn:X; [|reflexivity].
      apply existsb_exists in X. destruct X as (k & Hin & Hk).
      apply String.eqb_eq in Hk. subst. contradiction.
  - destruct (Hfold (keys schema) nil) as [_ H]. apply H.
    intros column def. simpl. discriminate.
Qed.

(** In the example schema the primary key [id] is stored as required and
    unique although the schema only says [primaryKey]. *)
Lemma normalizeSchema_makes_primary_key_required_and_unique_witness :
  exists def,
    get (Table.normalizeSchema Demo.peopleSchema) "id" = Some def
    /\ ToBoolean (Column.type def) = true
    /\ (Column.primaryKey def = true ->
        Column.required def = true /\ Column.unique def = true).
Proof.
  eexists. split; [reflexivity|].
  exact (proj2 (normalizeSchema_makes_primary_key_required_and_unique
                  Demo.peopleSchema eq_refl) "id" _ eq_refl).
Defined.

Section IndexBuilding.
Context {rt : Runtime}.

Lemma combine_snoc (A B : Type) (l : list A) (l' : list B) a b :
  List.length l = List.length l' ->
  List.combine (l ++ [a]) (l' ++ [b]) = (List.combine l l' ++ [(a, b)])%list.
Proof.
  revert l'. induction l as [|x l IH]; intros [|y l'] H; simpl in *;
    try discriminate; [reflexivity|].
  rewrite IH by lia. reflexivity.
Qed.

Lemma buildIndex_snoc rows row column :
  Table.buildIndex (rows ++ [row]) column
  = Table.indexAdd (Table.buildIndex rows column) (prop row column)
                   (List.length rows).
Proof.
  unfold Table.buildIndex. rewrite length_app. simpl.
  rewrite seq_app. simpl.
  rewrite combine_snoc by apply length_seq.
  rewrite fold_left_app. reflexivity.
Qed.

Lemma agrees_nil column : Spec.agrees nil column nil.
Proof.
  split.
  - intros [|i] row H; discriminate.
  - intros key b p H. discriminate.
Qed.

(** The index that [rebuildIndex] computes lists every row that has a
    value for the column, and nothing else. *)
Lemma buildIndex_agrees rows column :
  Spec.agrees rows column (Table.buildIndex rows column).
Proof.
  induction rows as [|row rows IH] using rev_ind.
  - apply agrees_nil.
  - rewrite buildIndex_snoc. now apply indexAdd_agrees.
Qed.

Lemma findPrimaryKey_column (sch : obj Column.t) c :
  Table.findPrimaryKey sch = Some c ->
  exists def, In (c, def) sch /\ Column.primaryKey def = true.
Proof.
  unfold Table.findPrimaryKey.
  destruct (List.filter _ sch) as [|[column def] rest] eqn:E; [discriminate|].
  intros H. inversion H; subst; clear H.
  assert (Hin : In (c, def) (List.filter (fun c => Column.primaryKey (snd c)) sch))
    by (rewrite E; now left).
  apply filter_In in Hin. exists def. exact Hin.
Qed.

Lemma hasPrimaryKey_column tb :
  Table.hasPrimaryKey tb = true ->
  Table.primaryKey tb = Some (Table.primaryKeyName tb).
Proof.
  unfold Table.hasPrimaryKey, Table.primaryKeyName.
  destruct (Table.primaryKey tb); [reflexivity|discriminate].
Qed.

(** X2.  [createIndex] on a column of the schema succeeds, leaves the rows
    and the other indexes as they are, writes the index file, and the index
    it stores for the column lists every row that has a value for the
    column at its position, and no other position.  This is stated for a
    column that is not named like a member of [Object.prototype] and for
    rows whose values for the column do not read as such a name (the source
    files such a row under the inherited member and throws). *)
Theorem createIndex_lists_every_row tb fs column :
  has (Table.schema tb) column = true ->
  Spec.ordinaryName column = true ->
  Spec.ordinaryValues (Table.data tb) column = true ->
  exists tb',
    Table.createIndex tb fs column = (Return true, tb', Table.saveIndexes tb' fs)
    /\ Table.data tb' = Table.data tb
    /\ (exists ix, get (Table.indexes tb') column = Some ix
                   /\ Spec.agrees (Table.data tb) column ix)
    /\ (forall other, other <> column ->
          get (Table.indexes tb') other = get (Table.indexes tb) other).
Proof.
  intros H _ _. unfold Table.createIndex. rewrite H. simpl.
  eexists. split; [reflexivity|]. simpl. split; [reflexivity|]. split.
  - eexists. split; [apply get_set_same|]. apply buildIndex_agrees.
  - intros other Hne. now rewrite !get_set_other by assumption.
Qed.

(** X3.  A table that the constructor leaves with a usable primary key has
    an index on that key, whether the index file had one or not.  This is
    stated for the schemas that define every column, for a key that is not
    named like a member of [Object.prototype] (under such a name the source
    finds the inherited member in the place of the index and builds none),
    for an index file that holds an index map if it exists, and for rows on
    file that the source indexes as the embedding does
    ([Spec.buildsAsEmbedded]). *)
Theorem constructor_indexes_the_primary_key name schema fs :
  Spec.columnsDefined schema = true ->
  Spec.ordinaryName (Table.primaryKeyName (fst (Table.new name schema fs))) = true ->
  Spec.indexFileIsMap fs name = true ->
  Spec.buildsAsEmbedded fs name schema = true ->
  Table.hasPrimaryKey (fst (Table.new name schema fs)) = true ->
  has (Table.indexes (fst (Table.new name schema fs)))
      (Table.primaryKeyName (fst (Table.new name schema fs))) = true.
Proof.
  intros _ _ _ _. unfold Table.new.
  set (sch := Table.normalizeSchema schema).
  set (tb0 := {| Table.name := name; Table.schema := sch;
                 Table.filePath := name ++ ".json";
                 Table.indexPath := name ++ "_index.json";
                 Table.data := nil; Table.indexes := nil;
                 Table.primaryKey := Table.findPrimaryKey sch |}).
  set (tb2 := Table.loadIndexes (Table.load tb0 fs) fs).
  assert (Hsch : Table.schema tb2 = sch).
  { unfold tb2. now rewrite loadIndexes_schema, load_schema. }
  assert (Hpk : Table.primaryKey tb2 = Table.findPrimaryKey sch).
  { unfold tb2, Table.loadIndexes, Table.load. simpl.
    destruct (get fs (name ++ ".json")) as [[rows|ix|s]|]; simpl;
      destruct (get fs (name ++ "_index.json")) as [[rows'|ix'|s']|]; reflexivity. }
  destruct (Table.hasPrimaryKey tb2) eqn:Hhas; simpl.
  - destruct (has (Table.indexes tb2) (Table.primaryKeyName tb2)) eqn:Hix; simpl.
    + intros _. exact Hix.
    + intros _.
      assert (Hcol : has (Table.schema tb2) (Table.primaryKeyName tb2) = true).
      { pose proof (hasPrimaryKey_column _ Hhas) as Hc. rewrite Hpk in Hc.
        destruct (findPrimaryKey_column _ _ Hc) as (def & Hin & _).
        rewrite Hsch. apply in_keys_has.
        change (Table.primaryKeyName tb2) with (fst (Table.primaryKeyName tb2, def)).
        unfold keys. now apply in_map. }
      unfold Table.createIndex. rewrite Hcol. simpl.
      unfold has. now rewrite get_set_same.
  - intros H. rewrite Hhas in H. discriminate.
Qed.

(** X4.  When the directory holds no index file for the table, every index
    of the table the constructor returns agrees with the rows it loaded.
    This is stated for the schemas that define every column and for rows
    on file whose primary-key values do not read as the name of a member of
    [Object.prototype] ([Spec.buildsAsEmbedded]). *)
Theorem constructor_without_index_file_is_consistent name schema fs :
  Spec.columnsDefined schema = true ->
  Spec.buildsAsEmbedded fs name schema = true ->
  get fs (name ++ "_index.json") = None ->
  Spec.Consistent (fst (Table.new name schema fs)).
Proof.
  intros _ _ Hnone. unfold Table.new.
  set (sch := Table.normalizeSchema schema).
  set (tb0 := {| Table.name := name; Table.schema := sch;
                 Table.filePath := name ++ ".json";
                 Table.indexPath := name ++ "_index.json";
                 Table.data := nil; Table.indexes := nil;
                 Table.primaryKey := Table.findPrimaryKey sch |}).
  set (tb2 := Table.loadIndexes (Table.load tb0 fs) fs).
  assert (Hix : Table.indexes tb2 = nil).
  { unfold tb2, Table.loadIndexes, Table.load. simpl.
    destruct (get fs (name ++ ".json")) as [[rows|ix|s]|]; simpl;
      rewrite Hnone; reflexivity. }
  destruct (Table.hasPrimaryKey tb2 && negb (has (Table.indexes tb2) _)); simpl.
  - unfold Table.createIndex.
    destruct (negb (has (Table.schema tb2) (Table.primaryKeyName tb2))); simpl.
    + intros column ix. rewrite Hix. discriminate.
    + intros column ix. simpl. rewrite Hix.
      destruct (string_dec column (Table.primaryKeyName tb2)) as [->|Hne].
      * rewrite get_set_same. intros H. inversion H; subst.
        apply buildIndex_agrees.
      * rewrite !get_set_other by assumption. discriminate.
  - intros column ix. rewrite Hix. discriminate.
Qed.

End IndexBuilding.

(** The rows of Ann and Bo on file, without an index file. *)
Lemma constructor_indexes_the_primary_key_witness :
  has (Table.indexes
         (fst (Table.new (rt := Demo.runtime) "t" Demo.peopleSchema
                         [("t.json", JsonRows (Table.data (fst Demo.people)))])))
      (Table.primaryKeyName
         (fst (Table.new (rt := Demo.runtime) "t" Demo.peopleSchema
                         [("t.json", JsonRows (Table.data (fst Demo.people)))])))
  = true.
Proof.
  exact (@constructor_indexes_the_primary_key
           Demo.runtime "t" Demo.peopleSchema
           [("t.json", JsonRows (Table.data (fst Demo.people)))]
           eq_refl eq_refl eq_refl eq_refl eq_refl).
Defined.

Lemma createIndex_lists_every_row_witness :
  exists tb',
    Table.createIndex (rt := Demo.runtime) (fst Demo.people) (snd Demo.people) "name"
    = (Return true, tb', Table.saveIndexes tb' (snd Demo.people))
    /\ Table.data tb' = Table.data (fst Demo.people)
    /\ (exists ix, get (Table.indexes tb') "name" = Some ix
                   /\ Spec.agrees (rt := Demo.runtime)
                                  (Table.data (fst Demo.people)) "name" ix)
    /\ (forall other, other <> "name" ->
          get (Table.indexes tb') other = get (Table.indexes (fst Demo.people)) other).
Proof.
  exact (@createIndex_lists_every_row Demo.runtime (fst Demo.people)
                                      (snd Demo.people) "name"
                                      eq_refl eq_refl eq_refl).
Defined.

(** The constructor loads the rows of Ann and Bo from the data file and,
    finding no index file, builds the index on [id] from them. *)
Lemma constructor_without_index_file_is_consistent_witness :
  Table.data
    (fst (Table.new (rt := Demo.runtime) "t" Demo.peopleSchema
                    [("t.json", JsonRows (Table.data (fst Demo.people)))]))
  = [[("name", VStr "Ann"); ("age", Demo.num 18); ("id", Demo.num 1)];
     [("name", VStr "Bo"); ("age", Demo.num 30); ("id", Demo.num 2)]]
  /\ Table.indexes
       (fst (Table.new (rt := Demo.runtime) "t" Demo.peopleSchema
                       [("t.json", JsonRows (Table.data (fst Demo.people)))]))
     = [("id", [("1", [0%nat]); ("2", [1%nat])])]
  /\ Spec.Consistent (rt := Demo.runtime)
       (fst (Table.new (rt := Demo.runtime) "t" Demo.peopleSchema
                       [("t.json", JsonRows (Table.data (fst Demo.people)))])).
Proof.
  split; [vm_compute; reflexivity|]. split; [vm_compute; reflexivity|].
  exact (@constructor_without_index_file_is_consistent
           Demo.runtime "t" Demo.peopleSchema
           [("t.json", JsonRows (Table.data (fst Demo.people)))]
           eq_refl eq_refl eq_refl).
Defined.

(* ================================================================== *)
(** * Lookups *)
(* ================================================================== *)

Section LookupFacts.
Context {rt : Runtime}.

Lemma copies_are_rows (rows : list object) :
  List.map (fun r => Table.copyRow (Some r)) rows = rows.
Proof.
  induction rows as [|r rows IH]; simpl; [reflexivity|].
  f_equal. exact IH.
Qed.

(** What the scan keeps: the rows for which the callback returns
    [true], when it throws for none. *)
Lemma filterRows_filter (p : object -> completion bool) rows : forall kept,
  Table.filterRows p rows = Return kept ->
  kept = List.filter (fun r => match p r with Return true => true | _ => false end)
                     rows.
Proof.
  induction rows as [|r rows IH]; simpl; intros kept H.
  - now inversion H.
  - destruct (p r) as [b| |]; try discriminate.
    destruct (Table.filterRows p rows) as [l| |]; try discriminate.
    inversion H; subst; clear H. rewrite <- (IH l eq_refl).
    destruct b; reflexivity.
Qed.

Lemma filterRows_returns (p : object -> completion bool) rows :
  (forall r, In r rows -> exists b, p r = Return b) ->
  exists kept, Table.filterRows p rows = Return kept.
Proof.
  induction rows as [|r rows IH]; simpl; intros H.
  - eauto.
  - destruct (H r (or_introl eq_refl)) as [b ->].
    destruct IH as [l ->]; [intros; apply H; now right|]. eauto.
Qed.

(** X5.  Insert, then look up: after a successful insert, a lookup on any
    indexed column with the value the stored record has for it returns the
    stored record, as the last of the rows it returns. *)
Theorem inserted_record_is_found_through_every_index
        tb fs record stored tb' fs' column :
  Table.insert tb fs record = (Return stored, tb', fs') ->
  has (Table.indexes tb) column = true ->
  isUndefined (prop stored column) = false ->
  exists before,
    Table.find tb' [(column, prop stored column)]
    = Return (before ++ [stored])%list.
Proof.
  unfold Table.insert.
  destruct (Table.validateRecord tb record) as [validated| |]; try discriminate.
  intros H Hix Hdef. inversion H; subst; clear H.
  set (stored := Table.autoIncrement tb validated) in *.
  unfold has in Hix. destruct (get (Table.indexes tb) column) as [ix|] eqn:E;
    [|discriminate].
  rewrite find_indexed
    with (ix := Table.indexAdd ix (prop stored column) (List.length (Table.data tb))).
  - unfold Table.indexAdd. rewrite Hdef. rewrite get_set_same.
    unfold push. rewrite map_app. simpl.
    rewrite nth_error_app2 by lia. rewrite Nat.sub_diag. simpl.
    eexists. reflexivity.
  - simpl.
    rewrite get_map_entries
      with (f := fun c ix0 =>
                   Table.indexAdd ix0 (prop stored c) (List.length (Table.data tb))).
    now rewrite E.
Qed.

(** X6.  On a table whose indexes agree with its rows, a lookup on one
    indexed column returns exactly the rows whose value for the column is
    defined and has the same text as the value looked up: the index
    compares the string forms, not the values.  This is stated for the
    values that do not read as the name of a member of [Object.prototype]:
    for those the source finds the inherited member in the place of the
    list of positions, and throws. *)
Theorem indexed_lookup_compares_string_forms tb column v ix :
  Spec.Consistent tb ->
  get (Table.indexes tb) column = Some ix ->
  Spec.ordinaryName (ToString v) = true ->
  exists results,
    Table.find tb [(column, v)] = Return results
    /\ forall row,
         In row results <->
         In row (Table.data tb)
         /\ isUndefined (prop row column) = false
         /\ ToString (prop row column) = ToString v.
Proof.
  intros Hc Hix _. destruct (Hc column ix Hix) as [Hrows Hlisted].
  rewrite find_indexed with (ix := ix) by exact Hix.
  eexists. split; [reflexivity|]. intros row. split.
  - destruct (get ix (ToString v)) as [indices|] eqn:G; [|contradiction].
    intros Hin. apply in_map_iff in Hin. destruct Hin as (i & Hrow & Hi).
    destruct (Hlisted _ _ _ G Hi) as (row' & Hnth & Hdef & Hkey).
    rewrite Hnth in Hrow. simpl in Hrow. subst row'.
    split; [now apply nth_error_In with (n := i)|]. auto.
  - intros (Hin & Hdef & Hkey).
    apply In_nth_error in Hin. destruct Hin as [i Hnth].
    destruct (Hrows i row Hnth Hdef) as (b & Hb & Hi).
    rewrite Hkey in Hb. rewrite Hb.
    apply in_map_iff. exists i. rewrite Hnth. auto.
Qed.

(** X7.  On a table whose indexes agree with its rows, every record that
    [find] returns is a row of the table, whatever the conditions. *)
Theorem find_returns_rows_of_the_table tb conditions results :
  Spec.Consistent tb ->
  Table.find tb conditions = Return results ->
  forall row, In row results -> In row (Table.data tb).
Proof.
  intros Hc. unfold Table.find.
  assert (Hscan : forall l,
             match Table.filterRows (Table.matches conditions) (Table.data tb) with
             | Return l => Return (List.map (fun r => Table.copyRow (Some r)) l)
             | other => other
             end = Return l ->
             forall row, In row l -> In row (Table.data tb)).
  { intros l. destruct (Table.filterRows _ _) as [kept| |] eqn:F; try discriminate.
    rewrite copies_are_rows. intros H. inversion H; subst; clear H.
    apply filterRows_filter in F. subst l. intros row Hin.
    apply filter_In in Hin. tauto. }
  destruct (keys conditions) as [|col [|col' more]].
  - rewrite copies_are_rows. intros H. inversion H; subst. auto.
  - destruct (get (Table.indexes tb) col) as [ix|] eqn:Hix; [|apply Hscan].
    destruct (Hc col ix Hix) as [_ Hlisted].
    destruct (get ix _) as [indices|] eqn:G.
    + intros H. inversion H; subst; clear H. intros row Hin.
      apply in_map_iff in Hin. destruct Hin as (i & Hrow & Hi).
      destruct (Hlisted _ _ _ G Hi) as (row' & Hnth & _).
      rewrite Hnth in Hrow. simpl in Hrow. subst row'.
      now apply nth_error_In with (n := i).
    + intros H. inversion H; subst. contradiction.
  - apply Hscan.
Qed.

Lemma matchesFrom_equalities conditions record : forall ks,
  (forall k, In k ks -> typeof (prop conditions k) <> "object") ->
  Table.matchesFrom conditions record ks
  = Return (forallb (fun k => strictEq (prop record k) (prop conditions k)) ks).
Proof.
  induction ks as [|k ks IH]; simpl; intros H; [reflexivity|].
  destruct (String.eqb (typeof (prop conditions k)) "object") eqn:E.
  - apply String.eqb_eq in E. exfalso. apply (H k); auto.
  - destruct (strictEq (prop record k) (prop conditions k)); simpl.
    + apply IH. intros; apply H; now right.
    + reflexivity.
Qed.


End LookupFacts.

Lemma inserted_record_is_found_through_every_index_witness :
  exists before,
    Table.find (rt := Demo.runtime)
               (snd (fst (Table.insert (rt := Demo.runtime) (fst Demo.people)
                                       (snd Demo.people) [("name", VStr "Cy")])))
               [("id", Demo.num 3)]
    = Return (before ++ [[("name", VStr "Cy"); ("age", Demo.num 18);
                          ("id", Demo.num 3)]])%list.
Proof.
  assert (E : Table.insert (rt := Demo.runtime) (fst Demo.people) (snd Demo.people)
                           [("name", VStr "Cy")]
              = (Return [("name", VStr "Cy"); ("age", Demo.num 18); ("id", Demo.num 3)],
                 snd (fst (Table.insert (rt := Demo.runtime) (fst Demo.people)
                                        (snd Demo.people) [("name", VStr "Cy")])),
                 snd (Table.insert (rt := Demo.runtime) (fst Demo.people)
                                   (snd Demo.people) [("name", VStr "Cy")])))
    by (vm_compute; reflexivity).
  exact (@inserted_record_is_found_through_every_index
           Demo.runtime _ _ _ _ _ _ "id" E eq_refl eq_refl).
Defined.

(** The string "1" finds the row whose [id] is the number 1. *)
Lemma indexed_lookup_compares_string_forms_witness :
  exists results,
    Table.find (rt := Demo.runtime) (fst Demo.people) [("id", VStr "1")]
    = Return results
    /\ forall row,
         In row results <->
         In row (Table.data (fst Demo.people))
         /\ isUndefined (prop row "id") = false
         /\ ToString (rt := Demo.runtime) (prop row "id") = "1".
Proof.
  exact (@indexed_lookup_compares_string_forms
           Demo.runtime (fst Demo.people) "id" (VStr "1") _
           people_Consistent eq_refl eq_refl).
Defined.

(** Bo's row, which the lookup by age returns, is a row of the table. *)
Lemma find_returns_rows_of_the_table_witness :
  In [("name", VStr "Bo"); ("age", Demo.num 30); ("id", Demo.num 2)]
     (Table.data (fst Demo.people)).
Proof.
  exact (@find_returns_rows_of_the_table
           Demo.runtime (fst Demo.people) [("age", Demo.num 30)]
           [[("name", VStr "Bo"); ("age", Demo.num 30); ("id", Demo.num 2)]]
           people_Consistent eq_refl _ (or_introl eq_refl)).
Defined.


(* ================================================================== *)
(** * What validation stores *)
(* ================================================================== *)

Section StoredFacts.
Context {rt : Runtime}.

Lemma columnResult_other record c def result column :
  column <> c ->
  get (Spec.columnResult record c def result) column = get result column.
Proof.
  intros Hne. unfold Spec.columnResult.
  destruct (has record c).
  - destruct (Table.validateType _ _); [|reflexivity].
    now apply get_set_other.
  - destruct (Column.autoIncrement def); [reflexivity|].
    destruct (isUndefined _); [reflexivity|]. now apply get_set_other.
Qed.

Lemma recordResult_others record column columns : forall result,
  ~ In column (keys columns) ->
  get (fold_left (fun result c => Spec.columnResult record (fst c) (snd c) result)
                 columns result) column
  = get result column.
Proof.
  induction columns as [|[c d] rest IH]; simpl; intros result Hnot; [reflexivity|].
  rewrite IH by tauto. apply columnResult_other. intros ->. tauto.
Qed.

(** With distinct column names, what the validated record holds for a
    column is what the turn of that column stored. *)
Lemma recordResult_at record column def columns : forall result,
  NoDup (keys columns) -> In (column, def) columns ->
  exists result',
    get result' column = get result column
    /\ get (fold_left (fun result c => Spec.columnResult record (fst c) (snd c) result)
                      columns result) column
       = get (Spec.columnResult record column def result') column.
Proof.
  induction columns as [|[c d] rest IH]; simpl; intros result Hnd Hin; [contradiction|].
  inversion Hnd as [|? ? Hnot Hnd']; subst.
  destruct Hin as [Heq|Hin].
  - inversion Heq; subst. exists result. split; [reflexivity|].
    now apply recordResult_others.
  - assert (Hne : column <> c).
    { intros ->. apply Hnot. change c with (fst (c, def)). now apply in_map. }
    destruct (IH (Spec.columnResult record c d result) Hnd' Hin) as (r' & Hr' & Hget).
    exists r'. split; [|exact Hget].
    rewrite Hr'. now apply columnResult_other.
Qed.

Lemma assignNext_other tb validated c column :
  column <> fst c \/ Column.autoIncrement (snd c) = false ->
  get (Table.assignNext tb validated c) column = get validated column.
Proof.
  intros H. unfold Table.assignNext.
  destruct H as [Hne| ->]; [|reflexivity].
  destruct (_ && _); [|reflexivity]. now apply get_set_other.
Qed.

Lemma autoIncrement_untouched tb column columns : forall validated,
  (forall d, In (column, d) columns -> Column.autoIncrement d = false) ->
  get (fold_left (Table.assignNext tb) columns validated) column
  = get validated column.
Proof.
  induction columns as [|[c d] rest IH]; simpl; intros validated H; [reflexivity|].
  rewrite IH by (intros; apply H; now right).
  apply assignNext_other. simpl.
  destruct (string_dec column c) as [->|Hne]; [right|now left].
  apply H. now left.
Qed.

Lemma validated_is_recordResult tb record validated :
  Table.validateRecord tb record = Return validated ->
  validated = Spec.recordResult tb record.
Proof.
  rewrite validateRecord_spec.
  destruct (Spec.recordErrors tb record); [|discriminate].
  intros H. now inversion H.
Qed.

Lemma schema_entry_unique (sch : obj Column.t) column def :
  NoDup (keys sch) -> get sch column = Some def ->
  In (column, def) sch /\ forall d, In (column, d) sch -> d = def.
Proof.
  intros Hnd Hget. apply get_in in Hget. split; [assumption|].
  intros d Hd. exact (in_keys_unique _ sch column d def Hnd Hd Hget).
Qed.

(** What [coerceValue] returns for the four types it knows. *)
Lemma coerceValue_typed (x type : value) :
  match Table.coerceValue x type with
  | VUndefined | VNull => True
  | v => (type = VStr "string" -> typeof v = "string")
         /\ (type = VStr "number" -> exists n, v = VNum n /\ isNaN n = false)
         /\ (type = VStr "boolean" -> typeof v = "boolean")
         /\ (type = VStr "date" -> exists t, v = VDate t)
  end.
Proof.
  assert (Hrest : forall v : value,
             Table.isType type "string" = false ->
             Table.isType type "number" = false ->
             Table.isType type "boolean" = false ->
             Table.isType type "date" = false ->
             (type = VStr "string" -> typeof v = "string")
             /\ (type = VStr "number" -> exists n, v = VNum n /\ isNaN n = false)
             /\ (type = VStr "boolean" -> typeof v = "boolean")
             /\ (type = VStr "date" -> exists t, v = VDate t)).
  { intros v H1 H2 H3 H4. repeat split; intros ->; discriminate. }
  assert (Hdate : forall v, exists t, Table.newDate v = VDate t).
  { intros v. unfold Table.newDate.
    destruct v; try (destruct (ToPrimitive _)); eauto. }
  unfold Table.coerceValue.
  destruct x; try exact I;
    (destruct (Table.isType type "string") eqn:H1;
     [repeat split; intros ->; try discriminate; reflexivity|];
     destruct (Table.isType type "number") eqn:H2;
     [match goal with
      | |- context [isNaN ?n] =>
          destruct (isNaN n) eqn:Hn; [exact I|];
          repeat split; intros ->; try discriminate; eauto
      end|];
     destruct (Table.isType type "boolean") eqn:H3;
     [repeat split; intros ->; try discriminate; reflexivity|];
     destruct (Table.isType type "date") eqn:H4;
     [match goal with
      | |- context [Table.newDate ?v] =>
          destruct (Hdate v) as [t ->];
          repeat split; intros ->; try discriminate; eauto
      end|];
     apply Hrest; reflexivity).
Qed.

(** X9.  A stored record has no column that the schema does not have: the
    fields of the record given to [insert] that the schema does not name are
    dropped. *)
Theorem stored_record_has_only_schema_columns tb fs record stored tb' fs' :
  Table.insert tb fs record = (Return stored, tb', fs') ->
  forall k, has stored k = true -> has (Table.schema tb) k = true.
Proof.
  unfold Table.insert.
  destruct (Table.validateRecord tb record) as [validated| |] eqn:V; try discriminate.
  intros H. inversion H; subst; clear H.
  apply validated_is_recordResult in V. subst validated.
  intros k Hk.
  destruct (has (Table.schema tb) k) eqn:E; [reflexivity|].
  apply has_false_not_in in E. exfalso.
  unfold Table.autoIncrement, has in Hk.
  rewrite autoIncrement_untouched in Hk.
  - unfold Spec.recordResult in Hk. rewrite recordResult_others in Hk by assumption.
    discriminate.
  - intros d Hd. exfalso. apply E. change k with (fst (k, d)). unfold keys.
    now apply in_map.
Qed.

(** X10.  In a stored record, the value of a column of type string, number,
    boolean or date that is not auto-incremented is [null], [undefined]
    (also when absent) or a value of that type; a number is never NaN. *)
Theorem stored_values_have_the_column_type
        tb fs record stored tb' fs' column def :
  NoDup (keys (Table.schema tb)) ->
  get (Table.schema tb) column = Some def ->
  Column.autoIncrement def = false ->
  Table.insert tb fs record = (Return stored, tb', fs') ->
  match prop stored column with
  | VUndefined | VNull => True
  | v => (Column.type def = VStr "string" -> typeof v = "string")
         /\ (Column.type def = VStr "number" ->
             exists n, v = VNum n /\ isNaN n = false)
         /\ (Column.type def = VStr "boolean" -> typeof v = "boolean")
         /\ (Column.type def = VStr "date" -> exists t, v = VDate t)
  end.
Proof.
  intros Hnd Hget Hauto. unfold Table.insert.
  destruct (Table.validateRecord tb record) as [validated| |] eqn:V; try discriminate.
  intros H. inversion H; subst; clear H.
  apply validated_is_recordResult in V. subst validated.
  destruct (schema_entry_unique _ _ _ Hnd Hget) as [Hin Huniq].
  unfold prop, Table.autoIncrement.
  rewrite autoIncrement_untouched
    by (intros d Hd; rewrite (Huniq d Hd); exact Hauto).
  unfold Spec.recordResult.
  destruct (recordResult_at record column def (Table.schema tb) nil Hnd Hin)
    as (r' & Hr' & ->).
  simpl in Hr'. unfold Spec.columnResult.
  pose proof (coerceValue_typed (prop record column) (Column.type def)) as Hv.
  pose proof (coerceValue_typed (Column.defaultValue def) (Column.type def)) as Hd.
  destruct (has record column).
  - destruct (Table.validateType _ _).
    + rewrite get_set_same. exact Hv.
    + rewrite Hr'. exact I.
  - rewrite Hauto. destruct (isUndefined _).
    + rewrite Hr'. exact I.
    + rewrite get_set_same. exact Hd.
Qed.


End StoredFacts.

Lemma people_schema_NoDup : NoDup (keys (Table.schema (fst Demo.people))).
Proof.
  repeat constructor; simpl; intuition discriminate.
Qed.

Lemma people_insert_Cy :
  Table.insert (rt := Demo.runtime) (fst Demo.people) (snd Demo.people)
               [("name", VStr "Cy"); ("nickname", VStr "C")]
  = (Return [("name", VStr "Cy"); ("age", Demo.num 18); ("id", Demo.num 3)],
     snd (fst (Table.insert (rt := Demo.runtime) (fst Demo.people) (snd Demo.people)
                            [("name", VStr "Cy"); ("nickname", VStr "C")])),
     snd (Table.insert (rt := Demo.runtime) (fst Demo.people) (snd Demo.people)
                       [("name", VStr "Cy"); ("nickname", VStr "C")])).
Proof. vm_compute. reflexivity. Qed.

(** The record is stored without the field [nickname], which the schema
    does not name; the column [age] it is stored with is one of the schema. *)
Lemma stored_record_has_only_schema_columns_witness :
  has [("name", VStr "Cy"); ("age", Demo.num 18); ("id", Demo.num 3)] "nickname"
  = false
  /\ has (Table.schema (fst Demo.people)) "age" = true.
Proof.
  exact (conj eq_refl
              (@stored_record_has_only_schema_columns
                 Demo.runtime _ _ _ _ _ _ people_insert_Cy "age" eq_refl)).
Defined.

Lemma stored_values_have_the_column_type_witness :
  exists def,
    get (Table.schema (fst Demo.people)) "age" = Some def
    /\ match prop [("name", VStr "Cy"); ("age", Demo.num 18); ("id", Demo.num 3)]
                  "age" with
       | VUndefined | VNull => True
       | v => (Column.type def = VStr "string" -> typeof v = "string")
              /\ (Column.type def = VStr "number" ->
                  exists n, v = VNum n /\ isNaN n = false)
              /\ (Column.type def = VStr "boolean" -> typeof v = "boolean")
              /\ (Column.type def = VStr "date" -> exists t, v = VDate t)
       end.
Proof.
  eexists. split; [reflexivity|].
  exact (@stored_values_have_the_column_type
           Demo.runtime (fst Demo.people) (snd Demo.people)
           [("name", VStr "Cy"); ("nickname", VStr "C")] _ _ _ "age" _
           people_schema_NoDup eq_refl eq_refl people_insert_Cy).
Defined.


(* ================================================================== *)
(** * update and delete *)
(* ================================================================== *)

Section MutationFacts.
Context {rt : Runtime}.

Lemma findIndex_never (rows : list object) : forall i,
  Table.findIndex (fun _ => false) rows i = None.
Proof.
  induction rows as [|r rows IH]; simpl; auto.
Qed.

Lemma positionsOf_without_key tb records :
  Table.hasPrimaryKey tb = false -> Table.positionsOf tb records = nil.
Proof.
  intros H. unfold Table.positionsOf, Table.positionOf. rewrite H.
  induction records as [|r rest IH]; simpl; [reflexivity|].
  rewrite findIndex_never in *. exact IH.
Qed.

Lemma rebuild_all_keeps_rows (f : Table.t -> string -> obj (list nat)) cols :
  forall tb,
    Table.data
      (fold_left
         (fun tb' col =>
            Table.rebuildIndex
              (Table.withIndexes tb' (set (Table.indexes tb') col (f tb' col))) col)
         cols tb)
    = Table.data tb
    /\ Table.filePath
         (fold_left
            (fun tb' col =>
               Table.rebuildIndex
                 (Table.withIndexes tb' (set (Table.indexes tb') col (f tb' col))) col)
            cols tb)
       = Table.filePath tb
    /\ Table.indexPath
         (fold_left
            (fun tb' col =>
               Table.rebuildIndex
                 (Table.withIndexes tb' (set (Table.indexes tb') col (f tb' col))) col)
            cols tb)
       = Table.indexPath tb.
Proof.
  induction cols as [|c cols IH]; intros tb; simpl; [auto|].
  destruct (IH (Table.rebuildIndex
                  (Table.withIndexes tb (set (Table.indexes tb) c (f tb c))) c))
    as (H1 & H2 & H3).
  rewrite H1, H2, H3. auto.
Qed.

Lemma withIndexes_same tb : Table.withIndexes tb (Table.indexes tb) = tb.
Proof. destruct tb; reflexivity. Qed.


Lemma length_assign rows : forall idx row,
  List.length (Table.assign rows idx row) = List.length rows.
Proof.
  induction rows as [|r rows IH]; intros [|idx] row; simpl; auto.
Qed.

Lemma nth_error_assign_other rows : forall idx row i,
  i <> idx -> nth_error (Table.assign rows idx row) i = nth_error rows i.
Proof.
  induction rows as [|r rows IH]; intros [|idx] row [|i] Hne; simpl; auto;
    try contradiction.
Qed.

Lemma updateRows_rows updates indices : forall tb updated,
  List.length (Table.data (snd (Table.updateRows tb updates indices updated)))
  = List.length (Table.data tb)
  /\ (forall i, ~ In i indices ->
        nth_error (Table.data (snd (Table.updateRows tb updates indices updated))) i
        = nth_error (Table.data tb) i)
  /\ Table.filePath (snd (Table.updateRows tb updates indices updated))
     = Table.filePath tb
  /\ Table.indexPath (snd (Table.updateRows tb updates indices updated))
     = Table.indexPath tb.
Proof.
  induction indices as [|idx rest IH]; intros tb updated; simpl; [auto|].
  destruct (Table.validateRecord tb _) as [validated| |]; simpl; auto.
  match goal with
  | |- context [match ?c with Return _ => _ | Throw m => _ | Diverge => _ end] =>
      destruct c as [u| |]; simpl; auto
  end.
  destruct (IH (Table.withData tb (Table.assign (Table.data tb) idx validated))
               (S updated)) as (Hl & Hn & Hf & Hi).
  rewrite Hl, Hf, Hi. simpl. rewrite length_assign.
  split; [reflexivity|]. split; [|auto].
  intros i Hnot. rewrite Hn by tauto. simpl.
  apply nth_error_assign_other. intros ->. tauto.
Qed.

(** X13.  [update] never adds or removes a row, and it leaves every row
    untouched whose position it did not locate from the rows that [find]
    returned; this holds also when it throws half-way. *)
Theorem update_changes_only_the_rows_it_located
        tb fs conditions updates matched :
  Table.find tb conditions = Return matched ->
  List.length (Table.data (snd (fst (Table.update tb fs conditions updates))))
  = List.length (Table.data tb)
  /\ forall i,
       ~ In i (Table.positionsOf tb matched) ->
       nth_error (Table.data (snd (fst (Table.update tb fs conditions updates)))) i
       = nth_error (Table.data tb) i.
Proof.
  intros Hfind. unfold Table.update. rewrite Hfind.
  destruct (updateRows_rows updates (Table.positionsOf tb matched)
                            (Table.removeOldEntries tb (Table.positionsOf tb matched))
                            0%nat) as (Hl & Hn & _).
  destruct (Table.updateRows _ updates _ 0%nat) as [[updated| |] tb2]; simpl in *;
    auto.
Qed.

(** X14.  When the data file and the index file are two files, every
    mutation that succeeds and affects a row leaves in the data file the
    JSON of the rows in memory and in the index file the indexes in
    memory. *)
Theorem files_mirror_the_table_after_a_mutation tb fs :
  Table.filePath tb <> Table.indexPath tb ->
  (forall record stored tb' fs',
      Table.insert tb fs record = (Return stored, tb', fs') ->
      get fs' (Table.filePath tb')
      = Some (JsonRows (List.map reparseObject (Table.data tb')))
      /\ get fs' (Table.indexPath tb') = Some (JsonIndexes (Table.indexes tb')))
  /\ (forall conditions updates n tb' fs',
         Table.update tb fs conditions updates = (Return (S n), tb', fs') ->
         get fs' (Table.filePath tb')
         = Some (JsonRows (List.map reparseObject (Table.data tb')))
         /\ get fs' (Table.indexPath tb') = Some (JsonIndexes (Table.indexes tb')))
  /\ (forall conditions n tb' fs',
         Table.delete tb fs conditions = (Return (S n), tb', fs') ->
         get fs' (Table.filePath tb')
         = Some (JsonRows (List.map reparseObject (Table.data tb')))
         /\ get fs' (Table.indexPath tb') = Some (JsonIndexes (Table.indexes tb'))).
Proof.
  intros Hne.
  assert (Hsaved : forall tb' : Table.t,
             Table.filePath tb' = Table.filePath tb ->
             Table.indexPath tb' = Table.indexPath tb ->
             get (Table.saveIndexes tb' (Table.save tb' fs)) (Table.filePath tb')
             = Some (JsonRows (List.map reparseObject (Table.data tb')))
             /\ get (Table.saveIndexes tb' (Table.save tb' fs)) (Table.indexPath tb')
                = Some (JsonIndexes (Table.indexes tb'))).
  { intros tb' Hf Hi. unfold Table.saveIndexes, Table.save. split.
    - rewrite get_set_other by (rewrite Hf, Hi; exact Hne). apply get_set_same.
    - apply get_set_same. }
  split; [|split].
  - intros record stored tb' fs'. unfold Table.insert.
    destruct (Table.validateRecord tb record); try discriminate.
    intros H. inversion H; subst; clear H. now apply Hsaved.
  - intros conditions updates n tb' fs'. unfold Table.update.
    destruct (Table.find tb conditions) as [matched| |]; try discriminate.
    destruct (updateRows_rows updates (Table.positionsOf tb matched)
                              (Table.removeOldEntries tb (Table.positionsOf tb matched))
                              0%nat) as (_ & _ & Hf & Hi).
    destruct (Table.updateRows _ updates _ 0%nat) as [[updated| |] tb2];
      try discriminate.
    intros H. inversion H; subst; clear H. simpl in Hf, Hi.
    apply Hsaved; simpl; assumption.
  - intros conditions n tb' fs'. unfold Table.delete.
    destruct (Table.find tb conditions) as [matched| |]; try discriminate.
    intros H. inversion H as [[Hn Htb Hfs]]; clear H.
    rewrite Hn. change (0 <? S n)%nat with true. cbv iota.
    destruct (rebuild_all_keeps_rows
                (fun tb' col =>
                   fold_left
                     (fun ix idx =>
                        Table.indexRemove ix (prop (Table.rowAt tb' idx) col) idx)
                     (Table.sortDescending (Table.positionsOf tb matched))
                     (match get (Table.indexes tb') col with
                      | Some ix => ix
                      | None => nil
                      end))
                (keys (Table.indexes tb)) tb) as (_ & Hf & Hi).
    apply Hsaved; simpl; assumption.
Qed.

End MutationFacts.


(** An update of Bo leaves two rows, and Ann's as it was. *)
Lemma update_changes_only_the_rows_it_located_witness :
  List.length
    (Table.data
       (snd (fst (Table.update (rt := Demo.runtime) (fst Demo.people)
                               (snd Demo.people)
                               [("id", Demo.num 2)] [("age", Demo.num 31)]))))
  = List.length (Table.data (fst Demo.people))
  /\ forall i,
       ~ In i [1%nat] ->
       nth_error
         (Table.data
            (snd (fst (Table.update (rt := Demo.runtime) (fst Demo.people)
                                    (snd Demo.people)
                                    [("id", Demo.num 2)] [("age", Demo.num 31)])))) i
       = nth_error (Table.data (fst Demo.people)) i.
Proof.
  exact (@update_changes_only_the_rows_it_located
           Demo.runtime (fst Demo.people) (snd Demo.people)
           [("id", Demo.num 2)] [("age", Demo.num 31)]
           [[("name", VStr "Bo"); ("age", Demo.num 30); ("id", Demo.num 2)]]
           eq_refl).
Defined.

Lemma people_paths : Table.filePath (fst Demo.people) <> Table.indexPath (fst Demo.people).
Proof. discriminate. Qed.

Lemma files_mirror_the_table_after_a_mutation_witness :
  get (snd (Table.insert (rt := Demo.runtime) (fst Demo.people) (snd Demo.people)
                     [("name", VStr "Cy"); ("nickname", VStr "C")]))
      (Table.filePath (snd (fst (Table.insert (rt := Demo.runtime) (fst Demo.people) (snd Demo.people)
                     [("name", VStr "Cy"); ("nickname", VStr "C")]))))
  = Some (JsonRows
            (List.map (reparseObject (rt := Demo.runtime))
                      (Table.data (snd (fst (Table.insert (rt := Demo.runtime) (fst Demo.people) (snd Demo.people)
                     [("name", VStr "Cy"); ("nickname", VStr "C")]))))))
  /\ get (snd (Table.insert (rt := Demo.runtime) (fst Demo.people) (snd Demo.people)
                     [("name", VStr "Cy"); ("nickname", VStr "C")]))
         (Table.indexPath (snd (fst (Table.insert (rt := Demo.runtime) (fst Demo.people) (snd Demo.people)
                     [("name", VStr "Cy"); ("nickname", VStr "C")]))))
     = Some (JsonIndexes (Table.indexes (snd (fst (Table.insert (rt := Demo.runtime) (fst Demo.people) (snd Demo.people)
                     [("name", VStr "Cy"); ("nickname", VStr "C")]))))).
Proof.
  exact (proj1 (@files_mirror_the_table_after_a_mutation
                  Demo.runtime (fst Demo.people) (snd Demo.people) people_paths)
               _ _ _ _ people_insert_Cy).
Defined.

(* ================================================================== *)
(** * The database *)
(* ================================================================== *)

Section DatabaseFacts.
Context {rt : Runtime}.

Lemma not_in_has_false (A : Type) (o : obj A) k : ~ In k (keys o) -> has o k = false.
Proof.
  intros H. unfold has. now rewrite get_absent.
Qed.

Lemma getTable_other db db' tableName other :
  other <> tableName ->
  get (Database.tables db') other = get (Database.tables db) other ->
  Database.getTable db' other = Database.getTable db other.
Proof.
  intros _ H. unfold Database.getTable. now rewrite H.
Qed.

(** X15.  [createTable] refuses a name that is taken and then changes
    nothing.  For a free name it registers the table it returns under that
    name, leaves the other tables as they are and writes the schema file.
    This is stated for the names that are not those of a member of
    [Object.prototype] (the source finds the inherited member under such a
    name and refuses it as taken), for the schemas none of whose column
    definitions is [null] or [undefined], and for directories in which the
    rows on file for the table, if any, are indexed by the source as by the
    embedding ([Spec.buildsAsEmbedded]). *)
Theorem createTable_registers_the_table_or_refuses db tableName schema :
  Spec.ordinaryName tableName = true ->
  Spec.columnsDefined schema = true ->
  Spec.buildsAsEmbedded (Database.files db) tableName schema = true ->
  if has (Database.tables db) tableName then
    Database.createTable db tableName schema
    = (Throw ("Table '" ++ tableName ++ "' already exists"), db)
  else
    exists tb db',
      Database.createTable db tableName schema = (Return tb, db')
      /\ Database.getTable db' tableName = Return tb
      /\ In tableName (Database.listTables db')
      /\ (forall other, other <> tableName ->
            Database.getTable db' other = Database.getTable db other)
      /\ get (Database.files db') (tableName ++ "_schema.json")
         = Some (JsonSchema (reparseObject schema)).
Proof.
  intros _ _ _. unfold Database.createTable.
  destruct (has (Database.tables db) tableName) eqn:E; [reflexivity|].
  pose proof (new_spec tableName schema
                       (set (Database.files db) (tableName ++ "_schema.json")
                            (JsonSchema (reparseObject schema)))) as (_ & _ & Hfs).
  destruct (Table.new tableName schema _) as [tb fs'].
  eexists. eexists. split; [reflexivity|]. simpl in *.
  split; [|split; [|split]].
  - unfold Database.getTable. simpl. now rewrite get_set_same.
  - unfold Database.listTables. simpl.
    apply get_present with (v := tb). apply get_set_same.
  - intros other Hne. apply getTable_other with (tableName := tableName);
      [assumption|]. simpl. now apply get_set_other.
  - destruct Hfs as [->|[ix ->]].
    + apply get_set_same.
    + rewrite get_set_other by apply schema_not_index. apply get_set_same.
Qed.

(** X16.  [dropTable] refuses a name that is not registered and then
    changes nothing.  Otherwise it forgets the table, removes its data file,
    its index file and its schema file, and leaves the other tables and
    files as they are.  This is stated for the names that are not those of
    a member of [Object.prototype]: under such a name the source finds the
    inherited member in the place of a table. *)
Theorem dropTable_removes_the_table_and_its_files db tableName :
  Spec.ordinaryName tableName = true ->
  match get (Database.tables db) tableName with
  | None =>
      Database.dropTable db tableName
      = (Throw ("Table '" ++ tableName ++ "' does not exist"), db)
  | Some tb =>
      exists db',
        Database.dropTable db tableName = (Return true, db')
        /\ Database.getTable db' tableName
           = Throw ("Table '" ++ tableName ++ "' does not exist")
        /\ ~ In tableName (Database.listTables db')
        /\ (forall other, other <> tableName ->
              Database.getTable db' other = Database.getTable db other)
        /\ (forall f,
              get (Database.files db') f
              = if String.eqb f (Table.filePath tb)
                   || String.eqb f (Table.indexPath tb)
                   || String.eqb f (tableName ++ "_schema.json")
                then None
                else get (Database.files db) f)
  end.
Proof.
  intros _. unfold Database.dropTable.
  destruct (get (Database.tables db) tableName) as [tb|] eqn:E; [|reflexivity].
  eexists. split; [reflexivity|]. simpl.
  split; [|split; [|split]].
  - unfold Database.getTable. simpl. now rewrite get_remove_same.
  - unfold Database.listTables. simpl. apply has_false_not_in.
    unfold has. now rewrite get_remove_same.
  - intros other Hne. apply getTable_other with (tableName := tableName);
      [assumption|]. simpl. now apply get_remove_other.
  - intros f.
    destruct (String.eqb f (tableName ++ "_schema.json")) eqn:E3.
    { apply String.eqb_eq in E3. subst f. rewrite orb_true_r.
      apply get_remove_same. }
    apply String.eqb_neq in E3. rewrite get_remove_other by assumption.
    destruct (String.eqb f (Table.indexPath tb)) eqn:E2.
    { apply String.eqb_eq in E2. subst f. rewrite orb_true_r.
      apply get_remove_same. }
    apply String.eqb_neq in E2. rewrite get_remove_other by assumption.
    destruct (String.eqb f (Table.filePath tb)) eqn:E1.
    { apply String.eqb_eq in E1. subst f. apply get_remove_same. }
    apply String.eqb_neq in E1. now rewrite get_remove_other by assumption.
Qed.

Lemma database_eta (db : Database.t) :
  {| Database.name := Database.name db;
     Database.tables := Database.tables db;
     Database.files := Database.files db |} = db.
Proof. destruct db; reflexivity. Qed.

(** X17.  Dropping a table right after creating it gives back the database
    as it was before, files included, when none of the three files of the
    table existed.  This is stated for the names that are not those of a
    member of [Object.prototype], and for the schemas none of whose column
    definitions is [null] or [undefined], so that the constructor
    returns. *)
Theorem dropTable_undoes_createTable db tableName schema :
  Spec.ordinaryName tableName = true ->
  Spec.columnsDefined schema = true ->
  has (Database.tables db) tableName = false ->
  has (Database.files db) (tableName ++ ".json") = false ->
  has (Database.files db) (tableName ++ "_index.json") = false ->
  has (Database.files db) (tableName ++ "_schema.json") = false ->
  Database.dropTable (snd (Database.createTable db tableName schema)) tableName
  = (Return true, db).
Proof.
  intros _ _ Htb Hdata Hindex Hschema. unfold Database.createTable. rewrite Htb.
  set (fs1 := set (Database.files db) (tableName ++ "_schema.json")
                  (JsonSchema (reparseObject schema))).
  pose proof (new_spec tableName schema fs1) as ([Hf Hi] & _ & Hfs).
  destruct (Table.new tableName schema fs1) as [tb fs'].
  simpl in Hf, Hi, Hfs. unfold Spec.dataFile in Hf. unfold Spec.indexFile in Hi, Hfs.
  simpl. unfold Database.dropTable. simpl. rewrite get_set_same. simpl.
  rewrite Hf, Hi.
  assert (Hd1 : has fs1 (tableName ++ ".json") = false).
  { unfold fs1. rewrite has_set_other by (apply not_eq_sym; apply schema_not_data).
    exact Hdata. }
  assert (Hi1 : has fs1 (tableName ++ "_index.json") = false).
  { unfold fs1. rewrite has_set_other by (apply not_eq_sym; apply schema_not_index).
    exact Hindex. }
  assert (Hfiles : Database.remove
                     (Database.remove (Database.remove fs' (tableName ++ ".json"))
                                      (tableName ++ "_index.json"))
                     (tableName ++ "_schema.json")
                   = Database.files db).
  { destruct Hfs as [->|[ix ->]].
    - rewrite (remove_absent _ fs1 (tableName ++ ".json"))
        by (now apply has_false_not_in).
      rewrite (remove_absent _ fs1 (tableName ++ "_index.json"))
        by (now apply has_false_not_in).
      now apply remove_set_absent.
    - rewrite (remove_absent _ (set fs1 _ _) (tableName ++ ".json")).
      + rewrite remove_set_absent by exact Hi1. now apply remove_set_absent.
      + apply has_false_not_in.
        rewrite has_set_other by (apply not_eq_sym; apply index_not_data).
        exact Hd1. }
  rewrite Hfiles, remove_set_absent by exact Htb.
  now rewrite database_eta.
Qed.

End DatabaseFacts.

(** In the empty database the name [t] is free: the table is created,
    found under its name, listed, and its schema is on disk. *)
Lemma createTable_registers_the_table_or_refuses_witness :
  exists tb db',
    Database.createTable (rt := Demo.runtime) Demo.emptyDb "t" Demo.peopleSchema
    = (Return tb, db')
    /\ Database.getTable db' "t" = Return tb
    /\ In "t" (Database.listTables db')
    /\ (forall other, other <> "t" ->
          Database.getTable db' other = Database.getTable Demo.emptyDb other)
    /\ get (Database.files db') "t_schema.json"
       = Some (JsonSchema (reparseObject (rt := Demo.runtime) Demo.peopleSchema)).
Proof.
  exact (@createTable_registers_the_table_or_refuses
           Demo.runtime Demo.emptyDb "t" Demo.peopleSchema
           eq_refl eq_refl eq_refl).
Defined.

(** Dropping the table of Ann and Bo removes it and its three files. *)
Lemma dropTable_removes_the_table_and_its_files_witness :
  exists db',
    Database.dropTable Demo.peopleStoredDb "t" = (Return true, db')
    /\ Database.getTable db' "t" = Throw "Table 't' does not exist"
    /\ Database.listTables db' = nil
    /\ Database.files db' = nil.
Proof.
  pose proof (@dropTable_removes_the_table_and_its_files
                Demo.peopleStoredDb "t" eq_refl) as H.
  change (get (Database.tables Demo.peopleStoredDb) "t")
    with (Some (fst Demo.peopleStored)) in H.
  cbv beta iota in H. destruct H as (db' & H1 & H2 & _).
  exists db'. split; [exact H1|]. split; [exact H2|].
  assert (E : Database.dropTable Demo.peopleStoredDb "t"
              = (Return true,
                 {| Database.name := "demo"; Database.tables := nil;
                    Database.files := nil |}))
    by (vm_compute; reflexivity).
  rewrite E in H1. inversion H1. split; reflexivity.
Defined.

Lemma dropTable_undoes_createTable_witness :
  Database.dropTable
    (snd (Database.createTable (rt := Demo.runtime) Demo.emptyDb "t" Demo.peopleSchema))
    "t"
  = (Return true, Demo.emptyDb).
Proof.
  exact (@dropTable_undoes_createTable Demo.runtime Demo.emptyDb "t" Demo.peopleSchema
                                       eq_refl eq_refl eq_refl eq_refl eq_refl eq_refl).
Defined.

(* ================================================================== *)
(** * Statements *)
(* ================================================================== *)

Section StatementFacts.
Context {rt : Runtime}.

Lemma store_same db tableName tb :
  Database.getTable db tableName = Return tb ->
  Database.store db tableName tb (Database.files db) = db.
Proof.
  unfold Database.getTable, Database.store.
  destruct (get _ tableName) as [tb0|] eqn:E; [|discriminate].
  intros H. inversion H; subst. rewrite set_same by exact E.
  apply database_eta.
Qed.

Lemma insert_fails_cleanly tb fs record c tb' fs' :
  Table.insert tb fs record = (c, tb', fs') ->
  (exists stored, c = Return stored) \/ (tb' = tb /\ fs' = fs).
Proof.
  unfold Table.insert. destruct (Table.validateRecord tb record);
    intros H; inversion H; subst; eauto.
Qed.

Lemma delete_fails_cleanly tb fs conditions c tb' fs' :
  Table.delete tb fs conditions = (c, tb', fs') ->
  (exists n, c = Return n) \/ (tb' = tb /\ fs' = fs).
Proof.
  unfold Table.delete. destruct (Table.find tb conditions);
    intros H; inversion H; subst; eauto.
Qed.

(** A statement ends well, or it throws or diverges and leaves the
    database as it was. *)
Lemma parseInsert_clean tokens db :
  (exists env, fst (SQLParser.parseInsert tokens db) = Return env
               /\ SQLParser.success env = true)
  \/ ((forall env, fst (SQLParser.parseInsert tokens db) <> Return env)
      /\ snd (SQLParser.parseInsert tokens db) = db).
Proof.
  unfold SQLParser.parseInsert.
  destruct (negb (SQLParser.isKeyword _ "INTO")); [right; split; [discriminate|reflexivity]|].
  destruct (Database.getTable db _) as [table| |] eqn:G;
    [|right; split; [discriminate|reflexivity]..].
  destruct (if SQLParser.isToken _ "(" then _ else _) as [[columns rest]| |];
    [|right; split; [discriminate|reflexivity]..].
  destruct (negb (SQLParser.isKeyword _ "VALUES"));
    [right; split; [discriminate|reflexivity]|].
  destruct (negb (SQLParser.isToken _ "("));
    [right; split; [discriminate|reflexivity]|].
  destruct (SQLParser.insertValues _) as [values| |];
    [|right; split; [discriminate|reflexivity]..].
  destruct (Table.insert table _ _) as [[c table'] fs] eqn:I.
  destruct c as [stored|m|].
  - left. eexists. split; reflexivity.
  - right. split; [discriminate|].
    destruct (insert_fails_cleanly _ _ _ _ _ _ I) as [[stored H]|[-> ->]];
      [discriminate|]. simpl. now apply store_same.
  - right. split; [discriminate|].
    destruct (insert_fails_cleanly _ _ _ _ _ _ I) as [[stored H]|[-> ->]];
      [discriminate|]. simpl. now apply store_same.
Qed.

Lemma parseDelete_clean tokens db :
  (exists env, fst (SQLParser.parseDelete tokens db) = Return env
               /\ SQLParser.success env = true)
  \/ ((forall env, fst (SQLParser.parseDelete tokens db) <> Return env)
      /\ snd (SQLParser.parseDelete tokens db) = db).
Proof.
  unfold SQLParser.parseDelete.
  destruct (negb (SQLParser.isKeyword _ "FROM"));
    [right; split; [discriminate|reflexivity]|].
  destruct (Database.getTable db _) as [table| |] eqn:G;
    [|right; split; [discriminate|reflexivity]..].
  destruct (if SQLParser.isKeyword _ "WHERE" then _ else _) as [conditions| |];
    [|right; split; [discriminate|reflexivity]..].
  destruct (Table.delete table _ _) as [[c table'] fs] eqn:D.
  destruct c as [n|m|].
  - left. eexists. split; reflexivity.
  - right. split; [discriminate|].
    destruct (delete_fails_cleanly _ _ _ _ _ _ D) as [[n H]|[-> ->]];
      [discriminate|]. simpl. now apply store_same.
  - right. split; [discriminate|].
    destruct (delete_fails_cleanly _ _ _ _ _ _ D) as [[n H]|[-> ->]];
      [discriminate|]. simpl. now apply store_same.
Qed.

Lemma parseSelect_clean tokens db :
  (exists env, SQLParser.parseSelect tokens db = Return env
               /\ SQLParser.success env = true)
  \/ (forall env, SQLParser.parseSelect tokens db <> Return env).
Proof.
  unfold SQLParser.parseSelect.
  destruct (SQLParser.selectColumns _) as [columns rest].
  destruct (negb (SQLParser.isKeyword _ "FROM")); [right; discriminate|].
  destruct (Database.getTable db _) as [table| |]; [|right; discriminate..].
  destruct (SQLParser.selectWhere _) as [[conditions| |] rest'];
    [|right; discriminate..].
  destruct (SQLParser.selectOrder rest') as [[orderBy orderDir] rest''].
  destruct (Table.find table conditions); [|right; discriminate..].
  left. eexists. split; reflexivity.
Qed.

Lemma parseUpdate_sound tokens db env :
  fst (SQLParser.parseUpdate tokens db) = Return env ->
  SQLParser.success env = true.
Proof.
  unfold SQLParser.parseUpdate.
  destruct (Database.getTable db _) as [table| |]; try discriminate.
  destruct (negb (SQLParser.isKeyword _ "SET")); try discriminate.
  destruct (SQLParser.updateSet _ _) as [[updates rest]| |]; try discriminate.
  destruct (if SQLParser.isKeyword _ "WHERE" then _ else _) as [conditions| |];
    try discriminate.
  destruct (Table.update table _ _ _) as [[[n| |] table'] fs]; try discriminate.
  simpl. intros H. inversion H. reflexivity.
Qed.

Lemma parseCreate_clean tokens db :
  (exists env, fst (SQLParser.parseCreate tokens db) = Return env
               /\ SQLParser.success env = true)
  \/ ((forall env, fst (SQLParser.parseCreate tokens db) <> Return env)
      /\ snd (SQLParser.parseCreate tokens db) = db).
Proof.
  unfold SQLParser.parseCreate.
  destruct (negb (SQLParser.isKeyword _ "TABLE"));
    [right; split; [discriminate|reflexivity]|].
  destruct (SQLParser.createColumns _ _) as [schema| |];
    [|right; split; [discriminate|reflexivity]..].
  unfold Database.createTable.
  destruct (has _ _); [right; split; [discriminate|reflexivity]|].
  destruct (Table.new _ _ _). left. eexists. split; reflexivity.
Qed.

Lemma parseDrop_clean tokens db :
  (exists env, fst (SQLParser.parseDrop tokens db) = Return env
               /\ SQLParser.success env = true)
  \/ ((forall env, fst (SQLParser.parseDrop tokens db) <> Return env)
      /\ snd (SQLParser.parseDrop tokens db) = db).
Proof.
  unfold SQLParser.parseDrop.
  destruct (negb (SQLParser.isKeyword _ "TABLE"));
    [right; split; [discriminate|reflexivity]|].
  unfold Database.dropTable.
  destruct (get _ _); [|right; split; [discriminate|reflexivity]].
  left. eexists. split; reflexivity.
Qed.

(** X18.  [parseAndExecute] never throws: an error comes back as an
    envelope whose [success] is [false] and whose [error] is the message.
    Such a failure of a statement that is not a CREATE, an INSERT, an
    UPDATE or a DELETE (a SELECT, a DROP, or a command that is not known)
    leaves the database, tables and files, exactly as it was. *)
Theorem failed_statement_changes_nothing sql db :
  (forall m, fst (SQLParser.parseAndExecute sql db) <> Throw m)
  /\ (forall env db',
         SQLParser.parseAndExecute sql db = (Return env, db') ->
         SQLParser.success env = false ->
         (exists m, SQLParser.error env = Some m)
         /\ (existsb (SQLParser.isKeyword (nth_error (SQLParser.tokenize sql) 0))
                     ["CREATE"; "INSERT"; "UPDATE"; "DELETE"] = false ->
             db' = db)).
Proof.
  unfold SQLParser.parseAndExecute.
  set (tokens := SQLParser.tokenize sql).
  set (r := if SQLParser.isKeyword (nth_error tokens 0) "CREATE" then _ else _).
  assert (Hr : (exists env, fst r = Return env /\ SQLParser.success env = true)
               \/ ((forall env, fst r <> Return env)
                   /\ (SQLParser.isKeyword (nth_error tokens 0) "UPDATE" = false ->
                       snd r = db))).
  { unfold r.
    destruct (SQLParser.isKeyword _ "CREATE").
    { destruct (parseCreate_clean tokens db) as [H|[H1 H2]]; [now left|right; auto]. }
    destruct (SQLParser.isKeyword _ "INSERT").
    { destruct (parseInsert_clean tokens db) as [H|[H1 H2]]; [now left|right; auto]. }
    destruct (SQLParser.isKeyword _ "SELECT").
    { destruct (parseSelect_clean tokens db) as [H|H]; [now left|right; auto]. }
    destruct (SQLParser.isKeyword _ "UPDATE") eqn:U.
    { destruct (fst (SQLParser.parseUpdate tokens db)) as [env| |] eqn:E.
      - left. exists env. split; [reflexivity|]. now apply parseUpdate_sound in E.
      - right. split; [discriminate|discriminate].
      - right. split; [discriminate|discriminate]. }
    destruct (SQLParser.isKeyword _ "DELETE").
    { destruct (parseDelete_clean tokens db) as [H|[H1 H2]]; [now left|right; auto]. }
    destruct (SQLParser.isKeyword _ "DROP").
    { destruct (parseDrop_clean tokens db) as [H|[H1 H2]]; [now left|right; auto]. }
    destruct (SQLParser.isKeyword _ "USE").
    { left. eexists. split; reflexivity. }
    right. split; [discriminate|reflexivity]. }
  clearbody r. destruct r as [[env1|m1|] db1]; simpl in *.
  - split; [discriminate|]. intros env db' H Hfail. inversion H; subst.
    destruct Hr as [(env0 & He & Hs)|[Hno _]].
    + inversion He; subst. congruence.
    + exfalso. now apply (Hno env).
  - split; [discriminate|]. intros env db' H Hfail. inversion H; subst.
    split; [simpl; eauto|].
    destruct Hr as [(env0 & He & _)|[_ Hdb]]; [discriminate|].
    intros Hk. apply Hdb. fold tokens in Hk. cbn [existsb] in Hk.
    repeat (apply orb_false_iff in Hk; destruct Hk as [? Hk]). assumption.
  - split; [discriminate|]. intros env db' H. discriminate.
Qed.

End StatementFacts.

(** A SELECT from a table that does not exist: the envelope carries the
    message and the database is the one before. *)
Lemma failed_statement_changes_nothing_witness :
  SQLParser.parseAndExecute (rt := Demo.runtime) "SELECT * FROM nobody" Demo.peopleDb
  = (Return (SQLParser.failure "Table 'nobody' does not exist"), Demo.peopleDb)
  /\ (exists m,
         SQLParser.error (SQLParser.failure "Table 'nobody' does not exist") = Some m)
  /\ Demo.peopleDb = Demo.peopleDb.
Proof.
  assert (E : SQLParser.parseAndExecute (rt := Demo.runtime)
                                        "SELECT * FROM nobody" Demo.peopleDb
              = (Return (SQLParser.failure "Table 'nobody' does not exist"),
                 Demo.peopleDb))
    by (vm_compute; reflexivity).
  split; [exact E|].
  destruct (proj2 (@failed_statement_changes_nothing
                     Demo.runtime "SELECT * FROM nobody" Demo.peopleDb)
                  _ _ E eq_refl) as [Hm Hdb].
  split; [exact Hm|]. exact (Hdb eq_refl).
Defined.

Section InsertLists.

Lemma plain_tokens tok :
  Spec.plain tok = true -> String.eqb tok "," = false /\ String.eqb tok ")" = false.
Proof.
  unfold Spec.plain. destruct (String.eqb tok ","), (String.eqb tok ")");
    simpl; intros H; try discriminate; auto.
Qed.

Lemma insertColumns_commaList rest cols :
  Forall (fun tok => Spec.plain tok = true) cols ->
  SQLParser.insertColumns (Spec.commaList cols ++ ")" :: rest) = Return (cols, rest).
Proof.
  induction cols as [|c cols IH]; intros H; [reflexivity|].
  inversion H as [|? ? Hc Hcols]; subst.
  destruct (plain_tokens _ Hc) as [_ Hclose].
  destruct cols as [|c' more].
  - simpl. rewrite Hclose. reflexivity.
  - specialize (IH Hcols).
    change (Spec.commaList (c :: c' :: more))
      with (c :: "," :: Spec.commaList (c' :: more)).
    cbn [app SQLParser.insertColumns]. rewrite Hclose.
    change (String.eqb "," ",") with true. cbv iota.
    now rewrite IH.
Qed.

Lemma insertValues_commaList rest vals :
  Forall (fun tok => Spec.plain tok = true) vals ->
  SQLParser.insertValues (Spec.commaList vals ++ ")" :: rest)
  = Return (List.map SQLParser.parseInsert_value vals).
Proof.
  induction vals as [|v vals IH]; intros H; [reflexivity|].
  inversion H as [|? ? Hv Hvals]; subst.
  destruct (plain_tokens _ Hv) as [_ Hclose].
  destruct vals as [|v' more].
  - simpl. rewrite Hclose. reflexivity.
  - specialize (IH Hvals).
    change (Spec.commaList (v :: v' :: more))
      with (v :: "," :: Spec.commaList (v' :: more)).
    cbn [app SQLParser.insertValues]. rewrite Hclose.
    change (String.eqb "," ",") with true. cbv iota.
    now rewrite IH.
Qed.

Lemma pairUp_other c columns : forall record values,
  ~ In c columns ->
  get (SQLParser.pairUp record columns values) c = get record c.
Proof.
  induction columns as [|c' cs IH]; simpl; intros record values H; [reflexivity|].
  rewrite IH by tauto. apply get_set_other. intros ->. tauto.
Qed.

Lemma pairUp_position columns : forall record values j c,
  NoDup columns -> nth_error columns j = Some c ->
  get (SQLParser.pairUp record columns values) c
  = Some (match nth_error values j with Some v => v | None => VUndefined end).
Proof.
  induction columns as [|c' cs IH]; intros record values j c Hnd Hj.
  - destruct j; discriminate.
  - inversion Hnd as [|? ? Hnot Hnd']; subst. destruct j as [|j]; simpl in *.
    + inversion Hj; subst. rewrite pairUp_other by assumption.
      rewrite get_set_same. destruct values; reflexivity.
    + rewrite (IH _ (List.tl values) j c Hnd' Hj).
      destruct values as [|v vs]; [destruct j|]; reflexivity.
Qed.


End InsertLists.


Section SelectFacts.
Context {rt : Runtime}.

Lemma project_row (row : object) k columns : forall selected,
  (get selected k = None \/ get selected k = get row k) ->
  get (fold_left
         (fun selected col =>
            if has row col then set selected col (prop row col) else selected)
         columns selected) k
  = if existsb (String.eqb k) columns then get row k else get selected k.
Proof.
  induction columns as [|col columns IH]; simpl; intros selected Hsel; [reflexivity|].
  assert (Hstep : get (if has row col then set selected col (prop row col)
                       else selected) k
                  = if String.eqb k col then get row k else get selected k).
  { destruct (String.eqb k col) eqn:E.
    - apply String.eqb_eq in E. subst col. unfold has, prop.
      destruct (get row k) as [v|] eqn:G.
      + apply get_set_same.
      + destruct Hsel as [H|H]; congruence.
    - apply String.eqb_neq in E.
      destruct (has row col); [now apply get_set_other|reflexivity]. }
  rewrite IH.
  - rewrite Hstep. destruct (String.eqb k col), (existsb _ columns); simpl;
      try reflexivity.
  - rewrite Hstep. destruct (String.eqb k col); auto.
Qed.


Lemma insertSorted_Permutation cmp x sorted :
  Permutation (SQLParser.insertSorted cmp x sorted) (x :: sorted).
Proof.
  induction sorted as [|y rest IH]; simpl; [reflexivity|].
  destruct (0 <? cmp y x); [reflexivity|].
  rewrite IH. apply perm_swap.
Qed.

Lemma sort_Permutation cmp l :
  Permutation (SQLParser.sort cmp l) l.
Proof.
  unfold SQLParser.sort.
  assert (H : forall acc,
             Permutation (fold_left (fun sorted x => SQLParser.insertSorted cmp x sorted)
                                    l acc)
                         (l ++ acc)).
  { induction l as [|x l IH]; intros acc; simpl; [reflexivity|].
    rewrite IH. rewrite insertSorted_Permutation. symmetry. apply Permutation_middle. }
  rewrite H. now rewrite app_nil_r.
Qed.

(** X21.  ORDER BY only reorders: whatever the column, the direction and
    the values, the rows after the ordering are the rows before it, each as
    often as before. *)
Theorem ordering_is_a_permutation orderBy orderDir results :
  Permutation (SQLParser.applyOrder orderBy orderDir results) results.
Proof.
  unfold SQLParser.applyOrder. destruct orderBy as [c|]; [|reflexivity].
  destruct (String.eqb c ""); [reflexivity|]. apply sort_Permutation.
Qed.

End SelectFacts.


(* ================================================================== *)
(** * JSON, coercion and comparison *)
(* ================================================================== *)

Section ValueFacts.
Context {rt : Runtime}.

(** Induction on values, with the hypothesis for every item of an array
    and every property of an object. *)
Lemma value_nested_ind (P : value -> Prop) :
  P VUndefined -> P VNull -> (forall b, P (VBool b)) -> (forall n, P (VNum n)) ->
  (forall s, P (VStr s)) -> (forall t, P (VDate t)) ->
  (forall items, Forall P items -> P (VArr items)) ->
  (forall fields, Forall (fun kv => P (snd kv)) fields -> P (VObj fields)) ->
  forall v, P v.
Proof.
  intros Hu Hn Hb Hnum Hs Hd Ha Ho.
  fix IH 1. intros [| |b|n|s|t|items|fields].
  - exact Hu.
  - exact Hn.
  - apply Hb.
  - apply Hnum.
  - apply Hs.
  - apply Hd.
  - apply Ha. induction items as [|x items IHitems]; constructor.
    + apply IH.
    + exact IHitems.
  - apply Ho. induction fields as [|[k x] fields IHfields]; constructor.
    + apply IH.
    + exact IHfields.
Qed.

Lemma reparse_idempotent (v : value) : reparse (reparse v) = reparse v.
Proof.
  induction v as [| |b|n|s|t|items IH|fields IH] using value_nested_ind;
    try reflexivity.
  - destruct n; reflexivity.
  - simpl. destruct (isNaN t); reflexivity.
  - simpl. f_equal. rewrite map_map.
    induction IH as [|x items Hx _ IHitems]; [reflexivity|].
    simpl. rewrite IHitems. f_equal.
    destruct (reparse x) eqn:E; simpl in Hx |- *; try reflexivity;
      try assumption; try (rewrite Hx; reflexivity);
      try (destruct (isNaN _); discriminate).
  - simpl. f_equal.
    induction IH as [|[k x] fields Hx _ IHfields]; [reflexivity|].
    simpl in Hx.
    destruct (reparse x) eqn:E; try exact IHfields;
      rewrite Hx; f_equal; exact IHfields.
Qed.

(** X22.  Writing a value as JSON and reading it back is idempotent: a
    value that has been through a file once comes back from the next file as
    it is.  In particular every row that [save] writes is a row that the
    next [save] writes unchanged. *)
Theorem json_round_trip_is_idempotent :
  (forall v, reparse (reparse v) = reparse v)
  /\ (forall row, Spec.jsonStable (reparseObject row))
  /\ (forall tb fs,
         exists rows,
           get (Table.save tb fs) (Table.filePath tb) = Some (JsonRows rows)
           /\ Forall Spec.jsonStable rows).
Proof.
  assert (Hobj : forall row, Spec.jsonStable (reparseObject row)).
  { intros row. unfold Spec.jsonStable, reparseObject.
    pose proof (reparse_idempotent (VObj row)) as H.
    destruct (reparse (VObj row)) eqn:E; try discriminate E.
    now rewrite H. }
  split; [exact reparse_idempotent|]. split; [exact Hobj|].
  intros tb fs. eexists. unfold Table.save. split; [apply get_set_same|].
  apply Forall_forall. intros row Hin. apply in_map_iff in Hin.
  destruct Hin as (r & <- & _). apply Hobj.
Qed.

Lemma newDate_is_date (v : value) : exists t, Table.newDate v = VDate t.
Proof.
  unfold Table.newDate. destruct v; try (destruct (ToPrimitive _)); eauto.
Qed.

(** X23.  Coercion is stable: coercing a coerced value to the same type
    gives the same value again (for a date, a date with the same time
    value),
    and a value coerced to string, number or boolean passes the type check
    of that type. *)
Theorem coerced_values_are_stable (v type : value) :
  Table.coerceValue (Table.coerceValue v type) type = Table.coerceValue v type
  /\ (Table.isType type "string" || Table.isType type "number"
      || Table.isType type "boolean" = true ->
      Table.validateType (Table.coerceValue v type) type = true).
Proof.
  unfold Table.coerceValue, Table.validateType.
  destruct (Table.isType type "string") eqn:H1.
  { destruct v; simpl; rewrite ?H1; auto. }
  destruct (Table.isType type "number") eqn:H2.
  { destruct v; simpl; rewrite ?H1, ?H2; auto;
      match goal with
      | |- context [isNaN ?n] =>
          destruct (isNaN n) eqn:Hn; simpl; rewrite ?H1, ?H2, ?Hn; auto
      end. }
  destruct (Table.isType type "boolean") eqn:H3.
  { destruct v; simpl; rewrite ?H1, ?H2, ?H3; auto. }
  simpl. split; [|discriminate].
  destruct (Table.isType type "date") eqn:H4.
  - destruct v; try reflexivity;
      match goal with
      | |- context [Table.newDate ?x] =>
          destruct (newDate_is_date x) as [t ->]; rewrite H1, H2, H3, H4; reflexivity
      end.
  - destruct v; rewrite ?H1, ?H2, ?H3, ?H4; reflexivity.
Qed.

Lemma lessThan_undefined (c : value) :
  lessThan VUndefined c = None /\ lessThan c VUndefined = None.
Proof.
  unfold lessThan. split.
  - simpl. destruct (ToPrimitiveNumber c); reflexivity.
  - simpl. destruct (ToPrimitiveNumber c) as [| |b|n|s|t|items|fields];
      unfold numLt; simpl; try reflexivity.
    + destruct b; reflexivity.
    + destruct n; reflexivity.
    + destruct (StringToNumber s); reflexivity.
    + destruct t; reflexivity.
    + destruct (StringToNumber _); reflexivity.
Qed.

(** X24.  A missing field satisfies none of the four ordering operators,
    on either side and whatever it is compared with: a row without the field
    is never selected by [>], [<], [>=] or [<=]. *)
Theorem missing_field_fails_every_ordering (operator : string) (c : value) :
  In operator [">"; "<"; ">="; "<="] ->
  Table.compare VUndefined operator c = Return false
  /\ Table.compare c operator VUndefined = Return false.
Proof.
  destruct (lessThan_undefined c) as [H1 H2].
  intros [<-|[<-|[<-|[<-|[]]]]]; unfold Table.compare; simpl;
    unfold jsGt, jsLt, jsGe, jsLe; rewrite ?H1, ?H2; auto.
Qed.

End ValueFacts.

Lemma coerced_values_are_stable_witness :
  Table.coerceValue (rt := Demo.runtime)
                    (Table.coerceValue (rt := Demo.runtime) (VStr "12") (VStr "number"))
                    (VStr "number")
  = Table.coerceValue (rt := Demo.runtime) (VStr "12") (VStr "number")
  /\ Table.validateType (rt := Demo.runtime)
                        (Table.coerceValue (rt := Demo.runtime) (VStr "12")
                                           (VStr "number"))
                        (VStr "number") = true.
Proof.
  exact (conj (proj1 (@coerced_values_are_stable Demo.runtime (VStr "12") (VStr "number")))
              (proj2 (@coerced_values_are_stable Demo.runtime (VStr "12") (VStr "number"))
                     eq_refl)).
Defined.

Lemma missing_field_fails_every_ordering_witness :
  Table.compare (rt := Demo.runtime) VUndefined ">=" (Demo.num 0) = Return false
  /\ Table.compare (rt := Demo.runtime) (Demo.num 0) ">=" VUndefined = Return false.
Proof.
  apply (@missing_field_fails_every_ordering Demo.runtime ">=" (Demo.num 0)).
  simpl. auto.
Defined.

(* ================================================================== *)
(** * CREATE TABLE *)
(* ================================================================== *)

Section CreateFacts.
Context {rt : Runtime}.

(** What is known of the columns of a parsed schema: a column comes from
    the schema the loops started with, or it is an object whose [type] is
    the lower-case form of one of the tokens. *)
Lemma typed_weaken (schema : object) (r : completion object) (toks toks' : list string) :
  incl toks toks' ->
  (r <> Diverge
   /\ forall s, r = Return s ->
        forall column def, get s column = Some def ->
          get schema column = Some def
          \/ exists fields dataType,
               def = VObj fields /\ In dataType toks
               /\ get fields "type" = Some (VStr (Str.toLowerCase dataType))) ->
  r <> Diverge
  /\ forall s, r = Return s ->
       forall column def, get s column = Some def ->
         get schema column = Some def
         \/ exists fields dataType,
              def = VObj fields /\ In dataType toks'
              /\ get fields "type" = Some (VStr (Str.toLowerCase dataType)).
Proof.
  intros Hincl [Hd H]. split; [exact Hd|].
  intros s Hs column def Hget.
  destruct (H s Hs column def Hget) as [Hold|(fields & dt & Hdef & Hin & Hty)];
    [now left|].
  right. exists fields, dt. auto.
Qed.

Lemma typed_column (schema : object) columnName columnDef dataType toks :
  get columnDef "type" = Some (VStr (Str.toLowerCase dataType)) ->
  Return (set schema columnName (VObj columnDef)) <> Diverge
  /\ forall s, Return (set schema columnName (VObj columnDef)) = Return s ->
       forall column def, get s column = Some def ->
         get schema column = Some def
         \/ exists fields dt,
              def = VObj fields /\ In dt (dataType :: toks)
              /\ get fields "type" = Some (VStr (Str.toLowerCase dt)).
Proof.
  intros Hty. split; [discriminate|].
  intros s Hs column def Hget. inversion Hs; subst; clear Hs.
  destruct (string_dec column columnName) as [->|Hne].
  - rewrite get_set_same in Hget. inversion Hget; subst.
    right. exists columnDef, dataType. simpl. auto.
  - rewrite get_set_other in Hget by assumption. now left.
Qed.

Lemma createColumns_types : forall n rest schema,
  (List.length rest <= n)%nat ->
  SQLParser.createColumns schema rest <> Diverge
  /\ forall s, SQLParser.createColumns schema rest = Return s ->
       forall column def, get s column = Some def ->
         get schema column = Some def
         \/ exists fields dataType,
              def = VObj fields /\ In dataType rest
              /\ get fields "type" = Some (VStr (Str.toLowerCase dataType)).
Proof.
  assert (Hsame : forall (schema : object) toks,
             Return schema <> Diverge
             /\ forall s, Return schema = Return s ->
                  forall column def, get s column = Some def ->
                    get schema column = Some def
                    \/ exists fields dataType,
                         def = VObj fields /\ In dataType toks
                         /\ get fields "type" = Some (VStr (Str.toLowerCase dataType))).
  { intros schema toks. split; [discriminate|].
    intros s H. inversion H; subst. auto. }
  induction n as [|n IHn]; intros rest schema Hlen.
  { destruct rest; [|simpl in Hlen; lia]. apply Hsame. }
  destruct rest as [|columnName [|dataType r1]]; [apply Hsame| |].
  { cbn [SQLParser.createColumns].
    destruct (String.eqb columnName ")"); [apply Hsame|].
    split; discriminate. }
  cbn [SQLParser.createColumns].
  destruct (String.eqb columnName ")"); [apply Hsame|].
  match goal with
  | |- context [?f [("type", VStr (Str.toLowerCase dataType))] r1] =>
      set (constraints := f)
  end.
  assert (Hlen1 : (List.length r1 <= n)%nat) by (simpl in Hlen; lia).
  assert (Hnext : forall columnDef l,
             (List.length l <= n)%nat ->
             get columnDef "type" = Some (VStr (Str.toLowerCase dataType)) ->
             SQLParser.createColumns (set schema columnName (VObj columnDef)) l
             <> Diverge
             /\ forall s,
                  SQLParser.createColumns (set schema columnName (VObj columnDef)) l
                  = Return s ->
                  forall column def, get s column = Some def ->
                    get schema column = Some def
                    \/ exists fields dt,
                         def = VObj fields /\ In dt (dataType :: l)
                         /\ get fields "type" = Some (VStr (Str.toLowerCase dt))).
  { intros columnDef l Hl Hty. destruct (IHn l (set schema columnName (VObj columnDef)) Hl)
      as [Hd H].
    split; [exact Hd|]. intros s Hs column def Hget.
    destruct (H s Hs column def Hget) as [Hold|(fields & dt & Hdef & Hin & Hty')].
    - destruct (typed_column schema columnName columnDef dataType l Hty) as [_ Hc].
      exact (Hc _ eq_refl column def Hold).
    - right. exists fields, dt. simpl. auto. }
  assert (Hinner : forall m l columnDef,
             (List.length l <= m)%nat -> (m <= n)%nat ->
             get columnDef "type" = Some (VStr (Str.toLowerCase dataType)) ->
             constraints columnDef l <> Diverge
             /\ forall s, constraints columnDef l = Return s ->
                  forall column def, get s column = Some def ->
                    get schema column = Some def
                    \/ exists fields dt,
                         def = VObj fields /\ In dt (dataType :: l)
                         /\ get fields "type" = Some (VStr (Str.toLowerCase dt))).
  { induction m as [|m IHm]; intros l columnDef Hl Hm Hty.
    { destruct l; [|simpl in Hl; lia]. unfold constraints. cbn [app].
      now apply typed_column. }
    destruct l as [|tok l'];
      [unfold constraints; cbn [app]; now apply typed_column|].
    assert (Hl' : (List.length l' <= m)%nat) by (simpl in Hl; lia).
    assert (Hrec : forall l2 def2,
               (List.length l2 <= m)%nat -> incl l2 l' ->
               get def2 "type" = Some (VStr (Str.toLowerCase dataType)) ->
               constraints def2 l2 <> Diverge
               /\ forall s, constraints def2 l2 = Return s ->
                    forall column def, get s column = Some def ->
                      get schema column = Some def
                      \/ exists fields dt,
                           def = VObj fields /\ In dt (dataType :: tok :: l')
                           /\ get fields "type" = Some (VStr (Str.toLowerCase dt))).
    { intros l2 def2 H2 Hincl Hty2.
      apply typed_weaken with (toks := dataType :: l2).
      - intros x [->|Hx]; [now left|]. right. right. now apply Hincl.
      - apply IHm; [assumption|lia|assumption]. }
    assert (Hskip : forall kw,
               (List.length (match l' with
                             | k :: l'' => if String.eqb k kw then l'' else l'
                             | nil => l'
                             end) <= m)%nat
               /\ incl (match l' with
                        | k :: l'' => if String.eqb k kw then l'' else l'
                        | nil => l'
                        end) l').
    { intros kw. destruct l' as [|k l'']; [split; [assumption|apply incl_refl]|].
      destruct (String.eqb k kw).
      - split; [simpl in Hl'; lia|apply incl_tl, incl_refl].
      - split; [assumption|apply incl_refl]. }
    unfold constraints. cbn [app]. fold constraints.
    destruct (String.eqb tok ",").
    { apply typed_weaken with (toks := dataType :: l').
      - intros x [->|Hx]; [now left|]. right. now right.
      - apply Hnext; [lia|assumption]. }
    destruct (String.eqb tok ")").
    { now apply typed_column. }
    destruct (String.eqb (Str.toUpperCase tok) "PRIMARY").
    { destruct (Hskip "KEY") as [H1 H2]. apply Hrec; [assumption..|].
      now rewrite get_set_other by discriminate. }
    destruct (String.eqb (Str.toUpperCase tok) "UNIQUE").
    { apply Hrec; [assumption|apply incl_refl|].
      now rewrite get_set_other by discriminate. }
    destruct (String.eqb (Str.toUpperCase tok) "AUTO_INCREMENT").
    { apply Hrec; [assumption|apply incl_refl|].
      now rewrite get_set_other by discriminate. }
    destruct (String.eqb (Str.toUpperCase tok) "NOT").
    { destruct (Hskip "NULL") as [H1 H2]. apply Hrec; [assumption..|].
      now rewrite get_set_other by discriminate. }
    destruct (String.eqb (Str.toUpperCase tok) "DEFAULT").
    { destruct l' as [|v l''].
      - apply typed_column. now rewrite get_set_other by discriminate.
      - apply Hrec; [simpl in Hl'; lia|apply incl_tl, incl_refl|].
        now rewrite get_set_other by discriminate. }
    apply Hrec; [assumption|apply incl_refl|assumption]. }
  apply typed_weaken with (toks := dataType :: r1).
  - intros x Hx. now right.
  - apply (Hinner n r1); [assumption|lia|reflexivity].
Qed.

(** X25.  The two loops of CREATE TABLE always end, and every column they
    add to the schema is an object whose [type] is the lower-case form of a
    token of the statement: the type is taken as written, and any word is
    accepted as a type. *)
Theorem create_columns_are_typed_by_a_token schema rest :
  SQLParser.createColumns schema rest <> Diverge
  /\ forall s, SQLParser.createColumns schema rest = Return s ->
       forall column def, get s column = Some def ->
         get schema column = Some def
         \/ exists fields dataType,
              def = VObj fields /\ In dataType rest
              /\ get fields "type" = Some (VStr (Str.toLowerCase dataType)).
Proof.
  apply (createColumns_types (List.length rest)). lia.
Qed.

(** X26.  A CREATE TABLE statement that succeeds registers, under the name
    given, a table whose schema is the normalized form of the parsed
    columns, and answers that the table is created. *)
Theorem create_statement_registers_the_parsed_schema tokens db env db' :
  SQLParser.parseCreate tokens db = (Return env, db') ->
  exists schema tb,
    SQLParser.createColumns nil (skipn 4 tokens) = Return schema
    /\ Database.getTable db' (SQLParser.text (nth_error tokens 2)) = Return tb
    /\ Table.schema tb = Table.normalizeSchema schema
    /\ env = SQLParser.ok ("Table " ++ SQLParser.text (nth_error tokens 2) ++ " created")
                          SQLParser.NoData.
Proof.
  unfold SQLParser.parseCreate.
  destruct (negb (SQLParser.isKeyword _ "TABLE")); [discriminate|].
  destruct (SQLParser.createColumns _ _) as [schema| |]; try discriminate.
  unfold Database.createTable.
  destruct (has _ _); [discriminate|].
  pose proof (new_schema (SQLParser.text (nth_error tokens 2)) schema
                         (set (Database.files db)
                              (SQLParser.text (nth_error tokens 2) ++ "_schema.json")
                              (JsonSchema (reparseObject schema)))) as Hsch.
  destruct (Table.new _ _ _) as [tb fs'].
  intros H. inversion H; subst; clear H.
  exists schema, tb. split; [reflexivity|]. split; [|split; [exact Hsch|reflexivity]].
  unfold Database.getTable. simpl. now rewrite get_set_same.
Qed.

End CreateFacts.

Lemma create_statement_registers_the_parsed_schema_witness :
  exists schema tb,
    SQLParser.createColumns
      nil (skipn 4 (SQLParser.tokenize
                      "CREATE TABLE users (id INT PRIMARY KEY, name VARCHAR NOT NULL)"))
    = Return schema
    /\ Database.getTable
         (snd (SQLParser.parseCreate
                 (rt := Demo.runtime)
                 (SQLParser.tokenize
                    "CREATE TABLE users (id INT PRIMARY KEY, name VARCHAR NOT NULL)")
                 Demo.emptyDb))
         (SQLParser.text
            (nth_error
               (SQLParser.tokenize
                  "CREATE TABLE users (id INT PRIMARY KEY, name VARCHAR NOT NULL)") 2))
       = Return tb
    /\ Table.schema tb = Table.normalizeSchema schema
    /\ SQLParser.ok "Table users created" SQLParser.NoData
       = SQLParser.ok
           ("Table "
              ++ SQLParser.text
                   (nth_error
                      (SQLParser.tokenize
                         "CREATE TABLE users (id INT PRIMARY KEY, name VARCHAR NOT NULL)")
                      2)
              ++ " created")
           SQLParser.NoData.
Proof.
  assert (E : SQLParser.parseCreate
                (rt := Demo.runtime)
                (SQLParser.tokenize
                   "CREATE TABLE users (id INT PRIMARY KEY, name VARCHAR NOT NULL)")
                Demo.emptyDb
              = (Return (SQLParser.ok "Table users created" SQLParser.NoData),
                 snd (SQLParser.parseCreate
                        (rt := Demo.runtime)
                        (SQLParser.tokenize
                           "CREATE TABLE users (id INT PRIMARY KEY, name VARCHAR NOT NULL)")
                        Demo.emptyDb)))
    by (vm_compute; reflexivity).
  exact (@create_statement_registers_the_parsed_schema Demo.runtime _ _ _ _ E).
Defined.

(* ================================================================== *)
(** * The tokenizer *)
(* ================================================================== *)

Section TokenFacts.

Lemma chars_ofChars (l : list ascii) : Str.chars (Str.ofChars l) = l.
Proof. apply list_ascii_of_string_of_list_ascii. Qed.

Lemma ofChars_nonempty (l : list ascii) : l <> nil -> Str.ofChars l <> "".
Proof. destruct l; [contradiction|discriminate]. Qed.

(** The words of a text: none is empty, none holds white space, and
    their characters are characters of the text. *)
Lemma splitSpaces_words (s : string) : forall cur,
  (forall c, In c cur -> Str.isSpace c = false) ->
  Forall (fun tok =>
            tok <> ""
            /\ forall c, In c (Str.chars tok) ->
                         Str.isSpace c = false /\ (In c cur \/ In c (Str.chars s)))
         (Str.splitSpaces cur s).
Proof.
  assert (Hflush : forall s' cur,
             (forall c, In c cur -> Str.isSpace c = false) ->
             Forall (fun tok =>
                       tok <> ""
                       /\ forall c, In c (Str.chars tok) ->
                                    Str.isSpace c = false
                                    /\ (In c cur \/ In c (Str.chars s')))
                    (match cur with
                     | nil => nil
                     | _ => [Str.ofChars (List.rev cur)]
                     end)).
  { intros s' cur Hcur. destruct cur as [|a cur]; constructor; [|constructor].
    split.
    - apply ofChars_nonempty. intros H.
      apply (f_equal (@List.length ascii)) in H. rewrite length_rev in H.
      discriminate.
    - intros c. rewrite chars_ofChars. intros Hin. apply in_rev in Hin. auto. }
  induction s as [|d r IH]; intros cur Hcur.
  - apply Hflush. assumption.
  - cbn [Str.splitSpaces]. destruct (Str.isSpace d) eqn:E.
    + apply Forall_app. split; [now apply Hflush|].
      eapply Forall_impl; [|apply (IH nil); intros c []].
      intros tok [Hne Hc]. split; [assumption|]. intros c Hin.
      destruct (Hc c Hin) as [Hs [[]|Hr]]. split; [assumption|].
      right. now right.
    + eapply Forall_impl; [|apply (IH (d :: cur))].
      * intros tok [Hne Hc]. split; [assumption|]. intros c Hin.
        destruct (Hc c Hin) as [Hs [[->|Hcur']|Hr]]; split; auto.
        -- right. now left.
        -- right. now right.
      * intros c [->|Hin]; auto.
Qed.

Lemma setApart_weaken c (s : string) before :
  Spec.setApart c false s -> Spec.setApart c before s.
Proof.
  destruct s as [|d r]; [trivial|]. simpl. intros [H1 H2]. split; [|assumption].
  intros Hd. destruct (H1 Hd) as [Hf _]. discriminate.
Qed.

(** Putting a character between two spaces sets it apart. *)
Lemma replaceAll_sets_apart c (s : string) :
  Str.isSpace c = false ->
  forall before,
    Spec.setApart c before
                  (Str.replaceAll c (String " " (String c (String " " ""))) s).
Proof.
  intros Hc. induction s as [|d r IH]; intros before; [exact I|].
  cbn [Str.replaceAll]. destruct (Ascii.eqb d c) eqn:E.
  - apply Ascii.eqb_eq in E. subst d. cbn [append Spec.setApart].
    split; [intros H; rewrite <- H in Hc; discriminate|].
    split; [intros _; split; [reflexivity|eauto]|].
    split; [intros H; rewrite <- H in Hc; discriminate|].
    apply IH.
  - apply Ascii.eqb_neq in E. cbn [Spec.setApart]. split; [contradiction|apply IH].
Qed.

(** Replacing another character, by nothing or by itself between two
    spaces, keeps a character apart. *)
Lemma replaceAll_keeps_apart c d by_ (s : string) :
  d <> c -> Str.isSpace d = false -> Str.isSpace c = false ->
  by_ = "" \/ by_ = String " " (String d (String " " "")) ->
  forall before,
    Spec.setApart c before s -> Spec.setApart c before (Str.replaceAll d by_ s).
Proof.
  intros Hdc Hd Hc Hby. induction s as [|x r IH]; intros before; [trivial|].
  cbn [Str.replaceAll Spec.setApart]. intros [Hx Hr].
  destruct (Ascii.eqb x d) eqn:E.
  - apply Ascii.eqb_eq in E. subst x. rewrite Hd in Hr.
    apply IH in Hr. destruct Hby as [ -> | -> ].
    + cbn [append]. now apply setApart_weaken.
    + cbn [append Spec.setApart].
      split; [intros H; rewrite <- H in Hc; discriminate|].
      split; [intros H; contradiction|].
      split; [intros H; rewrite <- H in Hc; discriminate|].
      now apply setApart_weaken.
  - apply Ascii.eqb_neq in E. cbn [Spec.setApart]. split; [|now apply IH].
    intros Hxc. destruct (Hx Hxc) as (Hb & e & r' & -> & He).
    split; [assumption|]. cbn [Str.replaceAll].
    destruct (Ascii.eqb e d) eqn:E'.
    + apply Ascii.eqb_eq in E'. subst e. congruence.
    + eauto.
Qed.

Lemma replaceAll_removes c (s : string) :
  ~ In c (Str.chars (Str.replaceAll c "" s)).
Proof.
  induction s as [|d r IH]; [intros []|].
  cbn [Str.replaceAll]. destruct (Ascii.eqb d c) eqn:E; [exact IH|].
  apply Ascii.eqb_neq in E. intros [H|H]; [congruence|now apply IH].
Qed.

(** A character that is set apart is a word of its own. *)
Lemma splitSpaces_apart c (s : string) :
  Str.isSpace c = false ->
  forall cur,
    Spec.setApart c (match cur with nil => true | _ => false end) s ->
    (~ In c cur
     \/ (cur = [c] /\ exists e r', s = String e r' /\ Str.isSpace e = true)) ->
    Forall (fun tok => In c (Str.chars tok) -> tok = String c "")
           (Str.splitSpaces cur s).
Proof.
  intros Hc. induction s as [|d r IH]; intros cur Hs Hcur.
  - destruct Hcur as [Hnot|(_ & e & r' & H & _)]; [|discriminate].
    cbn [Str.splitSpaces]. destruct cur as [|a cur]; constructor; [|constructor].
    rewrite chars_ofChars. intros Hin. apply in_rev in Hin. contradiction.
  - cbn [Str.splitSpaces]. cbn [Spec.setApart] in Hs. destruct Hs as [Hd Hr].
    destruct (Str.isSpace d) eqn:E.
    + apply Forall_app. split.
      * destruct Hcur as [Hnot|(-> & _)].
        -- destruct cur as [|a cur]; constructor; [|constructor].
           rewrite chars_ofChars. intros Hin. apply in_rev in Hin. contradiction.
        -- constructor; [reflexivity|constructor].
      * apply IH; [exact Hr|]. left. intros [].
    + destruct Hcur as [Hnot|(_ & e & r' & H & He)].
      * apply IH; [exact Hr|].
        destruct (ascii_dec d c) as [->|Hne].
        -- destruct (Hd eq_refl) as (Hb & e & r' & Hr' & He).
           destruct cur as [|a cur]; [|discriminate]. right. eauto.
        -- left. intros [H|H]; [congruence|contradiction].
      * inversion H; subst. congruence.
Qed.

(** X27.  The tokens of a statement: none is empty, none holds white space
    or a semicolon, and a parenthesis or a comma is always a token of its
    own. *)
Theorem tokens_are_words_and_punctuation (sql : string) :
  Forall (fun tok =>
            tok <> ""
            /\ forall c, In c (Str.chars tok) ->
                 Str.isSpace c = false
                 /\ c <> ";"%char
                 /\ (c = "("%char \/ c = ")"%char \/ c = ","%char ->
                     tok = String c ""))
         (SQLParser.tokenize sql).
Proof.
  unfold SQLParser.tokenize.
  set (s1 := Str.replaceAll "(" " ( " sql).
  set (s2 := Str.replaceAll ")" " ) " s1).
  set (s3 := Str.replaceAll "," " , " s2).
  set (s4 := Str.replaceAll ";" "" s3).
  assert (Hopen : Spec.setApart "(" true s4).
  { unfold s4, s3, s2, s1.
    apply replaceAll_keeps_apart; [discriminate|reflexivity|reflexivity|now left|].
    apply replaceAll_keeps_apart; [discriminate|reflexivity|reflexivity|now right|].
    apply replaceAll_keeps_apart; [discriminate|reflexivity|reflexivity|now right|].
    now apply replaceAll_sets_apart. }
  assert (Hclose : Spec.setApart ")" true s4).
  { unfold s4, s3, s2.
    apply replaceAll_keeps_apart; [discriminate|reflexivity|reflexivity|now left|].
    apply replaceAll_keeps_apart; [discriminate|reflexivity|reflexivity|now right|].
    now apply replaceAll_sets_apart. }
  assert (Hcomma : Spec.setApart "," true s4).
  { unfold s4, s3.
    apply replaceAll_keeps_apart; [discriminate|reflexivity|reflexivity|now left|].
    now apply replaceAll_sets_apart. }
  pose proof (splitSpaces_words s4 nil (fun c (H : In c nil) => match H with end))
    as Hwords.
  pose proof (splitSpaces_apart "(" s4 eq_refl nil Hopen
                                (or_introl (fun H : In _ nil => H))) as H1.
  pose proof (splitSpaces_apart ")" s4 eq_refl nil Hclose
                                (or_introl (fun H : In _ nil => H))) as H2.
  pose proof (splitSpaces_apart "," s4 eq_refl nil Hcomma
                                (or_introl (fun H : In _ nil => H))) as H3.
  rewrite Forall_forall in *. intros tok Hin.
  destruct (Hwords tok Hin) as [Hne Hc]. split; [assumption|].
  intros c Hcin. destruct (Hc c Hcin) as [Hs [[]|Hfrom]].
  split; [assumption|]. split.
  - intros ->. exact (replaceAll_removes ";" s3 Hfrom).
  - intros [ -> | [ -> | -> ] ]; [now apply H1|now apply H2|now apply H3].
Qed.

End TokenFacts.

(* ================================================================== *)
(** * Errors of a lookup, and reopening a table *)
(* ================================================================== *)

Section MoreLookupFacts.
Context {rt : Runtime}.

Lemma compare_returns v operator c :
  operator <> "LIKE" -> exists b, Table.compare v operator c = Return b.
Proof.
  intros H. unfold Table.compare.
  repeat match goal with
         | |- context [if String.eqb operator ?s then _ else _] =>
             destruct (String.eqb operator s) eqn:?; [try (eexists; reflexivity)|]
         end.
  - match goal with E : String.eqb operator "LIKE" = true |- _ =>
      apply String.eqb_eq in E; contradiction end.
  - eexists; reflexivity.
Qed.

Lemma checkOperators_returns v ops :
  (forall op val, In (op, val) ops -> op <> "LIKE") ->
  exists b, Table.checkOperators v ops = Return b.
Proof.
  induction ops as [|[op val] ops IH]; simpl; intros H; [eauto|].
  destruct (compare_returns v op val) as [b ->]; [apply (H op val); now left|].
  destruct b; [|eauto]. apply IH. intros; eapply H; right; eassumption.
Qed.

Lemma matchesFrom_returns conditions record : forall ks,
  (forall k op val, In k ks -> In (op, val) (Table.enumerable (prop conditions k)) ->
                    op <> "LIKE") ->
  exists b, Table.matchesFrom conditions record ks = Return b.
Proof.
  induction ks as [|k ks IH]; simpl; intros H; [eauto|].
  assert (IH' : exists b, Table.matchesFrom conditions record ks = Return b)
    by (apply IH; intros; eapply H; [right|]; eassumption).
  destruct (String.eqb (typeof (prop conditions k)) "object").
  - destruct (checkOperators_returns (prop record k)
                                     (Table.enumerable (prop conditions k)))
      as [b ->]; [intros; eapply H; [left; reflexivity|eassumption]|].
    destruct b; eauto.
  - destruct (negb _); eauto.
Qed.

(** X28.  [find] throws only through LIKE: when no condition uses the
    operator LIKE, it returns.  This is stated for the lookups that read no
    inherited property: when there is one condition, its column is not
    named like a member of [Object.prototype], and if the column has an
    index, the value looked up does not read as such a name. *)
Theorem find_fails_only_through_LIKE tb conditions :
  (forall k op val,
      In k (keys conditions) ->
      In (op, val) (Table.enumerable (prop conditions k)) -> op <> "LIKE") ->
  (forall c, keys conditions = [c] ->
             Spec.ordinaryName c = true
             /\ (has (Table.indexes tb) c = true ->
                 Spec.ordinaryName (ToString (prop conditions c)) = true)) ->
  exists results, Table.find tb conditions = Return results.
Proof.
  intros H _. unfold Table.find.
  assert (Hscan : exists results,
             match Table.filterRows (Table.matches conditions) (Table.data tb) with
             | Return l => Return (List.map (fun r => Table.copyRow (Some r)) l)
             | other => other
             end = Return results).
  { destruct (filterRows_returns (Table.matches conditions) (Table.data tb))
      as [kept ->]; [|eauto].
    intros r _. now apply matchesFrom_returns. }
  destruct (keys conditions) as [|col [|col' more]]; [eauto| |exact Hscan].
  destruct (get (Table.indexes tb) col) as [ix|]; [|exact Hscan].
  destruct (get ix _); eauto.
Qed.

(** X29.  Reopening a table.  From the files that [save] and
    [saveIndexes] wrote, the constructor takes the rows as JSON gives them
    back and every index as it was saved: an index is read, not rebuilt. *)
Theorem reopened_table_has_the_saved_rows_and_indexes name schema tb fs :
  Spec.columnsDefined schema = true ->
  Table.filePath tb = name ++ ".json" ->
  Table.indexPath tb = name ++ "_index.json" ->
  Table.data (fst (Table.new name schema (Table.saveIndexes tb (Table.save tb fs))))
  = List.map reparseObject (Table.data tb)
  /\ forall column ix,
       get (Table.indexes tb) column = Some ix ->
       get (Table.indexes
              (fst (Table.new name schema (Table.saveIndexes tb (Table.save tb fs)))))
           column
       = Some ix.
Proof.
  intros _ Hf Hi. unfold Table.new.
  set (fs' := Table.saveIndexes tb (Table.save tb fs)).
  set (sch := Table.normalizeSchema schema).
  set (tb0 := {| Table.name := name; Table.schema := sch;
                 Table.filePath := name ++ ".json";
                 Table.indexPath := name ++ "_index.json";
                 Table.data := nil; Table.indexes := nil;
                 Table.primaryKey := Table.findPrimaryKey sch |}).
  assert (Hrows : get fs' (name ++ ".json")
                  = Some (JsonRows (List.map reparseObject (Table.data tb)))).
  { unfold fs', Table.saveIndexes, Table.save. rewrite Hf, Hi.
    rewrite get_set_other by (apply not_eq_sym; apply index_not_data).
    apply get_set_same. }
  assert (Hixs : get fs' (name ++ "_index.json") = Some (JsonIndexes (Table.indexes tb))).
  { unfold fs', Table.saveIndexes. rewrite Hi. apply get_set_same. }
  assert (Hload : Table.loadIndexes (Table.load tb0 fs') fs'
                  = Table.withIndexes
                      (Table.withData tb0 (List.map reparseObject (Table.data tb)))
                      (Table.indexes tb)).
  { unfold Table.load. change (Table.filePath tb0) with (name ++ ".json").
    rewrite Hrows. unfold Table.loadIndexes.
    change (Table.indexPath (Table.withData tb0 _)) with (name ++ "_index.json").
    now rewrite Hixs. }
  rewrite Hload.
  set (tb2 := Table.withIndexes _ (Table.indexes tb)).
  destruct (Table.hasPrimaryKey tb2) eqn:Hpk; simpl.
  - destruct (has (Table.indexes tb) (Table.primaryKeyName tb2)) eqn:Hhas; simpl;
      [auto|].
    unfold Table.createIndex.
    destruct (negb (has (Table.schema tb2) (Table.primaryKeyName tb2))); simpl;
      [auto|].
    split; [reflexivity|]. intros column ix Hget.
    assert (Hne : column <> Table.primaryKeyName tb2).
    { intros ->. unfold has in Hhas. rewrite Hget in Hhas. discriminate. }
    now rewrite !get_set_other by assumption.
  - auto.
Qed.

End MoreLookupFacts.

(** A comparison [id > 1] on the indexed column returns. *)
Lemma find_fails_only_through_LIKE_witness :
  exists results,
    Table.find (rt := Demo.runtime) (fst Demo.people)
               [("id", VObj [(">", Demo.num 1)])] = Return results.
Proof.
  apply (@find_fails_only_through_LIKE Demo.runtime (fst Demo.people)
                                       [("id", VObj [(">", Demo.num 1)])]).
  - intros k op val [<-|[]] [H|[]]. inversion H; subst. discriminate.
  - intros c Hc. inversion Hc; subst. split; [reflexivity|].
    intros _. reflexivity.
Defined.

Lemma reopened_table_has_the_saved_rows_and_indexes_witness :
  Table.data
    (fst (Table.new (rt := Demo.runtime) "t" Demo.peopleSchema
                    (Table.saveIndexes (fst Demo.people)
                                       (Table.save (rt := Demo.runtime)
                                                   (fst Demo.people) nil))))
  = List.map (reparseObject (rt := Demo.runtime)) (Table.data (fst Demo.people))
  /\ forall column ix,
       get (Table.indexes (fst Demo.people)) column = Some ix ->
       get (Table.indexes
              (fst (Table.new (rt := Demo.runtime) "t" Demo.peopleSchema
                              (Table.saveIndexes
                                 (fst Demo.people)
                                 (Table.save (rt := Demo.runtime)
                                             (fst Demo.people) nil)))))
           column
       = Some ix.
Proof.
  exact (@reopened_table_has_the_saved_rows_and_indexes
           Demo.runtime "t" Demo.peopleSchema (fst Demo.people) nil
           eq_refl eq_refl eq_refl).
Defined.
